(** * agentOrchestrator: condition extraction, record filtering, bounded
      memory and routing

    A shallow embedding of [src/main.py] (the plain sequential entry point)
    and [src/campaign.py] (the LangGraph state machine) together with the
    properties of the specification that concern them.

    Python strings are modelled by [string], one [ascii] per character: the
    character functions below are Python's on the ASCII range, and a code
    above 127 is an uncased character that is neither a word character, a
    digit nor white space. *)

From Stdlib Require Import ZArith Ascii String DecimalString.
From stdpp Require Import base option list gmap strings.

Set Warnings "-register-all".

Local Open Scope Z_scope.

(** ** Exceptions *)

Inductive exn :=
| IndexError
| ValueError (msg : string)
| KeyError (key : string)
| RegexError
| ProviderError (msg : string)
| TypeError (msg : string)
| GraphRecursionError.

Inductive res (A : Type) :=
| Ok (a : A)
| Raise (e : exn).
Arguments Ok {A} a.
Arguments Raise {A} e.

Definition bind {A B} (m : res A) (f : A -> res B) : res B :=
  match m with
  | Ok a => f a
  | Raise e => Raise e
  end.

Notation "'let!' x := m 'in' k" := (bind m (fun x => k))
  (at level 10, x name, m at level 100, k at level 200).

(** ** Characters *)

Module Chr.

Definition code (c : ascii) : N := N_of_ascii c.

Definition between (lo hi : N) (c : ascii) : bool :=
  (lo <=? code c)%N && (code c <=? hi)%N.

Definition is_lower : ascii -> bool := between 97 122.
Definition is_upper : ascii -> bool := between 65 90.
Definition is_digit : ascii -> bool := between 48 57.

(** [str.isspace] on one ASCII character: TAB..CR, FS..US and the blank. *)
Definition is_space (c : ascii) : bool :=
  between 9 13 c || between 28 32 c.

(** [\w] of the [re] module. *)
Definition is_word (c : ascii) : bool :=
  is_lower c || is_upper c || is_digit c || (code c =? 95)%N.

Definition upper (c : ascii) : ascii :=
  if is_lower c then ascii_of_N (code c - 32) else c.

Definition lower (c : ascii) : ascii :=
  if is_upper c then ascii_of_N (code c + 32) else c.

Definition eqb (a b : ascii) : bool := Ascii.eqb a b.

(** A literal character of a pattern compiled with [re.IGNORECASE], on ASCII
    text.  Python also lets the letters [I], [K] and [S] of a pattern match
    the cased characters U+0130, U+0131, U+212A and U+017F, which are outside
    the model: a property that rests on the letter case of a text is stated
    for ASCII text. *)
Definition eqb_ic (a b : ascii) : bool := Ascii.eqb (lower a) (lower b).

Definition any (_ : ascii) : bool := true.

Definition is_quote (c : ascii) : bool :=
  Ascii.eqb c "'"%char || Ascii.eqb c "034"%char.

End Chr.

(** ** The [str] methods the program calls *)

Module Str.

Fixpoint map (f : ascii -> ascii) (s : string) : string :=
  match s with
  | EmptyString => EmptyString
  | String c s' => String (f c) (map f s')
  end.

(** [s.upper()] and [s.lower()] on ASCII text, character by character.
    Python's methods are Unicode's: outside ASCII they change other
    characters too, and not always one for one ([lower] of U+0130 is two
    characters). *)
Definition upper : string -> string := map Chr.upper.
Definition lower : string -> string := map Chr.lower.

Fixpoint all (p : ascii -> bool) (s : string) : bool :=
  match s with
  | EmptyString => true
  | String c s' => p c && all p s'
  end.

Fixpoint lstrip (s : string) : string :=
  match s with
  | String c s' => if Chr.is_space c then lstrip s' else s
  | EmptyString => EmptyString
  end.

Fixpoint rstrip (s : string) : string :=
  match s with
  | EmptyString => EmptyString
  | String c s' =>
      match rstrip s' with
      | EmptyString => if Chr.is_space c then EmptyString else String c EmptyString
      | r => String c r
      end
  end.

Definition strip (s : string) : string := rstrip (lstrip s).

(** [sub in s] *)
Fixpoint contains (sub s : string) : bool :=
  String.prefix sub s ||
  match s with
  | EmptyString => false
  | String _ s' => contains sub s'
  end.

Fixpoint drop (n : nat) (s : string) : string :=
  match n, s with
  | S n', String _ s' => drop n' s'
  | _, _ => s
  end.

(** The text before the first occurrence of [sep] and the text after it. *)
Fixpoint partition (sep s : string) : option (string * string) :=
  if String.prefix sep s then Some (EmptyString, drop (String.length sep) s)
  else match s with
       | EmptyString => None
       | String c s' =>
           match partition sep s' with
           | Some (a, b) => Some (String c a, b)
           | None => None
           end
       end.

Fixpoint split_fuel (fuel : nat) (sep s : string) : list string :=
  match fuel with
  | O => [s]
  | S fuel' =>
      match partition sep s with
      | None => [s]
      | Some (a, b) => a :: split_fuel fuel' sep b
      end
  end.

(** [s.split(sep)] for a non-empty [sep]: every cut removes at least one
    character, so [length s] cuts are enough. *)
Definition split (sep s : string) : list string :=
  split_fuel (S (String.length s)) sep s.

(** [l[i]] *)
Definition index {A} (l : list A) (i : nat) : res A :=
  match l !! i with
  | Some a => Ok a
  | None => Raise IndexError
  end.

(** [s.endswith(c)] for a one-character [c]. *)
Fixpoint endswith (c : ascii) (s : string) : bool :=
  match s with
  | EmptyString => false
  | String a EmptyString => Ascii.eqb a c
  | String _ s' => endswith c s'
  end.

(** [s[:-1]] *)
Fixpoint init (s : string) : string :=
  match s with
  | EmptyString => EmptyString
  | String _ EmptyString => EmptyString
  | String a s' => String a (init s')
  end.

(** [s.replace(c, by)] for a one-character [c]. *)
Fixpoint replace (c : ascii) (by_ : string) (s : string) : string :=
  match s with
  | EmptyString => EmptyString
  | String a s' =>
      if Ascii.eqb a c then by_ +:+ replace c by_ s'
      else String a (replace c by_ s')
  end.

(** [any(k in s for k in keys)] *)
Definition contains_any (keys : list string) (s : string) : bool :=
  existsb (fun k => contains k s) keys.

(** [str(n)] for an [int]. *)
Definition of_Z (n : Z) : string := NilZero.string_of_int (Z.to_int n).

End Str.

(** ** The fragment of [re] the program uses

    Every pattern of the source is a sequence of character classes, each one
    taken once, [*] or [+], some of them inside a capture group; the one
    alternation is at top level.  The matcher is the backtracking one of
    [re]: a quantifier takes the longest run first and gives characters back
    one at a time, alternatives are tried left to right and [search] returns
    the leftmost match. *)

Module Re.

Inductive quant := Once | Star | Plus.

Record item := Item { cls : ascii -> bool; rep : quant; grp : bool }.

Definition pattern := list item.

(** whole match, groups, text after the match. *)
Record found := Found { whole : string; groups : list string; rest : string }.

Section Greedy.
Context {R : Type} (p : ascii -> bool) (k : string -> string -> option R).

Fixpoint star (taken s : string) : option R :=
  match s with
  | String c s' =>
      if p c then
        match star (taken +:+ String c EmptyString) s' with
        | Some r => Some r
        | None => k taken s
        end
      else k taken s
  | EmptyString => k taken s
  end.

Definition plus (s : string) : option R :=
  match s with
  | String c s' => if p c then star (String c EmptyString) s' else None
  | EmptyString => None
  end.

Definition once (s : string) : option R :=
  match s with
  | String c s' => if p c then k (String c EmptyString) s' else None
  | EmptyString => None
  end.
End Greedy.

Definition extend (it : item) (taken : string) (m : option found) : option found :=
  match m with
  | Some m' =>
      Some (Found (taken +:+ whole m')
                  (if grp it then taken :: groups m' else groups m')
                  (rest m'))
  | None => None
  end.

(** [re.match]: the pattern at the start of [s]. *)
Fixpoint match_here (pat : pattern) (s : string) : option found :=
  match pat with
  | [] => Some (Found EmptyString [] s)
  | it :: pat' =>
      let k := fun taken s' => extend it taken (match_here pat' s') in
      match rep it with
      | Once => once (cls it) k s
      | Star => star (cls it) k EmptyString s
      | Plus => plus (cls it) k s
      end
  end.

Fixpoint match_alt (alts : list pattern) (s : string) : option found :=
  match alts with
  | [] => None
  | pat :: alts' =>
      match match_here pat s with
      | Some m => Some m
      | None => match_alt alts' s
      end
  end.

(** [re.search]: the text skipped before the leftmost match, and the match. *)
Fixpoint search (alts : list pattern) (s : string) : option (string * found) :=
  match match_alt alts s with
  | Some m => Some (EmptyString, m)
  | None =>
      match s with
      | EmptyString => None
      | String c s' =>
          match search alts s' with
          | Some (pre, m) => Some (String c pre, m)
          | None => None
          end
      end
  end.

Fixpoint split_fuel (fuel : nat) (alts : list pattern) (s : string) : list string :=
  match fuel with
  | O => [s]
  | S fuel' =>
      match search alts s with
      | None => [s]
      | Some (pre, m) => pre :: split_fuel fuel' alts (rest m)
      end
  end.

(** [re.split] for a pattern without groups that matches no empty text. *)
Definition split (alts : list pattern) (s : string) : list string :=
  split_fuel (S (String.length s)) alts s.

Fixpoint findall_fuel (fuel : nat) (alts : list pattern) (s : string) : list string :=
  match fuel with
  | O => []
  | S fuel' =>
      match search alts s with
      | None => []
      | Some (_, m) => whole m :: findall_fuel fuel' alts (rest m)
      end
  end.

(** [re.findall], same proviso. *)
Definition findall (alts : list pattern) (s : string) : list string :=
  findall_fuel (S (String.length s)) alts s.

(** Pattern syntax. *)
Definition lit (c : ascii) : item := Item (Chr.eqb c) Once false.
Definition lit_ic (c : ascii) : item := Item (Chr.eqb_ic c) Once false.
Definition spaces0 : item := Item Chr.is_space Star false.
Definition spaces1 : item := Item Chr.is_space Plus false.
Definition word_group : item := Item Chr.is_word Plus true.
Definition digits_group : item := Item Chr.is_digit Plus true.
Definition quote : item := Item Chr.is_quote Once false.
Definition unquoted_group : item := Item (fun c => negb (Chr.is_quote c)) Plus true.
Definition dot_star : item := Item Chr.any Star false.

End Re.

(** ** Conditions and their extraction ([parse_sql_conditions],
       [extract_conditions]; the two source files have the same text) *)

(** The operators of a condition: the strings ['='], ['>'], ['<'] and
    ['LIKE'], the only ones [extract_conditions] writes. *)
Inductive operator := OpEq | OpGt | OpLt | OpLike.

Record Condition := MkCondition {
  field : string;
  op : operator;
  value : string
}.

Module Extract.
Import Re.

Definition keyword (w : string) : pattern :=
  (fix go (s : string) : pattern :=
     match s with
     | EmptyString => []
     | String c s' => lit_ic c :: go s'
     end) w.

(** [\s+AND\s+|\s+OR\s+] *)
Definition and_or : list pattern :=
  [ [spaces1] ++ keyword "AND" ++ [spaces1];
    [spaces1] ++ keyword "OR" ++ [spaces1] ].

(** The five patterns, in the order of the source list. *)
Definition string_equality : pattern :=
  [word_group; spaces0; lit_ic "="; spaces0; quote; unquoted_group; quote].
Definition numeric_equality : pattern :=
  [word_group; spaces0; lit_ic "="; spaces0; digits_group].
Definition greater_than : pattern :=
  [word_group; spaces0; lit_ic ">"; spaces0; digits_group].
Definition less_than : pattern :=
  [word_group; spaces0; lit_ic "<"; spaces0; digits_group].
Definition like_pattern : pattern :=
  [word_group; spaces0] ++ keyword "LIKE" ++ [spaces0; quote; unquoted_group; quote].

Definition patterns : list pattern :=
  [string_equality; numeric_equality; greater_than; less_than; like_pattern].

(** The body of [if match:], for the clause [part] and the two groups. *)
Definition build (part fld val : string) : Condition :=
  if Str.contains ">" part then MkCondition fld OpGt val
  else if Str.contains "<" part then MkCondition fld OpLt val
  else if Str.contains "LIKE" (Str.upper part)
       then MkCondition fld OpLike (Str.replace "%" ".*" val)
  else MkCondition fld OpEq val.

(** [for pattern in patterns: ... break] *)
Fixpoint first_match (pats : list pattern) (part : string) : res (option Condition) :=
  match pats with
  | [] => Ok None
  | pat :: pats' =>
      match search [pat] part with
      | Some (_, m) =>
          match groups m with
          | [fld; val] => Ok (Some (build part fld val))
          | _ => Raise (ValueError "field, value = match.groups()")
          end
      | None => first_match pats' part
      end
  end.

Definition clean (part : string) : string :=
  let part := Str.strip part in
  if Str.endswith ";" part then Str.init part else part.

(** [for part in parts: ...], [conditions] being the list built so far. *)
Fixpoint collect (conditions : list Condition) (parts : list string)
  : res (list Condition) :=
  match parts with
  | [] => Ok conditions
  | part :: parts' =>
      let! c := first_match patterns (clean part) in
      collect (match c with
               | Some c' => conditions ++ [c']
               | None => conditions
               end) parts'
  end.

Definition extract_conditions (conditions_str : string) : res (list Condition) :=
  collect [] (split and_or conditions_str).

Definition parse_sql_conditions (sql_query : string) : res (list Condition) :=
  if Str.contains "WHERE" (Str.upper sql_query) then
    let! where_clause := Str.index (Str.split "WHERE" (Str.upper sql_query)) 1 in
    let! where_clause := (if Str.contains "GROUP BY" where_clause
                          then Str.index (Str.split "GROUP BY" where_clause) 0
                          else Ok where_clause) in
    let! where_clause := (if Str.contains "ORDER BY" where_clause
                          then Str.index (Str.split "ORDER BY" where_clause) 0
                          else Ok where_clause) in
    extract_conditions (Str.strip where_clause)
  else Ok [].

End Extract.

(** ** What the program takes from the Python runtime

    [float], [re.compile] on a pattern that arrives at run time and
    [json.loads] are library code; the program is modelled over any
    implementation of them. *)

Class Runtime := {
  float : Type;
  (** [float(s)]; [None] is [ValueError]. *)
  float_of_str : string -> option float;
  (** [str(x)] *)
  str_of_float : float -> string;
  (** The order of an [int] and a [float], of two [float]s; [None] when one
      of them is a NaN, for which [<] and [>] are both false. *)
  int_cmp_float : Z -> float -> option comparison;
  float_cmp_float : float -> float -> option comparison;
  regex : Type;
  (** [re.compile(p, re.IGNORECASE)]; [None] is [re.error]. *)
  re_compile_ic : string -> option regex;
  (** [r.search(s) is not None] *)
  re_search : regex -> string -> bool;
  json_value : Type;
  (** [json.loads(s)]; [None] is [json.JSONDecodeError].  The other
      exceptions of [json.loads], which [extract_json_from_query] does not
      catch ([ValueError] on an integer of more than 4300 digits,
      [RecursionError] on deep nesting), are not modelled: what is said of a
      query for every way it can end is said of a query without a candidate,
      on which [json.loads] is not called. *)
  json_loads : string -> option json_value;
  (** [bool(v)] *)
  json_truthy : json_value -> bool
}.

(** ** Records and the record filter ([apply_conditions]) *)

Section Filter.
Context `{RT : Runtime}.

Inductive pyval :=
| VStr (s : string)
| VInt (n : Z)
| VFloat (x : float).

Abbreviation record := (gmap string pyval).

Definition str (v : pyval) : string :=
  match v with
  | VStr s => s
  | VInt n => Str.of_Z n
  | VFloat x => str_of_float x
  end.

(** [float(value)] *)
Definition to_float (value : string) : res float :=
  match float_of_str value with
  | Some f => Ok f
  | None => Raise (ValueError value)
  end.

Definition is_cmp (want : comparison) (c : option comparison) : bool :=
  match c, want with
  | Some Lt, Lt | Some Gt, Gt | Some Eq, Eq => true
  | _, _ => false
  end.

(** [isinstance(v, (int, float)) and v > float(value)] (and [<] for
    [want = Lt]): [float(value)] is evaluated only for a number. *)
Definition numeric_test (want : comparison) (v : pyval) (value : string) : res bool :=
  match v with
  | VStr _ => Ok false
  | VInt n => let! f := to_float value in Ok (is_cmp want (int_cmp_float n f))
  | VFloat x => let! f := to_float value in Ok (is_cmp want (float_cmp_float x f))
  end.

(** [re.compile(value, re.IGNORECASE).search(str(v))] *)
Definition like_test (v : pyval) (value : string) : res bool :=
  match re_compile_ic value with
  | Some r => Ok (re_search r (str v))
  | None => Raise RegexError
  end.

(** One [if operator == ...] arm: [Ok false] is the arm's [break]. *)
Definition test (o : operator) (v : pyval) (value : string) : res bool :=
  match o with
  | OpEq => Ok (String.eqb (str v) value)
  | OpGt => numeric_test Gt v value
  | OpLt => numeric_test Lt v value
  | OpLike => like_test v value
  end.

(** [for condition in conditions: ...]: the value of [matches_all] at the
    end of the inner loop. *)
Fixpoint matches_all (item : record) (conditions : list Condition) : res bool :=
  match conditions with
  | [] => Ok true
  | c :: conditions' =>
      match item !! field c with
      | None => Ok false
      | Some v =>
          let! b := test (op c) v (value c) in
          if b then matches_all item conditions' else Ok false
      end
  end.

(** [for item in data: ...], [filtered_data] being the list built so far. *)
Fixpoint filter_loop (filtered_data : list record) (data : list record)
    (conditions : list Condition) : res (list record) :=
  match data with
  | [] => Ok filtered_data
  | item :: data' =>
      let! b := matches_all item conditions in
      filter_loop (if b then filtered_data ++ [item] else filtered_data)
                  data' conditions
  end.

(** What a call returns: the list object it was given, or a list it built. *)
Inductive returned :=
| TheInput
| NewList (l : list record).

Definition contents (data : list record) (r : returned) : list record :=
  match r with
  | TheInput => data
  | NewList l => l
  end.

Definition apply_conditions (data : list record) (conditions : list Condition)
  : res returned :=
  match conditions with
  | [] => Ok TheInput
  | _ => let! l := filter_loop [] data conditions in Ok (NewList l)
  end.

(** One record of [self.sample_data]. *)
Definition campaign (id : string) (revenue impressions clicks : Z)
    (channel run_date : string) : record :=
  <["campaign_id" := VStr id]> (
  <["influenced_revenue" := VInt revenue]> (
  <["impressions" := VInt impressions]> (
  <["clicks" := VInt clicks]> (
  <["channel" := VStr channel]> (
  <["run_date" := VStr run_date]> ∅))))).

Definition CAMP_A := campaign "CAMP_A" 150000 100000 2500 "WhatsApp" "2025-07-05".
Definition CAMP_B := campaign "CAMP_B" 200000 80000 4000 "Email" "2025-07-10".
Definition CAMP_C := campaign "CAMP_C" 175000 120000 3600 "SMS" "2025-07-15".
Definition CAMP_D := campaign "CAMP_D" 90000 60000 1200 "Push Notification" "2025-07-20".

(** [self.sample_data] of [src/main.py]. *)
Definition main_sample_data : list record := [CAMP_A; CAMP_B; CAMP_C; CAMP_D].

(** [self.sample_data] of [src/campaign.py]. *)
Definition campaign_sample_data : list record := [CAMP_A; CAMP_B].

End Filter.

Abbreviation record := (gmap string pyval).

(** ** Result objects, memory entries and the LLM provider *)

Section Agents.
Context `{RT : Runtime}.

(** The result dictionaries, by their ["tool"] tag and shape;
    [NoMemoryResult] is the canned answer of the memory tool, "No previous
    queries found in memory.", and [data_source] is absent in
    [src/main.py]. *)
Inductive result :=
| DataResult (generated_query : string) (structured_data : list record)
             (summary : string)
| ReportingResult (formatted_output : string) (data_source : option string)
                  (raw_data : json_value + list record)
| NoMemoryResult
| MemoryResult (previous_queries : list (string * result)) (summary : string)
| GreetingResult (response : string)
| FallbackResult (response : string).

(** [{"query": query, "result": result}] *)
Definition entry : Type := string * result.

(** [result["tool"]] *)
Definition tool_tag (r : result) : string :=
  match r with
  | DataResult _ _ _ => "data_tool"
  | ReportingResult _ _ _ => "reporting_tool"
  | NoMemoryResult | MemoryResult _ _ => "memory_tool"
  | GreetingResult _ => "greeting"
  | FallbackResult _ => "fallback"
  end.

(** [result["tool"] in ["data_tool", "reporting_tool"]] *)
Definition is_recorded (r : result) : bool :=
  existsb (String.eqb (tool_tag r)) ["data_tool"; "reporting_tool"].

(** [if len(memory) >= 2: memory.pop(0)] then [memory.append(e)] *)
Definition record_entry (memory : list entry) (e : entry) : list entry :=
  (if (2 <=? length memory)%nat then drop 1 memory else memory) ++ [e].

(** One request to the provider: the text of the reply, or the failure the
    request ends in (network, authentication, rate limit, a reply of
    another shape). *)
Inductive outcome :=
| Content (text : string)
| Fails (msg : string).

(** A chat message: role and content. *)
Definition message : Type := string * string.

(** The provider answers the [n]-th request of the run, given its messages. *)
Definition provider : Type := nat -> list message -> outcome.

(** The wording of the prompts, which the specification leaves open. *)
Class Wording := {
  routing_system : string;
  routing_prompt : string -> string;
  sql_system : string;
  summary_system : string;
  summary_prompt : list record -> string -> string;
  reporting_system : string;
  reporting_prompt : string -> json_value + list record -> string;
  memory_system : string;
  memory_prompt : string -> list entry -> string
}.

Definition greetings : list string :=
  ["hi"; "hello"; "hey"; "good morning"; "good afternoon"; "good evening"].

Definition hello : string :=
  "Hello! I'm your data analytics assistant. How can I help you today?".

Definition can_help : string :=
  "I can help with campaign analytics queries like revenue, performance, CTR, etc.".

(** The greeting test of both files: [any(greeting in query.lower() ...)]. *)
Definition greeting_response (query : string) : string :=
  if Str.contains_any greetings (Str.lower query) then hello else can_help.

End Agents.

(** ** Computations that call the provider: state and exceptions *)

Definition M (S A : Type) : Type := S -> res A * S.

Definition ret {S A} (a : A) : M S A := fun s => (Ok a, s).

Definition raise {S A} (e : exn) : M S A := fun s => (Raise e, s).

Definition mbind {S A B} (m : M S A) (f : A -> M S B) : M S B :=
  fun s =>
    match m s with
    | (Ok a, s') => f a s'
    | (Raise e, s') => (Raise e, s')
    end.

(** [try: m except Exception as e: handler(e)] *)
Definition try_except {S A} (m : M S A) (handler : exn -> M S A) : M S A :=
  fun s =>
    match m s with
    | (Ok a, s') => (Ok a, s')
    | (Raise e, s') => handler e s'
    end.

Definition lift {S A} (r : res A) : M S A := fun s => (r, s).

Notation "'let*' x := m 'in' k" := (mbind m (fun x => k))
  (at level 10, x name, m at level 100, k at level 200).

(** ** [src/main.py]: the sequential entry point *)

Module Main.
Section Main.
Context `{RT : Runtime} {W : Wording} (llm : provider).

(** The agent object: [self.memory], and the number of requests sent to the
    provider so far. *)
Record agent := Agent { memory : list entry; calls : nat }.

Definition init : agent := Agent [] 0.

Definition add_to_memory (query : string) (r : result) : M agent unit :=
  fun self => (Ok tt, Agent (record_entry (memory self) (query, r)) (calls self)).

(** The body of the [try] block: [requests.post], [raise_for_status] and
    the projection of the reply. *)
Definition request (messages : list message) : M agent string :=
  fun self =>
    let self' := Agent (memory self) (S (calls self)) in
    match llm (calls self) messages with
    | Content text => (Ok text, self')
    | Fails msg => (Raise (ProviderError msg), self')
    end.

(** [str(e)] *)
Definition exn_text (e : exn) : string :=
  match e with
  | ProviderError msg | ValueError msg | KeyError msg | TypeError msg => msg
  | IndexError => "list index out of range"
  | RegexError => "bad pattern"
  | GraphRecursionError => "recursion limit reached"
  end.

(** [messages], as built before the [try]: [if system_message:] is false
    for [None] and for the empty string. *)
Definition chat_messages (prompt : string) (system_message : option string)
  : list message :=
  match system_message with
  | Some (String c s) => [("system", String c s)]
  | _ => []
  end ++ [("user", prompt)].

Definition get_llm_response (prompt : string) (system_message : option string)
  : M agent string :=
  try_except (request (chat_messages prompt system_message))
             (fun e => ret ("Error calling Mistral AI: " +:+ exn_text e)).

Definition route_query (query : string) : M agent string :=
  let* reply := get_llm_response (routing_prompt query) (Some routing_system) in
  ret (Str.lower (Str.strip reply)).

Definition data_tool (query : string) : M agent result :=
  let* sql_query := get_llm_response query (Some sql_system) in
  let* conditions := lift (Extract.parse_sql_conditions sql_query) in
  let* filtered := lift (apply_conditions main_sample_data conditions) in
  let filtered_data := contents main_sample_data filtered in
  let* summary := get_llm_response (summary_prompt filtered_data query)
                                   (Some summary_system) in
  ret (DataResult sql_query filtered_data summary).

Definition reporting_tool (query : string) : M agent result :=
  let* formatted_output :=
    get_llm_response (reporting_prompt query (inr main_sample_data))
                     (Some reporting_system) in
  ret (ReportingResult formatted_output None (inr main_sample_data)).

Definition memory_tool (query : string) : M agent result :=
  fun self =>
    match memory self with
    | [] => ret NoMemoryResult self
    | mem =>
        (let* summary := get_llm_response (memory_prompt query mem)
                                          (Some memory_system) in
         ret (MemoryResult mem summary)) self
    end.

Definition handle_greeting (query : string) : M agent result :=
  ret (GreetingResult (greeting_response query)).

(** The handler the [if]/[elif] chain of [process_query] runs for [tool]. *)
Definition dispatch (tool query : string) : M agent result :=
  if Str.contains "data_tool" tool then data_tool query
  else if Str.contains "reporting_tool" tool then reporting_tool query
  else if Str.contains "memory_tool" tool then memory_tool query
  else if Str.contains "greeting" tool then handle_greeting query
  else ret (FallbackResult can_help).

Definition process_query (query : string) : M agent result :=
  let* tool := route_query query in
  let* r := dispatch tool query in
  let* _ := (if is_recorded r then add_to_memory query r else ret tt) in
  ret r.

(** The states of the agent in a run: the initial one, and the state a
    call of [process_query] leaves behind. *)
Inductive reachable : agent -> Prop :=
  | reach_init : reachable init
  | reach_query (query : string) (self : agent) :
    reachable self -> reachable (snd (process_query query self)).

End Main.
End Main.

(** ** [src/campaign.py]: the LangGraph state machine *)

Module Campaign.
Section Campaign.
Context `{RT : Runtime} {W : Wording} (llm : provider).

Record AgentState := State {
  messages : list message;
  query : string;
  tool : option string;
  result_ : option result;
  json_data : option json_value;
  memory : list entry
  }.

Definition set_json_data (v : option json_value) (st : AgentState) : AgentState :=
  State (messages st) (query st) (tool st) (result_ st) v (memory st).
Definition set_tool (t : string) (st : AgentState) : AgentState :=
  State (messages st) (query st) (Some t) (result_ st) (json_data st) (memory st).
Definition set_result (r : result) (st : AgentState) : AgentState :=
  State (messages st) (query st) (tool st) (Some r) (json_data st) (memory st).
Definition set_memory (m : list entry) (st : AgentState) : AgentState :=
  State (messages st) (query st) (tool st) (result_ st) (json_data st) m.

(** [(prompt | self.llm | self.output_parser).invoke(...)]: one request,
    counted in the state; a failure of the provider propagates. *)
Definition invoke_chain (system human : string) : M nat string :=
  fun calls =>
    match llm calls [("system", system); ("human", human)] with
    | Content text => (Ok text, S calls)
    | Fails msg => (Raise (ProviderError msg), S calls)
    end.

(** [\{.*\}] and [\[.*\]] under [re.DOTALL]. *)
Definition json_object : Re.pattern := [Re.lit "{"; Re.dot_star; Re.lit "}"].
Definition json_array : Re.pattern := [Re.lit "["; Re.dot_star; Re.lit "]"].

(** The body of [for match in matches:]; [None] is [continue].  Only
    [json.JSONDecodeError] is caught, and only it is modelled (see
    [json_loads]). *)
Definition load (candidate : string) : option json_value :=
  match json_loads candidate with
  | Some v => Some v
  | None =>
      let cleaned_match := Str.strip candidate in
      let cleaned_match :=
        if Str.endswith "," cleaned_match then Str.init cleaned_match
        else cleaned_match in
      json_loads cleaned_match
  end.

Fixpoint first_loaded (matches : list string) : option json_value :=
  match matches with
  | [] => None
  | m :: matches' =>
      match load m with
      | Some v => Some v
      | None => first_loaded matches'
      end
  end.

Definition extract_json_from_query (q : string) : option json_value :=
  match first_loaded (Re.findall [json_object] q) with
  | Some v => Some v
  | None => first_loaded (Re.findall [json_array] q)
  end.

Definition extract_json_node (st : AgentState) : M nat AgentState :=
  ret (set_json_data (extract_json_from_query (query st)) st).

(** [if json_data] *)
Definition present (j : option json_value) : bool :=
  match j with
  | Some v => json_truthy v
  | None => false
  end.

(** The label [route_query_node] stores for a reply of the classifier. *)
Definition label (j : option json_value) (reply : string) : string :=
  let t := Str.lower (Str.strip reply) in
  if present j && negb (Str.contains "reporting" t) then "reporting_tool" else t.

Definition route_query_node (st : AgentState) : M nat AgentState :=
  let* reply := invoke_chain routing_system (routing_prompt (query st)) in
  ret (set_tool (label (json_data st) reply) st).

Definition route_condition (st : AgentState) : option string := tool st.

Definition process_data_tool_node (st : AgentState) : M nat AgentState :=
  let* sql_query := invoke_chain sql_system (query st) in
  let* conditions := lift (Extract.parse_sql_conditions sql_query) in
  let* filtered := lift (apply_conditions campaign_sample_data conditions) in
  let filtered_data := contents campaign_sample_data filtered in
  let* summary := invoke_chain summary_system
                               (summary_prompt filtered_data (query st)) in
  ret (set_result (DataResult sql_query filtered_data summary) st).

Definition process_reporting_tool_node (st : AgentState) : M nat AgentState :=
  let '(data, data_source) :=
    match json_data st with
    | None => (inr campaign_sample_data, "sample data (no JSON provided in query)")
    | Some v => (inl v, "JSON data from your query")
    end in
  let* formatted_output :=
    invoke_chain reporting_system (reporting_prompt (query st) data) in
  ret (set_result (ReportingResult formatted_output (Some data_source) data) st).

Definition process_memory_tool_node (st : AgentState) : M nat AgentState :=
  match memory st with
  | [] => ret (set_result NoMemoryResult st)
  | mem =>
      let* summary := invoke_chain memory_system (memory_prompt (query st) mem) in
      ret (set_result (MemoryResult mem summary) st)
  end.

Definition process_greeting_node (st : AgentState) : M nat AgentState :=
  ret (set_result (GreetingResult (greeting_response (query st))) st).

Definition process_fallback_node (st : AgentState) : M nat AgentState :=
  ret (set_result (FallbackResult can_help) st).

Definition update_memory_node (st : AgentState) : M nat AgentState :=
  match result_ st with
  | None => raise (TypeError "'NoneType' object is not subscriptable")
  | Some r =>
      ret (set_memory (if is_recorded r
                       then record_entry (memory st) (query st, r)
                       else memory st) st)
  end.

(** The graph of [_build_graph]. *)
Inductive node :=
  | extract_json | route_query | process_data_tool | process_reporting_tool
  | process_memory_tool | process_greeting | process_fallback | update_memory.

Definition run_node (n : node) : AgentState -> M nat AgentState :=
  match n with
  | extract_json => extract_json_node
  | route_query => route_query_node
  | process_data_tool => process_data_tool_node
  | process_reporting_tool => process_reporting_tool_node
  | process_memory_tool => process_memory_tool_node
  | process_greeting => process_greeting_node
  | process_fallback => process_fallback_node
  | update_memory => update_memory_node
  end.

Inductive edge :=
  | Edge (target : node)
  | Conditional (path : AgentState -> option string) (path_map : gmap string node)
  | END.

Definition entry_point : node := extract_json.

Definition path_map : gmap string node :=
  <["data_tool" := process_data_tool]> (
  <["reporting_tool" := process_reporting_tool]> (
  <["memory_tool" := process_memory_tool]> (
  <["greeting" := process_greeting]> (
  <["fallback" := process_fallback]> ∅)))).

Definition edges (n : node) : edge :=
  match n with
  | extract_json => Edge route_query
  | route_query => Conditional route_condition path_map
  | process_data_tool => Edge update_memory
  | process_reporting_tool => Edge update_memory
  | process_memory_tool => END
  | process_greeting => END
  | process_fallback => END
  | update_memory => END
  end.

(** The node that follows [n] in state [st]: a label that is not a key of
    the path map is a [KeyError] in LangGraph. *)
Definition next (n : node) (st : AgentState) : res (option node) :=
  match edges n with
  | Edge n' => Ok (Some n')
  | END => Ok None
  | Conditional path pm =>
      match path st with
      | Some label =>
          match pm !! label with
          | Some n' => Ok (Some n')
          | None => Raise (KeyError label)
          end
      | None => Raise (KeyError "None")
      end
  end.

(** [graph.invoke] from node [n]: at most [limit] nodes are run. *)
Fixpoint run (limit : nat) (n : node) (st : AgentState) : M nat AgentState :=
  match limit with
  | O => raise GraphRecursionError
  | S limit' =>
      let* st' := run_node n st in
      let* n' := lift (next n st') in
      match n' with
      | Some n'' => run limit' n'' st'
      | None => ret st'
      end
  end.

(** LangGraph's default [recursion_limit]. *)
Definition recursion_limit : nat := 25.

Definition invoke (st : AgentState) : M nat AgentState :=
  run recursion_limit entry_point st.

Definition initial_state (q : string) : AgentState :=
  State [] q None None None [].

Definition process_query (q : string) : M nat (option result) :=
  let* final_state := invoke (initial_state q) in
  ret (result_ final_state).

End Campaign.
End Campaign.

(** ** A small runtime, to run the program on examples

    [float] reads unsigned integer literals only (they are exact as doubles
    below 2^53), [re.compile] reads patterns made of word characters, blanks
    and [.*], and [json.loads] reads the empty object, the empty array and an
    array of one unsigned integer.  Everything else is rejected, which is
    not what Python does: the examples stay inside these fragments. *)

Module Example.

Fixpoint digits (acc : Z) (s : string) : option Z :=
  match s with
  | EmptyString => Some acc
  | String c s' =>
      if Chr.is_digit c
      then digits (10 * acc + Z.of_N (Chr.code c - 48)) s'
      else None
  end.

Definition unsigned (s : string) : option Z :=
  match s with
  | EmptyString => None
  | _ => digits 0 s
  end.

Definition no_newline (c : ascii) : bool := negb (Ascii.eqb c "010"%char).

(** The special characters of the pattern language. *)
Definition special (c : ascii) : bool :=
  Str.contains (String c "") ".^$*+?{}[]\|()".

(** A fragment of [re.compile]: [.*] and literal characters, which are the
    characters that are not special ([%] is one); a pattern that uses a
    special character in another way is refused. *)
Fixpoint compile (p : string) : option Re.pattern :=
  match p with
  | EmptyString => Some []
  | String "."%char (String "*"%char p') =>
      cons (Re.Item no_newline Re.Star false) <$> compile p'
  | String c p' =>
      if negb (special c)
      then cons (Re.lit_ic c) <$> compile p'
      else None
  end.

Inductive json :=
| JObject (members : list (string * json))
| JArray (items : list json)
| JNumber (n : Z).

Definition loads (s : string) : option json :=
  if String.eqb s "{}" then Some (JObject [])
  else if String.eqb s "[]" then Some (JArray [])
  else match s with
       | String "["%char s' =>
           if Str.endswith "]" s'
           then (fun n => JArray [JNumber n]) <$> unsigned (Str.init s')
           else None
       | _ => None
       end.

Definition truthy (v : json) : bool :=
  match v with
  | JObject [] | JArray [] | JNumber 0 => false
  | _ => true
  end.

#[export] Instance runtime : Runtime := {|
  float := Z;
  float_of_str := unsigned;
  str_of_float := fun x => Str.of_Z x +:+ ".0";
  int_cmp_float := fun n f => Some (n ?= f);
  float_cmp_float := fun x f => Some (x ?= f);
  regex := Re.pattern;
  re_compile_ic := compile;
  re_search := fun r s => bool_decide (is_Some (Re.search [r] s));
  json_value := json;
  json_loads := loads;
  json_truthy := truthy
|}.

#[export] Instance wording : Wording := {|
  routing_system := "Respond with only the tool name.";
  routing_prompt := fun q => "User query: " +:+ q;
  sql_system := "Respond with only the SQL query.";
  summary_system := "You are a data analyst providing summaries.";
  summary_prompt := fun _ q => "Provide a summary for the query: " +:+ q;
  reporting_system := "You are a reporting assistant.";
  reporting_prompt := fun q _ => "Query: " +:+ q;
  memory_system := "You help users analyze previous query results.";
  memory_prompt := fun q _ => "User query: " +:+ q
|}.

(** A provider that gives the replies of a script, one per request. *)
Definition script (replies : list outcome) : provider :=
  fun n _ => default (Fails "connection refused") (replies !! n).

(** The records of the filter examples of the specification. *)
Definition email : record :=
  <["channel" := VStr "Email"]> (<["influenced_revenue" := VInt 200000]> ∅).
Definition sms : record :=
  <["channel" := VStr "SMS"]> (<["influenced_revenue" := VInt 90000]> ∅).

(** The final state of the graph for the query "hello" answered as a
    greeting. *)
Definition hello_state : Campaign.AgentState :=
  Campaign.State [] "hello" (Some "greeting") (Some (GreetingResult hello)) None [].

(** A data query, then a query for the memory tool. *)
Definition two_queries : provider :=
  script [Content "data_tool"; Content "SELECT * FROM campaigns"; Content "All campaigns.";
          Content "memory_tool"; Content "You asked for the revenue."].

End Example.


(** ** Vocabulary of the properties *)

(** The number of capture groups of a pattern. *)
Definition group_count (pat : Re.pattern) : nat :=
  length (List.filter Re.grp pat).

(** The whole match, the groups and the remaining text hold only characters
    of the class [p]. *)
Definition within (p : ascii -> bool) (m : Re.found) : Prop :=
  Str.all p (Re.whole m) = true /\
  Forall (fun g => Str.all p g = true) (Re.groups m) /\
  Str.all p (Re.rest m) = true.

Definition fields_within (p : ascii -> bool) (cs : list Condition) : Prop :=
  Forall (fun c => Str.all p (field c) = true) cs.

(** The matcher on a text given by its pieces: [stops cls s] says that a run
    of [cls] cannot go on into [s], [fits q mid] that [mid] has a length the
    quantifier [q] accepts. *)
Definition stops (cls : ascii -> bool) (s : string) : bool :=
  match s with
  | EmptyString => true
  | String c _ => negb (cls c)
  end.

Definition nonempty (s : string) : bool :=
  match s with
  | EmptyString => false
  | _ => true
  end.

Definition is_once (q : Re.quant) : bool :=
  match q with
  | Re.Once => true
  | _ => false
  end.

Definition is_star (q : Re.quant) : bool :=
  match q with
  | Re.Star => true
  | _ => false
  end.

Definition fits (q : Re.quant) (mid : string) : bool :=
  match q, mid with
  | Re.Once, String _ EmptyString => true
  | Re.Once, _ => false
  | Re.Star, _ => true
  | Re.Plus, EmptyString => false
  | Re.Plus, _ => true
  end.

(** No alternative of [alts] matches at a position inside [pre], in the
    text [pre +:+ t]. *)
Fixpoint blocked (alts : list Re.pattern) (pre t : string) : Prop :=
  match pre with
  | EmptyString => True
  | String c pre' =>
      Re.match_alt alts (String c pre' +:+ t) = None /\ blocked alts pre' t
  end.

Definition prepend (pre : string) (r : option (string * Re.found))
  : option (string * Re.found) :=
  match r with
  | Some (skipped, m) => Some (pre +:+ skipped, m)
  | None => None
  end.

(** A character that can follow white space without starting [AND] or [OR]. *)
Definition no_keyword_start (d : ascii) : bool :=
  negb (Chr.is_space d) && negb (Chr.eqb_ic "A" d) && negb (Chr.eqb_ic "O" d).

(** A text that [clean] leaves as it is, but for its start. *)
Definition tidy (s : string) : Prop :=
  nonempty s = true /\ Str.rstrip s = s /\ Str.endswith ";" s = false.

(** The clause of the claim, [field = 'X' AND other > 5], by its pieces: two
    names, a quoted value, a number, and the white space between them. *)
Record where_form := WhereForm {
  eq_field : string;
  eq_gap_l : string;
  eq_gap_r : string;
  eq_value : string;
  and_gap_l : string;
  and_gap_r : string;
  gt_field : string;
  gt_gap_l : string;
  gt_gap_r : string;
  gt_value : string
}.

Definition equality_clause (w : where_form) : string :=
  eq_field w +:+ eq_gap_l w +:+ "=" +:+ eq_gap_r w +:+ "'" +:+ eq_value w +:+ "'".

Definition greater_clause (w : where_form) : string :=
  gt_field w +:+ gt_gap_l w +:+ ">" +:+ gt_gap_r w +:+ gt_value w.

Definition where_text (w : where_form) : string :=
  equality_clause w +:+ and_gap_l w +:+ "AND" +:+ and_gap_r w +:+ greater_clause w.

(** A character of the quoted value: no quote, no white space, no [<] and
    no [>]. *)
Definition plain (c : ascii) : bool :=
  negb (Chr.is_quote c) && negb (Chr.is_space c) &&
  negb (Ascii.eqb c "<") && negb (Ascii.eqb c ">").

(** The names are words, the value is plain text, the number is made of
    digits, and the first clause does not spell [LIKE]. *)
Definition well_formed (w : where_form) : bool :=
  nonempty (eq_field w) && Str.all Chr.is_word (eq_field w) &&
  Str.all Chr.is_space (eq_gap_l w) && Str.all Chr.is_space (eq_gap_r w) &&
  nonempty (eq_value w) && Str.all plain (eq_value w) &&
  nonempty (and_gap_l w) && Str.all Chr.is_space (and_gap_l w) &&
  nonempty (and_gap_r w) && Str.all Chr.is_space (and_gap_r w) &&
  nonempty (gt_field w) && Str.all Chr.is_word (gt_field w) &&
  Str.all Chr.is_space (gt_gap_l w) && Str.all Chr.is_space (gt_gap_r w) &&
  nonempty (gt_value w) && Str.all Chr.is_digit (gt_value w) &&
  negb (Str.contains "LIKE" (Str.upper (equality_clause w))).

(** The clause after [str.upper]. *)
Definition upper_form (w : where_form) : where_form :=
  WhereForm (Str.upper (eq_field w)) (eq_gap_l w) (eq_gap_r w) (Str.upper (eq_value w))
            (and_gap_l w) (and_gap_r w)
            (Str.upper (gt_field w)) (gt_gap_l w) (gt_gap_r w) (gt_value w).

(** The clause holds none of the keywords [parse_sql_conditions] cuts at. *)
Definition keyword_free (s : string) : bool :=
  negb (Str.contains "WHERE" (Str.upper s)) &&
  negb (Str.contains "GROUP BY" (Str.upper s)) &&
  negb (Str.contains "ORDER BY" (Str.upper s)).

(** The clause [channel = 'Email' AND clicks > 5]. *)
Definition email_clicks : where_form :=
  WhereForm "channel" " " " " "Email" " " " " "clicks" " " " " "5".

(** The filter in the words of the specification: what it is for a record to
    satisfy a condition. *)
Module Spec.
Section Spec.
Context `{RT : Runtime}.

Definition numeric (v : pyval) : bool :=
  match v with
  | VInt _ | VFloat _ => true
  | VStr _ => false
  end.

(** The numeric comparison of a field value against a float. *)
Definition compare (v : pyval) (f : float) : option comparison :=
  match v with
  | VInt n => int_cmp_float n f
  | VFloat x => float_cmp_float x f
  | VStr _ => None
  end.

Definition passes (want : comparison) (v : pyval) (value : string) : bool :=
  match float_of_str value with
  | Some f => is_cmp want (compare v f)
  | None => false
  end.

(** [re.compile(value, re.IGNORECASE).search(text)] on the condition value
    as the condition stores it, which is what [apply_conditions] does: the
    substitution of [.*] for [%] is made by [extract_conditions] when it
    builds the condition, not by the filter. *)
Definition found_by_search (value : string) (text : string) : bool :=
  match re_compile_ic value with
  | Some r => re_search r text
  | None => false
  end.

(** The [LIKE] rule in the words of the specification: the condition value
    is compiled after the substitution of [.*] for [%]. *)
Definition found_after_substitution (value : string) (text : string) : bool :=
  found_by_search (Str.replace "%" ".*" value) text.

Definition holds (item : record) (c : Condition) : bool :=
  match item !! field c with
  | None => false
  | Some v =>
      match op c with
      | OpEq => String.eqb (str v) (value c)
      | OpGt => numeric v && passes Gt v (value c)
      | OpLt => numeric v && passes Lt v (value c)
      | OpLike => found_by_search (value c) (str v)
      end
  end.

Definition satisfies (conditions : list Condition) (item : record) : bool :=
  forallb (holds item) conditions.

(** The rules in the words of the specification: those of [holds], with the
    substitution in the [LIKE] rule. *)
Definition holds_as_claimed (item : record) (c : Condition) : bool :=
  match op c with
  | OpLike =>
      match item !! field c with
      | None => false
      | Some v => found_after_substitution (value c) (str v)
      end
  | _ => holds item c
  end.

Definition satisfies_as_claimed (conditions : list Condition) (item : record) : bool :=
  forallb (holds_as_claimed item) conditions.

(** No [LIKE] value of the conditions holds a [%]: so it is of every
    condition that [extract_conditions] builds. *)
Definition substituted (conditions : list Condition) : Prop :=
  Forall (fun c => op c = OpLike -> Str.contains "%" (value c) = false) conditions.

(** A condition whose value [float] or [re.compile] rejects. *)
Definition rejected (c : Condition) : bool :=
  match op c with
  | OpEq => false
  | OpGt | OpLt => bool_decide (float_of_str (value c) = None)
  | OpLike => bool_decide (re_compile_ic (value c) = None)
  end.

End Spec.
End Spec.

(** The filtered data of the data tool: [parse_sql_conditions] then
    [apply_conditions] on the sample records. *)
Definition filtered_data `{RT : Runtime} (sample_data : list record) (sql_query : string)
  : res (list record) :=
  let! conditions := Extract.parse_sql_conditions sql_query in
  let! filtered := apply_conditions sample_data conditions in
  Ok (contents sample_data filtered).

(** The text [get_llm_response] returns for an outcome of the request. *)
Definition response_text (o : outcome) : string :=
  match o with
  | Content text => text
  | Fails msg => "Error calling Mistral AI: " +:+ msg
  end.

(** A computation of [src/main.py] that returns, leaves the memory alone and
    only adds requests. *)
Definition quiet `{RT : Runtime} {A} (m : M Main.agent A) (P : A -> Prop) : Prop :=
  forall self, exists a self',
    m self = (Ok a, self') /\ Main.memory self' = Main.memory self /\
    (Main.calls self <= Main.calls self')%nat /\ P a.

(** The request of the routing node of [src/campaign.py] for the query [q]. *)
Definition routing_messages `{RT : Runtime} {W : Wording} (q : string) : list message :=
  [("system", routing_system); ("human", routing_prompt q)].

(** What a handler node leaves in the state when it returns. *)
Definition handled `{RT : Runtime} (st st' : Campaign.AgentState) (r : result) : Prop :=
  st' = Campaign.set_result r st.

Definition good_morning : string := "Good Morning!".

(** ** Vocabulary of the further properties *)

(** *** The cut of the clause *)

(** The suffixes of [sep], [sep] itself apart. *)
Fixpoint proper_tails (sep : string) : list string :=
  match sep with
  | EmptyString => []
  | String _ t => t :: proper_tails t
  end.

(** An occurrence of [sep] could start before the text [w] and end in it. *)
Definition straddles (sep w : string) : bool :=
  existsb (fun r => nonempty r && String.prefix r w) (proper_tails sep).

(** A cut that is found after the text [pre]. *)
Definition after_text (pre : string) (r : option (string * string))
  : option (string * string) :=
  match r with
  | Some (a, b) => Some (pre +:+ a, b)
  | None => None
  end.

(** [s.split(sep)[0] if sep in s else s] *)
Definition cut_at (sep s : string) : res string :=
  if Str.contains sep s then Str.index (Str.split sep s) 0 else Ok s.

(** None of the keywords [parse_sql_conditions] cuts at. *)
Definition no_keyword (s : string) : bool :=
  negb (Str.contains "WHERE" s) && negb (Str.contains "GROUP BY" s) &&
  negb (Str.contains "ORDER BY" s).

(** What follows the clause: nothing, or a text that starts with one of the
    keywords. *)
Definition ends_clause (rest : string) : bool :=
  match rest with
  | EmptyString => true
  | _ => String.prefix "WHERE" rest || String.prefix "GROUP BY" rest ||
         String.prefix "ORDER BY" rest
  end.

(** *** Extracted conditions *)

(** The shape of an extracted condition: a field name made of word
    characters, a value free of quotes, neither of them empty, and no [%] in
    the value of a [LIKE]. *)
Definition shaped (c : Condition) : Prop :=
  nonempty (field c) = true /\ Str.all Chr.is_word (field c) = true /\
  nonempty (value c) = true /\
  Str.all (fun a => negb (Chr.is_quote a)) (value c) = true /\
  (op c = OpLike -> Str.contains "%" (value c) = false).

(** The text a capture group of the item [it] can hold. *)
Definition captures (it : Re.item) (g : string) : Prop :=
  Str.all (Re.cls it) g = true /\ (is_star (Re.rep it) = false -> nonempty g = true).


(** Neither [=], [<] nor [>]. *)
Definition no_sign (c : ascii) : bool :=
  negb (Ascii.eqb c "=") && negb (Ascii.eqb c "<") && negb (Ascii.eqb c ">").

(** [s.isascii()]: the texts on which the letter case of the model is
    Python's. *)
Definition isascii (s : string) : bool :=
  Str.all (fun c => (Chr.code c <? 128)%N) s.

(** A text no pattern of the extractor can read: it holds no [=], [<] or
    [>] and does not spell [LIKE]. *)
Definition unread (s : string) : Prop :=
  Str.all no_sign s = true /\ Str.contains "LIKE" (Str.upper s) = false.

(** *** The filter *)

Section FilterVocabulary.
Context `{RT : Runtime}.

(** The records a call of [apply_conditions] gives back. *)
Definition filter_by (data : list record) (conditions : list Condition)
  : res (list record) :=
  let! r := apply_conditions data conditions in Ok (contents data r).

(** The condition [c] raises when it is evaluated on the field value [v]:
    [float] is called for a number only, [re.compile] for every value. *)
Definition raises_on (c : Condition) (v : pyval) : bool :=
  match op c with
  | OpEq => false
  | OpGt | OpLt => Spec.numeric v && Spec.rejected c
  | OpLike => Spec.rejected c
  end.

(** The loop over the conditions reaches, for the record [item], a
    condition that raises: the record has the fields of the conditions
    before it, and they hold. *)
Fixpoint trips (item : record) (conditions : list Condition) : bool :=
  match conditions with
  | [] => false
  | c :: conditions' =>
      match item !! field c with
      | None => false
      | Some v => raises_on c v || (Spec.holds item c && trips item conditions')
      end
  end.

End FilterVocabulary.

(** Two calls end the same way: with the same value, or both with an
    exception. *)
Definition same_outcome {A} (x y : res A) : Prop :=
  match x, y with
  | Ok a, Ok b => a = b
  | Raise _, Raise _ => True
  | _, _ => False
  end.

(** *** The agents *)

(** The last two elements of a list, in their order. *)
Definition last_two {A} (l : list A) : list A := drop (length l - 2) l.

(** The first of the labels, in the order of the [if]/[elif] chain of
    [src/main.py], that a normalized reply contains. *)
Definition first_label (t : string) : string :=
  if Str.contains "data_tool" t then "data_tool"
  else if Str.contains "reporting_tool" t then "reporting_tool"
  else if Str.contains "memory_tool" t then "memory_tool"
  else if Str.contains "greeting" t then "greeting"
  else "fallback".

Section AgentVocabulary.
Context `{RT : Runtime} {W : Wording}.

(** The requests a query costs, by the result it ends with: the
    classification, and the requests of the handler. *)
Definition requests_of (r : result) : nat :=
  match r with
  | DataResult _ _ _ => 3
  | ReportingResult _ _ _ | MemoryResult _ _ => 2
  | NoMemoryResult | GreetingResult _ | FallbackResult _ => 1
  end.

(** The exchanges that are recorded. *)
Definition recorded (rs : list entry) : list entry :=
  List.filter (fun e => is_recorded (snd e)) rs.

(** The classification request of [src/main.py] for the query [q]. *)
Definition main_routing_messages (q : string) : list message :=
  Main.chat_messages (routing_prompt q) (Some routing_system).

(** The request of the reporting tool of [src/main.py], and its result for
    the outcome [o] of that request. *)
Definition main_reporting_messages (q : string) : list message :=
  Main.chat_messages (reporting_prompt q (inr main_sample_data)) (Some reporting_system).

Definition main_report (o : outcome) : result :=
  ReportingResult (response_text o) None (inr main_sample_data).

(** The data the reporting node of [src/campaign.py] formats, and the
    source it names. *)
Definition reporting_data (j : option json_value)
  : (json_value + list record) * string :=
  match j with
  | None => (inr campaign_sample_data, "sample data (no JSON provided in query)")
  | Some v => (inl v, "JSON data from your query")
  end.

(** The request of the reporting node. *)
Definition reporting_messages (q : string) (j : option json_value) : list message :=
  [("system", reporting_system); ("human", reporting_prompt q (fst (reporting_data j)))].

(** [json.loads] on a candidate, when there is one. *)
Definition loaded (candidate : option string) : option json_value :=
  match candidate with
  | Some m => json_loads m
  | None => None
  end.

Variable llm : provider.

(** [process_query] called on each query of a list in turn, as in the loop
    of the example run of [src/main.py]: the queries with their results. *)
Fixpoint process_all (queries : list string) : M Main.agent (list entry) :=
  match queries with
  | [] => ret []
  | query :: queries' =>
      let* r := Main.process_query llm query in
      let* rs := process_all queries' in
      ret ((query, r) :: rs)
  end.

End AgentVocabulary.

(** The nodes of the graph that are followed by [update_memory]. *)
Definition recording (n : Campaign.node) : bool :=
  match n with
  | Campaign.process_data_tool | Campaign.process_reporting_tool => true
  | _ => false
  end.

(** The handler nodes: the targets of the conditional edge. *)
Definition is_handler (n : Campaign.node) : bool :=
  match n with
  | Campaign.extract_json | Campaign.route_query | Campaign.update_memory => false
  | _ => true
  end.

(** The label of a handler node in the path map. *)
Definition node_label (n : Campaign.node) : string :=
  match n with
  | Campaign.process_data_tool => "data_tool"
  | Campaign.process_reporting_tool => "reporting_tool"
  | Campaign.process_memory_tool => "memory_tool"
  | Campaign.process_greeting => "greeting"
  | Campaign.process_fallback => "fallback"
  | _ => ""
  end.

(** *** The candidates of the JSON extraction *)

(** The two patterns of [extract_json_from_query]: an opening character, any
    text, a closing character. *)
Definition bracket (o c : ascii) : Re.pattern := [Re.lit o; Re.dot_star; Re.lit c].

(** The text before the last [c] of [s], and the text after it. *)
Fixpoint rcut (c : ascii) (s : string) : option (string * string) :=
  match s with
  | EmptyString => None
  | String a s' =>
      match rcut c s' with
      | Some (x, y) => Some (String a x, y)
      | None => if Ascii.eqb c a then Some (EmptyString, s') else None
      end
  end.

(** The text of [q] from its first [o] to the last [c] after it. *)
Definition span (o c : ascii) (q : string) : option string :=
  match Str.partition (String o "") q with
  | Some (_, t) =>
      match rcut c t with
      | Some (x, _) => Some (String o (x +:+ String c ""))
      | None => None
      end
  | None => None
  end.

(** * Properties *)

(** ** Characters and strings *)

Lemma upper_not_lower (c : ascii) : Chr.is_lower (Chr.upper c) = false.
Proof. destruct c as [[] [] [] [] [] [] [] []]; reflexivity. Qed.

Section AllChars.
Variable p : ascii -> bool.

Lemma all_app (s t : string) :
  Str.all p (s +:+ t) = Str.all p s && Str.all p t.
Proof.
  induction s as [|c s IH]; simpl; [reflexivity|].
  rewrite IH. apply andb_assoc.
Qed.

Lemma all_lstrip (s : string) : Str.all p s = true -> Str.all p (Str.lstrip s) = true.
Proof.
  induction s as [|c s IH]; simpl; [done|].
  intros [Hc Hs]%andb_true_iff. destruct (Chr.is_space c); [auto|].
  simpl. rewrite Hc. exact Hs.
Qed.

Lemma all_rstrip (s : string) : Str.all p s = true -> Str.all p (Str.rstrip s) = true.
Proof.
  induction s as [|c s IH]; simpl; [done|].
  intros [Hc Hs]%andb_true_iff. specialize (IH Hs).
  destruct (Str.rstrip s) as [|d r].
  - destruct (Chr.is_space c); simpl; [done|]. by rewrite Hc.
  - change (Str.all p (String c (String d r))) with (p c && Str.all p (String d r)).
    by rewrite Hc, IH.
Qed.

Lemma all_strip (s : string) : Str.all p s = true -> Str.all p (Str.strip s) = true.
Proof. intros H. unfold Str.strip. by apply all_rstrip, all_lstrip. Qed.

Lemma all_init (s : string) : Str.all p s = true -> Str.all p (Str.init s) = true.
Proof.
  induction s as [|c s IH]; simpl; [done|].
  intros [Hc Hs]%andb_true_iff. destruct s as [|d r]; [done|].
  change (Str.all p (String c (Str.init (String d r))))
    with (p c && Str.all p (Str.init (String d r))).
  by rewrite Hc, (IH Hs).
Qed.

Lemma all_drop (n : nat) (s : string) : Str.all p s = true -> Str.all p (Str.drop n s) = true.
Proof.
  revert s. induction n as [|n IH]; intros [|c s]; simpl; try done.
  intros [_ Hs]%andb_true_iff. by apply IH.
Qed.

Lemma all_partition (sep s a b : string) :
  Str.all p s = true -> Str.partition sep s = Some (a, b) ->
  Str.all p a = true /\ Str.all p b = true.
Proof.
  revert a b. induction s as [|c s IH]; intros a b Hs; cbn [Str.partition].
  - destruct (String.prefix sep ""); [|done].
    intros [= <- <-]. split; [done|]. by apply all_drop.
  - destruct (String.prefix sep (String c s)).
    + intros [= <- <-]. split; [done|]. by apply all_drop.
    + simpl in Hs. apply andb_true_iff in Hs as [Hc Hs].
      destruct (Str.partition sep s) as [[a' b']|]; [|done].
      intros [= <- <-]. destruct (IH a' b' Hs eq_refl) as [Ha Hb].
      split; [|done]. simpl. by rewrite Hc, Ha.
Qed.

Lemma all_split_fuel (fuel : nat) (sep s : string) :
  Str.all p s = true -> Forall (fun x => Str.all p x = true) (Str.split_fuel fuel sep s).
Proof.
  revert s. induction fuel as [|fuel IH]; intros s Hs; simpl.
  - by constructor.
  - destruct (Str.partition sep s) as [[a b]|] eqn:E.
    + destruct (all_partition _ _ _ _ Hs E). constructor; auto.
    + by constructor.
Qed.

Lemma all_index (l : list string) (i : nat) (x : string) :
  Forall (fun x => Str.all p x = true) l -> Str.index l i = Ok x -> Str.all p x = true.
Proof.
  intros Hl. unfold Str.index. destruct (l !! i) eqn:E; [|done].
  intros [= <-]. by eapply (proj1 (Forall_lookup _ _) Hl).
Qed.

End AllChars.

Lemma all_upper (s : string) :
  Str.all (fun c => negb (Chr.is_lower c)) (Str.upper s) = true.
Proof.
  unfold Str.upper. induction s as [|c s IH]; simpl; [done|].
  by rewrite upper_not_lower, IH.
Qed.

(** [sep in s] holds exactly when [s] can be cut at [sep]. *)
Lemma contains_partition (sep s : string) :
  Str.contains sep s = true -> exists a b, Str.partition sep s = Some (a, b).
Proof.
  induction s as [|c s IH]; cbn [Str.contains Str.partition].
  - destruct (String.prefix sep ""); [eauto|done].
  - destruct (String.prefix sep (String c s)); [eauto|]. simpl.
    intros H. destruct (IH H) as (a & b & ->). eauto.
Qed.

Lemma split_fuel_head (fuel : nat) (sep s : string) :
  exists x l, Str.split_fuel fuel sep s = x :: l.
Proof.
  destruct fuel; simpl; [eauto|].
  destruct (Str.partition sep s) as [[a b]|]; eauto.
Qed.

Lemma split_index_0 (sep s : string) : exists x, Str.index (Str.split sep s) 0 = Ok x.
Proof.
  unfold Str.split. destruct (split_fuel_head (S (String.length s)) sep s) as (x & l & ->).
  by exists x.
Qed.

Lemma split_index_1 (sep s : string) :
  Str.contains sep s = true -> exists x, Str.index (Str.split sep s) 1 = Ok x.
Proof.
  intros (a & b & E)%contains_partition. unfold Str.split. simpl. rewrite E.
  destruct (split_fuel_head (String.length s) sep b) as (x & l & ->).
  by exists x.
Qed.

Lemma str_app_cons (c : ascii) (s t : string) :
  String c s +:+ t = String c (s +:+ t).
Proof. reflexivity. Qed.

Lemma str_app_nil_r (s : string) : s +:+ "" = s.
Proof. induction s as [|c s IH]; [done|]. by rewrite str_app_cons, IH. Qed.

Lemma str_app_assoc (s t u : string) : (s +:+ t) +:+ u = s +:+ (t +:+ u).
Proof. induction s as [|c s IH]; [done|]. by rewrite !str_app_cons, IH. Qed.

(** ** The matcher *)

Section MatcherFacts.
Import Re.

(** What a successful run of a quantifier has done: it took a run [mid] of
    characters of the class and handed the rest to its continuation. *)
Lemma star_some {R} (cls : ascii -> bool) (k : string -> string -> option R)
    (s taken : string) (r : R) :
  star cls k taken s = Some r ->
  exists mid s', s = mid +:+ s' /\ Str.all cls mid = true /\
                 k (taken +:+ mid) s' = Some r.
Proof.
  revert taken. induction s as [|c s IH]; intros taken; simpl.
  - intros H. exists "", "". by rewrite !str_app_nil_r.
  - destruct (cls c) eqn:Hc.
    + destruct (star cls k (taken +:+ String c "") s) as [r'|] eqn:E.
      * intros [= ->]. destruct (IH _ E) as (mid & s' & -> & Hmid & Hk).
        exists (String c mid), s'. simpl. rewrite Hc, Hmid.
        rewrite str_app_assoc in Hk. done.
      * intros H. exists "", (String c s). by rewrite !str_app_nil_r.
    + intros H. exists "", (String c s). by rewrite !str_app_nil_r.
Qed.

Lemma plus_some {R} (cls : ascii -> bool) (k : string -> string -> option R)
    (s : string) (r : R) :
  plus cls k s = Some r ->
  exists mid s', s = mid +:+ s' /\ Str.all cls mid = true /\ mid <> "" /\
                 k mid s' = Some r.
Proof.
  destruct s as [|c s]; simpl; [done|]. destruct (cls c) eqn:Hc; [|done].
  intros (mid & s' & -> & Hmid & Hk)%star_some.
  exists (String c mid), s'. simpl. by rewrite Hc, Hmid.
Qed.

Lemma once_some {R} (cls : ascii -> bool) (k : string -> string -> option R)
    (s : string) (r : R) :
  once cls k s = Some r ->
  exists c s', s = String c s' /\ cls c = true /\ k (String c "") s' = Some r.
Proof.
  destruct s as [|c s]; simpl; [done|]. destruct (cls c) eqn:Hc; [|done]. eauto.
Qed.

(** One step of [match_here], whatever the quantifier. *)
Lemma item_some (it : item) (k : string -> string -> option found)
    (s : string) (m : found) :
  match rep it with
  | Once => once (cls it) k s
  | Star => star (cls it) k "" s
  | Plus => plus (cls it) k s
  end = Some m ->
  exists mid s', s = mid +:+ s' /\ Str.all (cls it) mid = true /\
                 (rep it <> Star -> mid <> "") /\ k mid s' = Some m.
Proof.
  destruct (rep it).
  - intros (c & s' & -> & Hc & Hk)%once_some.
    exists (String c ""), s'. simpl. by rewrite Hc.
  - intros (mid & s' & -> & Hmid & Hk)%star_some. exists mid, s'. done.
  - intros (mid & s' & -> & Hmid & Hne & Hk)%plus_some. exists mid, s'. done.
Qed.

(** A match has one captured text per group of the pattern. *)
Lemma match_here_groups (pat : pattern) (s : string) (m : found) :
  match_here pat s = Some m -> length (groups m) = group_count pat.
Proof.
  revert s m. induction pat as [|it pat IH]; intros s m; simpl.
  - by intros [= <-].
  - intros (mid & s' & -> & _ & _ & Hk)%item_some. unfold extend in Hk.
    destruct (match_here pat s') as [m'|] eqn:E; [|done].
    injection Hk as <-. unfold group_count. simpl.
    specialize (IH _ _ E). unfold group_count in IH.
    destruct (grp it); simpl; by rewrite IH.
Qed.

Variable p : ascii -> bool.

(** Whole match, groups and remaining text are made of characters of the
    searched string. *)
Lemma match_here_within (pat : pattern) (s : string) (m : found) :
  Str.all p s = true -> match_here pat s = Some m -> within p m.
Proof.
  revert s m. induction pat as [|it pat IH]; intros s m Hs; simpl.
  - intros [= <-]. by repeat split.
  - intros (mid & s' & -> & _ & _ & Hk)%item_some. unfold extend in Hk.
    rewrite all_app in Hs. apply andb_true_iff in Hs as [Hmid Hs'].
    destruct (match_here pat s') as [m'|] eqn:E; [|done].
    injection Hk as <-. destruct (IH _ _ Hs' E) as (Hw & Hg & Hr).
    repeat split; simpl; [|destruct (grp it); auto|done].
    by rewrite all_app, Hmid, Hw.
Qed.

Lemma match_alt_within (alts : list pattern) (s : string) (m : found) :
  Str.all p s = true -> match_alt alts s = Some m -> within p m.
Proof.
  intros Hs. induction alts as [|pat alts IH]; simpl; [done|].
  destruct (match_here pat s) as [m'|] eqn:E; [|done].
  intros [= <-]. by eapply match_here_within.
Qed.

Lemma search_within (alts : list pattern) (s pre : string) (m : found) :
  Str.all p s = true -> search alts s = Some (pre, m) ->
  Str.all p pre = true /\ within p m.
Proof.
  revert pre. induction s as [|c s IH]; intros pre Hs; simpl.
  - destruct (match_alt alts "") as [m'|] eqn:E; [|done].
    intros [= <- <-]. split; [done|]. by eapply match_alt_within.
  - destruct (match_alt alts (String c s)) as [m'|] eqn:E.
    + intros [= <- <-]. split; [done|]. by eapply match_alt_within.
    + simpl in Hs. apply andb_true_iff in Hs as [Hc Hs].
      destruct (search alts s) as [[pre' m']|] eqn:E'; [|done].
      intros [= <- <-]. destruct (IH _ Hs eq_refl) as [Hpre Hm].
      split; [|done]. simpl. by rewrite Hc, Hpre.
Qed.

Lemma split_fuel_within (fuel : nat) (alts : list pattern) (s : string) :
  Str.all p s = true ->
  Forall (fun x => Str.all p x = true) (split_fuel fuel alts s).
Proof.
  revert s. induction fuel as [|fuel IH]; intros s Hs; simpl.
  - by constructor.
  - destruct (search alts s) as [[pre m]|] eqn:E; [|by constructor].
    destruct (search_within _ _ _ _ Hs E) as (Hpre & _ & _ & Hr).
    constructor; auto.
Qed.

End MatcherFacts.

Lemma search_some (alts : list Re.pattern) (s pre : string) (m : Re.found) :
  Re.search alts s = Some (pre, m) ->
  exists s', s = pre +:+ s' /\ Re.match_alt alts s' = Some m.
Proof.
  revert pre. induction s as [|c s IH]; intros pre; simpl.
  - destruct (Re.match_alt alts "") as [m'|] eqn:E; [|done].
    intros [= <- <-]. by exists "".
  - destruct (Re.match_alt alts (String c s)) as [m'|] eqn:E.
    + intros [= <- <-]. by exists (String c s).
    + destruct (Re.search alts s) as [[pre' m']|] eqn:E'; [|done].
      intros [= <- <-]. destruct (IH _ eq_refl) as (s' & -> & Hm). by exists s'.
Qed.

Lemma search_one_groups (pat : Re.pattern) (s pre : string) (m : Re.found) :
  Re.search [pat] s = Some (pre, m) -> length (Re.groups m) = group_count pat.
Proof.
  intros (s' & _ & Hm)%search_some. simpl in Hm.
  destruct (Re.match_here pat s') as [m'|] eqn:E; [|done].
  injection Hm as <-. by eapply match_here_groups.
Qed.

(** ** The condition extractor *)

Section ExtractFacts.
Import Extract.

Lemma patterns_two_groups : Forall (fun pat => group_count pat = 2%nat) patterns.
Proof. repeat constructor. Qed.

Lemma build_field (part fld val : string) : field (build part fld val) = fld.
Proof.
  unfold build. by repeat match goal with |- context [if ?b then _ else _] => destruct b end.
Qed.

(** The [%] of a [LIKE] value are replaced when the condition is built; the
    other operators keep the value as it was matched. *)
Lemma build_value (part fld val : string) :
  value (build part fld val) =
    match op (build part fld val) with
    | OpLike => Str.replace "%" ".*" val
    | _ => val
    end.
Proof.
  unfold build. by repeat match goal with |- context [if ?b then _ else _] => destruct b end.
Qed.

(** What [first_match] returns comes from a match of one of the patterns. *)
Lemma first_match_some (pats : list Re.pattern) (part : string) :
  Forall (fun pat => group_count pat = 2%nat) pats ->
  first_match pats part = Ok None \/
  exists pat pre m fld val,
    pat ∈ pats /\ Re.search [pat] part = Some (pre, m) /\
    Re.groups m = [fld; val] /\
    first_match pats part = Ok (Some (build part fld val)).
Proof.
  induction 1 as [|pat pats Hpat _ IH]; simpl; [by left|].
  destruct (Re.search [pat] part) as [[pre m]|] eqn:E.
  - right. pose proof (search_one_groups _ _ _ _ E) as Hlen. rewrite Hpat in Hlen.
    destruct (Re.groups m) as [|fld [|val [|]]] eqn:Eg; try done.
    exists pat, pre, m, fld, val. repeat split; auto. by left.
  - destruct IH as [IH|(pat' & pre & m & fld & val & Hin & Hs & Hg & Hf)]; [by left|].
    right. exists pat', pre, m, fld, val. repeat split; auto. by right.
Qed.

Variable p : ascii -> bool.

Lemma clean_within (part : string) :
  Str.all p part = true -> Str.all p (clean part) = true.
Proof.
  intros H. unfold clean. destruct (Str.endswith _ _).
  - by apply all_init, all_strip.
  - by apply all_strip.
Qed.

(** [collect] never raises, and every field it records is text of a clause. *)
Lemma collect_ok (parts : list string) (conditions : list Condition) :
  Forall (fun x => Str.all p x = true) parts -> fields_within p conditions ->
  exists cs, collect conditions parts = Ok cs /\ fields_within p cs.
Proof.
  intros Hparts. revert conditions.
  induction Hparts as [|part parts Hpart _ IH]; intros conditions Hcs;
    cbn [collect].
  - by exists conditions.
  - destruct (first_match_some patterns (clean part) patterns_two_groups)
      as [->|(pat & pre & m & fld & val & _ & Hs & Hg & ->)]; cbn [bind].
    + by apply IH.
    + apply IH. apply Forall_app. split; [done|]. constructor; [|done].
      rewrite build_field.
      destruct (search_within p _ _ _ _ (clean_within _ Hpart) Hs) as (_ & _ & Hgs & _).
      rewrite Hg in Hgs. by inversion Hgs.
Qed.

Lemma extract_conditions_ok (conditions_str : string) :
  Str.all p conditions_str = true ->
  exists cs, extract_conditions conditions_str = Ok cs /\ fields_within p cs.
Proof.
  intros H. unfold extract_conditions. apply collect_ok; [|constructor].
  by apply split_fuel_within.
Qed.

End ExtractFacts.

(** [parse_sql_conditions] never raises, and the fields it returns hold no
    lower-case letter: they are text of the upper-cased query. *)
Lemma parse_sql_conditions_ok (sql_query : string) :
  exists cs, Extract.parse_sql_conditions sql_query = Ok cs /\
             fields_within (fun c => negb (Chr.is_lower c)) cs.
Proof.
  unfold Extract.parse_sql_conditions.
  destruct (Str.contains "WHERE" (Str.upper sql_query)) eqn:Hw;
    [|exists []; split; [done|constructor]].
  set (p := fun c => negb (Chr.is_lower c)).
  destruct (split_index_1 _ _ Hw) as (w1 & E1). rewrite E1. cbn [bind].
  assert (H1 : Str.all p w1 = true).
  { eapply all_index; [|exact E1]. apply all_split_fuel, all_upper. }
  assert (exists w2, (if Str.contains "GROUP BY" w1
                      then Str.index (Str.split "GROUP BY" w1) 0 else Ok w1) = Ok w2
                     /\ Str.all p w2 = true) as (w2 & -> & H2).
  { destruct (Str.contains "GROUP BY" w1); [|by exists w1].
    destruct (split_index_0 "GROUP BY" w1) as (w2 & E2). exists w2. split; [done|].
    eapply all_index; [|exact E2]. by apply all_split_fuel. }
  cbn [bind].
  assert (exists w3, (if Str.contains "ORDER BY" w2
                      then Str.index (Str.split "ORDER BY" w2) 0 else Ok w2) = Ok w3
                     /\ Str.all p w3 = true) as (w3 & -> & H3).
  { destruct (Str.contains "ORDER BY" w2); [|by exists w2].
    destruct (split_index_0 "ORDER BY" w2) as (w3 & E3). exists w3. split; [done|].
    eapply all_index; [|exact E3]. by apply all_split_fuel. }
  cbn [bind]. apply extract_conditions_ok. by apply all_strip.
Qed.

(** ** The matcher on a text given by its pieces *)

Ltac by_chars := intros [[] [] [] [] [] [] [] []]; by vm_compute.

Section MatcherSteps.
Import Re.

(** A quantifier takes the longest run first: when the run cannot go on and
    the continuation accepts, that is the answer. *)
Lemma star_greedy {R} (cls : ascii -> bool) (k : string -> string -> option R)
    (mid s' taken : string) (r : R) :
  Str.all cls mid = true -> stops cls s' = true ->
  k (taken +:+ mid) s' = Some r ->
  star cls k taken (mid +:+ s') = Some r.
Proof.
  revert taken. induction mid as [|c mid IH]; intros taken Hmid Hstop Hk.
  - rewrite str_app_nil_r in Hk. simpl.
    destruct s' as [|d s']; simpl; [done|].
    simpl in Hstop. apply negb_true_iff in Hstop. by rewrite Hstop.
  - simpl in Hmid. apply andb_true_iff in Hmid as [Hc Hmid].
    rewrite str_app_cons. simpl. rewrite Hc.
    rewrite (IH (taken +:+ String c "")); [done..|].
    by rewrite str_app_assoc.
Qed.

Lemma match_here_cons (it : item) (pat : pattern) (s : string) :
  match_here (it :: pat) s =
    match rep it with
    | Once => once (cls it) (fun taken s' => extend it taken (match_here pat s')) s
    | Star => star (cls it) (fun taken s' => extend it taken (match_here pat s')) "" s
    | Plus => plus (cls it) (fun taken s' => extend it taken (match_here pat s')) s
    end.
Proof. reflexivity. Qed.

Lemma match_here_step (it : item) (pat : pattern) (mid s' : string) (m : found) :
  fits (rep it) mid = true -> Str.all (cls it) mid = true ->
  stops (cls it) s' || is_once (rep it) = true ->
  match_here pat s' = Some m ->
  match_here (it :: pat) (mid +:+ s') =
    Some (Found (mid +:+ whole m) (if grp it then mid :: groups m else groups m) (rest m)).
Proof.
  intros Hfit Hmid Hstop Hm. rewrite match_here_cons. destruct (rep it) eqn:Hrep.
  - destruct mid as [|c [|]]; try done. simpl in Hmid. rewrite andb_true_r in Hmid.
    change (String c "" +:+ s') with (String c s'). unfold once.
    by rewrite Hmid, Hm.
  - simpl in Hstop. rewrite orb_false_r in Hstop.
    apply star_greedy; [done..|]. by rewrite Hm.
  - simpl in Hstop. rewrite orb_false_r in Hstop.
    destruct mid as [|c mid]; [done|]. simpl in Hmid.
    apply andb_true_iff in Hmid as [Hc Hmid]. rewrite str_app_cons.
    unfold plus. rewrite Hc.
    apply star_greedy; [done..|]. by rewrite Hm.
Qed.

(** A successful match starts with a run for the first item, and goes on
    with a match of the remaining items. *)
Lemma match_here_cons_some (it : item) (pat : pattern) (s : string) (m : found) :
  match_here (it :: pat) s = Some m ->
  exists mid s' m', s = mid +:+ s' /\ Str.all (cls it) mid = true /\
                    (is_star (rep it) = false -> nonempty mid = true) /\
                    match_here pat s' = Some m'.
Proof.
  rewrite match_here_cons. intros (mid & s' & -> & Hmid & Hne & Hk)%item_some.
  unfold extend in Hk. destruct (match_here pat s') as [m'|] eqn:E; [|done].
  exists mid, s', m'. split_and!; [done..| |done].
  intros Hrep. destruct mid; [|done]. exfalso. apply Hne; [|done].
  intros Hs. by rewrite Hs in Hrep.
Qed.

(** A pattern with a [Once] or [Plus] item matches no text without a
    character of the class of that item. *)
Lemma match_here_needs (it : item) (pat1 pat2 : pattern) (s : string) :
  is_star (rep it) = false ->
  Str.all (fun c => negb (cls it c)) s = true ->
  match_here (pat1 ++ it :: pat2) s = None.
Proof.
  intros Hrep. revert s. induction pat1 as [|it1 pat1 IH]; intros s Hs.
  - destruct (match_here _ s) as [m|] eqn:E; [exfalso|done].
    apply match_here_cons_some in E as (mid & s' & _ & -> & Hmid & Hne & _).
    destruct mid as [|c mid]; [by specialize (Hne Hrep)|].
    simpl in Hmid. apply andb_true_iff in Hmid as [Hc _].
    rewrite str_app_cons in Hs. simpl in Hs. by rewrite Hc in Hs.
  - destruct (match_here _ s) as [m|] eqn:E; [exfalso|done].
    change ((it1 :: pat1) ++ it :: pat2) with (it1 :: (pat1 ++ it :: pat2)) in E.
    apply match_here_cons_some in E as (mid & s' & m' & -> & _ & _ & E').
    rewrite all_app in Hs. apply andb_true_iff in Hs as [_ Hs].
    by rewrite (IH _ Hs) in E'.
Qed.

Lemma match_here_head_miss (it : item) (pat : pattern) (c : ascii) (t : string) :
  is_star (rep it) = false -> cls it c = false ->
  match_here (it :: pat) (String c t) = None.
Proof.
  intros Hrep Hc. rewrite match_here_cons. destruct (rep it); [|done|]; simpl; by rewrite Hc.
Qed.

Lemma search_here (alts : list pattern) (s : string) (m : found) :
  match_alt alts s = Some m -> search alts s = Some ("", m).
Proof. intros H. destruct s; simpl; by rewrite H. Qed.

Lemma search_none (alts : list pattern) (p : ascii -> bool) (s : string) :
  (forall t, Str.all p t = true -> match_alt alts t = None) ->
  Str.all p s = true -> search alts s = None.
Proof.
  intros Hp. induction s as [|c s IH]; intros Hs.
  - simpl. by rewrite (Hp "" eq_refl).
  - cbn [search]. rewrite (Hp _ Hs).
    simpl in Hs. apply andb_true_iff in Hs as [_ Hs]. by rewrite (IH Hs).
Qed.

Lemma search_blocked (alts : list pattern) (pre t : string) :
  blocked alts pre t -> search alts (pre +:+ t) = prepend pre (search alts t).
Proof.
  induction pre as [|c pre IH]; simpl.
  - intros _. change ("" +:+ t) with t. by destruct (search alts t) as [[? ?]|].
  - intros [Hc Hpre]. rewrite str_app_cons in *. cbn [search]. rewrite Hc, (IH Hpre).
    by destruct (search alts t) as [[? ?]|].
Qed.

Lemma blocked_app (alts : list pattern) (p1 p2 t : string) :
  blocked alts p1 (p2 +:+ t) -> blocked alts p2 t -> blocked alts (p1 +:+ p2) t.
Proof.
  intros H1 H2. induction p1 as [|c p1 IH]; [done|].
  destruct H1 as [Hc H1]. rewrite str_app_cons. simpl. split; [|by apply IH].
  by rewrite str_app_cons, str_app_assoc in *.
Qed.

End MatcherSteps.

(** ** Character classes and the [str] methods on pieces *)

Lemma space_not_word (c : ascii) : Chr.is_space c = true -> Chr.is_word c = false.
Proof. revert c. by_chars. Qed.

Lemma word_not_space (c : ascii) : Chr.is_word c = true -> Chr.is_space c = false.
Proof. revert c. by_chars. Qed.

Lemma digit_not_space (c : ascii) : Chr.is_digit c = true -> Chr.is_space c = false.
Proof. revert c. by_chars. Qed.

Lemma space_not_A (e : ascii) : Chr.is_space e = true -> Chr.eqb_ic "A" e = false.
Proof. revert e. by_chars. Qed.

Lemma space_not_O (e : ascii) : Chr.is_space e = true -> Chr.eqb_ic "O" e = false.
Proof. revert e. by_chars. Qed.

Lemma digit_no_keyword (d : ascii) : Chr.is_digit d = true -> no_keyword_start d = true.
Proof. revert d. by_chars. Qed.

Lemma all_impl (p q : ascii -> bool) (s : string) :
  (forall c, p c = true -> q c = true) -> Str.all p s = true -> Str.all q s = true.
Proof.
  intros Hpq. induction s as [|c s IH]; simpl; [done|].
  intros [Hc Hs]%andb_true_iff. by rewrite (Hpq c Hc), IH.
Qed.

Lemma fits_plus (s : string) : nonempty s = true -> fits Re.Plus s = true.
Proof. by destruct s. Qed.

(** A run of [p] characters stops the class [cls] when the classes are
    disjoint. *)
Lemma stops_run (cls p : ascii -> bool) (mid t : string) :
  (forall c, p c = true -> cls c = false) ->
  Str.all p mid = true -> stops cls t = true -> stops cls (mid +:+ t) = true.
Proof.
  intros Hd Hmid Ht. destruct mid as [|c mid]; [done|].
  simpl in Hmid. apply andb_true_iff in Hmid as [Hc _].
  rewrite str_app_cons. simpl. by rewrite (Hd c Hc).
Qed.

Lemma stops_run_nonempty (cls p : ascii -> bool) (mid t : string) :
  (forall c, p c = true -> cls c = false) ->
  nonempty mid = true -> Str.all p mid = true -> stops cls (mid +:+ t) = true.
Proof.
  intros Hd Hne Hmid. destruct mid as [|c mid]; [done|].
  simpl in Hmid. apply andb_true_iff in Hmid as [Hc _].
  rewrite str_app_cons. simpl. by rewrite (Hd c Hc).
Qed.

Lemma nonempty_app_r (a b : string) : nonempty b = true -> nonempty (a +:+ b) = true.
Proof. by destruct a, b. Qed.

Lemma lstrip_id (s : string) : stops Chr.is_space s = true -> Str.lstrip s = s.
Proof. destruct s as [|c s]; simpl; [done|]. intros H%negb_true_iff. by rewrite H. Qed.

Lemma lstrip_spaces (ws t : string) :
  Str.all Chr.is_space ws = true -> stops Chr.is_space t = true ->
  Str.lstrip (ws +:+ t) = t.
Proof.
  intros Hws Ht. induction ws as [|c ws IH]; [by apply lstrip_id|].
  simpl in Hws. apply andb_true_iff in Hws as [Hc Hws].
  rewrite str_app_cons. simpl. rewrite Hc. by apply IH.
Qed.

Lemma rstrip_no_space (s : string) :
  Str.all (fun c => negb (Chr.is_space c)) s = true -> Str.rstrip s = s.
Proof.
  induction s as [|c s IH]; simpl; [done|].
  intros [Hc Hs]%andb_true_iff. rewrite (IH Hs). apply negb_true_iff in Hc.
  rewrite Hc. by destruct s.
Qed.

Lemma rstrip_app (a b : string) :
  nonempty b = true -> Str.rstrip b = b -> Str.rstrip (a +:+ b) = a +:+ b.
Proof.
  intros Hne Hb. induction a as [|c a IH]; [done|].
  rewrite str_app_cons. simpl. rewrite IH.
  destruct (a +:+ b) eqn:E; [|done]. destruct a, b; done.
Qed.

Lemma endswith_app (c : ascii) (a b : string) :
  nonempty b = true -> Str.endswith c (a +:+ b) = Str.endswith c b.
Proof.
  intros Hne. induction a as [|d a IH]; [done|].
  rewrite str_app_cons. simpl. destruct (a +:+ b) eqn:E; [|done]. destruct a, b; done.
Qed.

Lemma endswith_none (c : ascii) (s : string) :
  Str.all (fun a => negb (Ascii.eqb a c)) s = true -> Str.endswith c s = false.
Proof.
  induction s as [|d s IH]; simpl; [done|].
  intros [Hd Hs]%andb_true_iff. apply negb_true_iff in Hd.
  destruct s; [done|]. by apply IH.
Qed.

Lemma contains_char_none (c : ascii) (s : string) :
  Str.all (fun a => negb (Ascii.eqb a c)) s = true ->
  Str.contains (String c "") s = false.
Proof.
  induction s as [|d s IH]; simpl; [done|].
  intros [Hd Hs]%andb_true_iff. rewrite (IH Hs), orb_false_r.
  apply negb_true_iff in Hd. destruct (ascii_dec c d) as [->|]; [|done].
  by rewrite Ascii.eqb_refl in Hd.
Qed.

Lemma contains_app_r (sub a b : string) :
  Str.contains sub b = true -> Str.contains sub (a +:+ b) = true.
Proof.
  intros Hb. induction a as [|c a IH]; [done|].
  rewrite str_app_cons. cbn [Str.contains]. rewrite IH. apply orb_true_r.
Qed.

Lemma contains_char_head (c : ascii) (s : string) :
  Str.contains (String c "") (String c s) = true.
Proof. simpl. destruct (ascii_dec c c); [|done]. by destruct s. Qed.

Lemma tidy_app (a b : string) : tidy b -> tidy (a +:+ b).
Proof.
  intros (Hne & Hr & He). split_and!.
  - by apply nonempty_app_r.
  - by apply rstrip_app.
  - by rewrite endswith_app.
Qed.

Lemma tidy_digits (s : string) :
  nonempty s = true -> Str.all Chr.is_digit s = true -> tidy s.
Proof.
  intros Hne Hs. split_and!; [done|..].
  - apply rstrip_no_space. revert Hs. apply all_impl. by_chars.
  - apply endswith_none. revert Hs. apply all_impl. by_chars.
Qed.

Lemma clean_tidy (s : string) : stops Chr.is_space s = true -> tidy s -> Extract.clean s = s.
Proof.
  intros Hs (_ & Hr & He). unfold Extract.clean, Str.strip.
  by rewrite (lstrip_id s Hs), Hr, He.
Qed.

(** ** The separator [AND]/[OR] *)

Section Separator.
Import Re.

Lemma and_or_unfold :
  Extract.and_or =
    [spaces1 :: lit_ic "A" :: lit_ic "N" :: lit_ic "D" :: [spaces1];
     spaces1 :: lit_ic "O" :: lit_ic "R" :: [spaces1]].
Proof. reflexivity. Qed.

(** The separator needs white space at its start. *)
Lemma and_or_head (c : ascii) (t : string) :
  Chr.is_space c = false -> match_alt Extract.and_or (String c t) = None.
Proof.
  intros Hc. rewrite and_or_unfold. cbn [match_alt].
  by rewrite !match_here_head_miss.
Qed.

Lemma blocked_no_space (pre t : string) :
  Str.all (fun c => negb (Chr.is_space c)) pre = true -> blocked Extract.and_or pre t.
Proof.
  induction pre as [|c pre IH]; simpl; [done|].
  intros [Hc Hpre]%andb_true_iff. apply negb_true_iff in Hc.
  split; [|by apply IH]. rewrite ?str_app_cons. by apply and_or_head.
Qed.

(** Where a run of white space ends. *)
Lemma run_end_char (ws mid t' s'' : string) (d e : ascii) :
  ws +:+ String d t' = mid +:+ String e s'' ->
  Str.all Chr.is_space ws = true -> Str.all Chr.is_space mid = true ->
  Chr.is_space d = false ->
  Chr.is_space e = true \/ e = d.
Proof.
  revert mid. induction ws as [|w ws IH]; intros [|m0 mid]; rewrite ?str_app_cons;
    simpl; intros [= ] Hws Hmid Hd; subst.
  - by right.
  - apply andb_true_iff in Hmid as [Hm _]. congruence.
  - apply andb_true_iff in Hws as [Hw _]. by left.
  - apply andb_true_iff in Hws as [_ Hws]. apply andb_true_iff in Hmid as [_ Hmid].
    by eapply IH.
Qed.

Lemma spaces_then_literal_miss (a d : ascii) (pat : pattern) (ws t' : string) :
  (forall e, Chr.is_space e = true -> Chr.eqb_ic a e = false) ->
  Str.all Chr.is_space ws = true -> Chr.is_space d = false -> Chr.eqb_ic a d = false ->
  match_here (spaces1 :: lit_ic a :: pat) (ws +:+ String d t') = None.
Proof.
  intros Ha Hws Hd Had.
  destruct (match_here _ _) as [m|] eqn:E; [exfalso|done].
  apply match_here_cons_some in E as (mid & s' & m' & Heq & Hmid & _ & E').
  apply match_here_cons_some in E' as (lit & s'' & _ & -> & Hlit & Hne & _).
  destruct lit as [|e lit]; [by specialize (Hne eq_refl)|].
  simpl in Hlit. apply andb_true_iff in Hlit as [He _].
  rewrite str_app_cons in Heq.
  destruct (run_end_char _ _ _ _ _ _ Heq Hws Hmid Hd) as [Hsp| ->].
  - rewrite (Ha e Hsp) in He. done.
  - congruence.
Qed.

(** White space that is not followed by [AND] or [OR] separates nothing. *)
Lemma blocked_spaces (ws t' : string) (d : ascii) :
  Str.all Chr.is_space ws = true -> no_keyword_start d = true ->
  blocked Extract.and_or ws (String d t').
Proof.
  unfold no_keyword_start. intros Hws [[Hd Ha]%andb_true_iff Ho]%andb_true_iff.
  apply negb_true_iff in Hd, Ha, Ho.
  induction ws as [|w ws IH]; [done|].
  split; [|apply IH; simpl in Hws; by apply andb_true_iff in Hws as [_ ?]].
  rewrite and_or_unfold. cbn [match_alt].
  rewrite !spaces_then_literal_miss; auto using space_not_A, space_not_O.
Qed.

Lemma blocked_spaces_digits (ws n t' : string) :
  Str.all Chr.is_space ws = true -> nonempty n = true -> Str.all Chr.is_digit n = true ->
  blocked Extract.and_or ws (n +:+ t').
Proof.
  intros Hws Hn0 Hn. destruct n as [|d n]; [done|].
  simpl in Hn. apply andb_true_iff in Hn as [Hd _]. rewrite str_app_cons.
  apply blocked_spaces; [done|]. by apply digit_no_keyword.
Qed.

(** The two equality patterns find nothing in a clause without [=]. *)
Lemma equality_needs_equals (s : string) :
  Str.all (fun c => negb (Chr.eqb_ic "=" c)) s = true ->
  search [Extract.string_equality] s = None /\
  search [Extract.numeric_equality] s = None.
Proof.
  intros Hs. split; (eapply search_none; [|exact Hs]); intros t Ht; cbn [match_alt].
  - change Extract.string_equality
      with ([word_group; spaces0] ++ lit_ic "=" :: [spaces0; quote; unquoted_group; quote]).
    by rewrite match_here_needs.
  - change Extract.numeric_equality
      with ([word_group; spaces0] ++ lit_ic "=" :: [spaces0; digits_group]).
    by rewrite match_here_needs.
Qed.

End Separator.

(** ** The extractor on the clause of the claim *)

Section Clause.
Import Re.
Variable w : where_form.
Hypothesis WF : well_formed w = true.

Lemma wf_parts :
  (nonempty (eq_field w) = true /\ Str.all Chr.is_word (eq_field w) = true) /\
  (Str.all Chr.is_space (eq_gap_l w) = true /\ Str.all Chr.is_space (eq_gap_r w) = true) /\
  (nonempty (eq_value w) = true /\ Str.all plain (eq_value w) = true) /\
  (nonempty (and_gap_l w) = true /\ Str.all Chr.is_space (and_gap_l w) = true) /\
  (nonempty (and_gap_r w) = true /\ Str.all Chr.is_space (and_gap_r w) = true) /\
  (nonempty (gt_field w) = true /\ Str.all Chr.is_word (gt_field w) = true) /\
  (Str.all Chr.is_space (gt_gap_l w) = true /\ Str.all Chr.is_space (gt_gap_r w) = true) /\
  (nonempty (gt_value w) = true /\ Str.all Chr.is_digit (gt_value w) = true) /\
  Str.contains "LIKE" (Str.upper (equality_clause w)) = false.
Proof.
  pose proof WF as W. unfold well_formed in W.
  repeat (let A := fresh in apply andb_true_iff in W as [W A]).
  split_and!; try done. by apply negb_true_iff.
Qed.

Lemma equality_clause_match (t : string) :
  match_here Extract.string_equality (equality_clause w +:+ t) =
    Some (Found (equality_clause w) [eq_field w; eq_value w] t).
Proof.
  destruct wf_parts as ((Hf0 & Hf) & (H1 & H2) & (HX0 & HX) & _).
  unfold equality_clause. rewrite !str_app_assoc.
  pose proof (eq_refl : match_here [] t = Some (Found "" [] t)) as M.
  eapply (match_here_step quote _ "'") in M; [|done|done|apply orb_true_r].
  eapply (match_here_step unquoted_group _ (eq_value w)) in M;
    [|by apply fits_plus| |done].
  2:{ revert HX. apply all_impl. by_chars. }
  eapply (match_here_step quote _ "'") in M; [|done|done|apply orb_true_r].
  eapply (match_here_step spaces0 _ (eq_gap_r w)) in M; [|done|done|done].
  eapply (match_here_step (lit_ic "=") _ "=") in M; [|done|done|apply orb_true_r].
  eapply (match_here_step spaces0 _ (eq_gap_l w)) in M; [|done|done|done].
  eapply (match_here_step word_group _ (eq_field w)) in M; [|by apply fits_plus|done|].
  2:{ apply orb_true_iff. left. eapply stops_run; [|exact H1|done].
      apply space_not_word. }
  exact M.
Qed.

Lemma greater_clause_match :
  match_here Extract.greater_than (greater_clause w) =
    Some (Found (greater_clause w) [gt_field w; gt_value w] "").
Proof.
  destruct wf_parts as (_ & _ & _ & _ & _ & (Hg0 & Hg) & (H5 & H6) & (HN0 & HN) & _).
  unfold greater_clause.
  pose proof (eq_refl : match_here [] "" = Some (Found "" [] "")) as M.
  eapply (match_here_step digits_group _ (gt_value w)) in M;
    [|by apply fits_plus|done|done].
  eapply (match_here_step spaces0 _ (gt_gap_r w)) in M; [|done|done|].
  2:{ apply orb_true_iff. left. eapply stops_run_nonempty; [|exact HN0|exact HN].
      apply digit_not_space. }
  eapply (match_here_step (lit_ic ">") _ ">") in M; [|done|done|apply orb_true_r].
  eapply (match_here_step spaces0 _ (gt_gap_l w)) in M; [|done|done|done].
  eapply (match_here_step word_group _ (gt_field w)) in M; [|by apply fits_plus|done|].
  2:{ apply orb_true_iff. left. eapply stops_run; [|exact H5|done].
      apply space_not_word. }
  cbn [whole groups rest grp word_group spaces0 lit_ic digits_group] in M.
  rewrite !str_app_nil_r in M. exact M.
Qed.

Lemma separator_match :
  match_alt Extract.and_or (and_gap_l w +:+ "AND" +:+ and_gap_r w +:+ greater_clause w) =
    Some (Found (and_gap_l w +:+ "AND" +:+ and_gap_r w) [] (greater_clause w)).
Proof.
  destruct wf_parts as (_ & _ & _ & (H30 & H3) & (H40 & H4) & (Hg0 & Hg) & _).
  rewrite and_or_unfold. cbn [match_alt].
  pose proof (eq_refl : match_here [] (greater_clause w)
                        = Some (Found "" [] (greater_clause w))) as M.
  eapply (match_here_step spaces1 _ (and_gap_r w)) in M; [|by apply fits_plus|done|].
  2:{ apply orb_true_iff. left. unfold greater_clause.
      eapply stops_run_nonempty; [|exact Hg0|exact Hg]. apply word_not_space. }
  eapply (match_here_step (lit_ic "D") _ "D") in M; [|done|done|apply orb_true_r].
  eapply (match_here_step (lit_ic "N") _ "N") in M; [|done|done|apply orb_true_r].
  eapply (match_here_step (lit_ic "A") _ "A") in M; [|done|done|apply orb_true_r].
  eapply (match_here_step spaces1 _ (and_gap_l w)) in M; [|by apply fits_plus|done|done].
  cbn [whole groups rest grp spaces1 lit_ic] in M.
  rewrite !str_app_nil_r in M.
  change ("A" +:+ "N" +:+ "D" +:+ and_gap_r w +:+ greater_clause w)
    with ("AND" +:+ and_gap_r w +:+ greater_clause w) in M.
  change ("A" +:+ "N" +:+ "D" +:+ and_gap_r w) with ("AND" +:+ and_gap_r w) in M.
  by rewrite M.
Qed.

Lemma equality_clause_blocked (t' : string) :
  blocked Extract.and_or (equality_clause w) (and_gap_l w +:+ t').
Proof.
  destruct wf_parts as ((Hf0 & Hf) & (H1 & H2) & (HX0 & HX) & _).
  unfold equality_clause.
  apply blocked_app; [apply blocked_no_space; revert Hf; apply all_impl; by_chars|].
  apply blocked_app; [by apply blocked_spaces|].
  apply blocked_app; [by apply blocked_no_space|].
  apply blocked_app; [by apply blocked_spaces|].
  apply blocked_app; [by apply blocked_no_space|].
  apply blocked_app; [apply blocked_no_space; revert HX; apply all_impl; by_chars|].
  by apply blocked_no_space.
Qed.

Lemma greater_clause_unsplit : search Extract.and_or (greater_clause w) = None.
Proof.
  destruct wf_parts as (_ & _ & _ & _ & _ & (Hg0 & Hg) & (H5 & H6) & (HN0 & HN) & _).
  rewrite <- (str_app_nil_r (greater_clause w)).
  rewrite search_blocked; [done|]. unfold greater_clause.
  apply blocked_app; [apply blocked_no_space; revert Hg; apply all_impl; by_chars|].
  apply blocked_app; [by apply blocked_spaces|].
  apply blocked_app; [by apply blocked_no_space|].
  apply blocked_app; [by apply blocked_spaces_digits|].
  apply blocked_no_space. revert HN. apply all_impl. by_chars.
Qed.

Lemma split_where_text :
  Re.split Extract.and_or (where_text w) = [equality_clause w; greater_clause w].
Proof.
  unfold Re.split. cbn [split_fuel]. unfold where_text.
  rewrite search_blocked by apply equality_clause_blocked.
  rewrite (search_here _ _ _ separator_match). cbn [prepend rest].
  rewrite str_app_nil_r. f_equal.
  destruct (String.length _); cbn [split_fuel]; [done|].
  by rewrite greater_clause_unsplit.
Qed.

Lemma greater_clause_tidy : tidy (greater_clause w).
Proof.
  destruct wf_parts as (_ & _ & _ & _ & _ & _ & _ & (HN0 & HN) & _).
  unfold greater_clause. do 4 apply tidy_app. by apply tidy_digits.
Qed.

Lemma equality_clause_clean : Extract.clean (equality_clause w) = equality_clause w.
Proof.
  destruct wf_parts as ((Hf0 & Hf) & _).
  apply clean_tidy.
  - unfold equality_clause. eapply stops_run_nonempty; [|exact Hf0|exact Hf].
    apply word_not_space.
  - unfold equality_clause. do 6 apply tidy_app. by split_and!.
Qed.

Lemma greater_clause_clean : Extract.clean (greater_clause w) = greater_clause w.
Proof.
  destruct wf_parts as (_ & _ & _ & _ & _ & (Hg0 & Hg) & _).
  apply clean_tidy; [|apply greater_clause_tidy].
  unfold greater_clause. eapply stops_run_nonempty; [|exact Hg0|exact Hg].
  apply word_not_space.
Qed.

Lemma equality_clause_condition :
  Extract.first_match Extract.patterns (equality_clause w) =
    Ok (Some (MkCondition (eq_field w) OpEq (eq_value w))).
Proof.
  destruct wf_parts as ((Hf0 & Hf) & (H1 & H2) & (HX0 & HX) & _ & _ & _ & _ & _ & Hlike).
  cbn [Extract.first_match Extract.patterns].
  assert (Hs : search [Extract.string_equality] (equality_clause w)
               = Some ("", Found (equality_clause w) [eq_field w; eq_value w] "")).
  { apply search_here. cbn [match_alt].
    pose proof (equality_clause_match "") as M. rewrite str_app_nil_r in M.
    by rewrite M. }
  rewrite Hs. cbn [groups]. unfold Extract.build. rewrite Hlike.
  assert (Hgt : Str.contains ">" (equality_clause w) = false).
  { apply contains_char_none. unfold equality_clause. rewrite !all_app.
    rewrite (all_impl Chr.is_word _ (eq_field w)), (all_impl Chr.is_space _ (eq_gap_l w)),
      (all_impl Chr.is_space _ (eq_gap_r w)), (all_impl plain _ (eq_value w));
      try done; by_chars. }
  assert (Hlt : Str.contains "<" (equality_clause w) = false).
  { apply contains_char_none. unfold equality_clause. rewrite !all_app.
    rewrite (all_impl Chr.is_word _ (eq_field w)), (all_impl Chr.is_space _ (eq_gap_l w)),
      (all_impl Chr.is_space _ (eq_gap_r w)), (all_impl plain _ (eq_value w));
      try done; by_chars. }
  by rewrite Hgt, Hlt.
Qed.

Lemma greater_clause_condition :
  Extract.first_match Extract.patterns (greater_clause w) =
    Ok (Some (MkCondition (gt_field w) OpGt (gt_value w))).
Proof.
  destruct wf_parts as (_ & _ & _ & _ & _ & (Hg0 & Hg) & (H5 & H6) & (HN0 & HN) & _).
  cbn [Extract.first_match Extract.patterns].
  assert (Hne : Str.all (fun c => negb (Chr.eqb_ic "=" c)) (greater_clause w) = true).
  { unfold greater_clause. rewrite !all_app.
    rewrite (all_impl Chr.is_word _ (gt_field w)), (all_impl Chr.is_space _ (gt_gap_l w)),
      (all_impl Chr.is_space _ (gt_gap_r w)), (all_impl Chr.is_digit _ (gt_value w));
      try done; by_chars. }
  destruct (equality_needs_equals _ Hne) as [-> ->].
  rewrite (search_here _ _ (Found (greater_clause w) [gt_field w; gt_value w] ""));
    [|cbn [match_alt]; by rewrite greater_clause_match].
  cbn [groups]. unfold Extract.build.
  assert (Hgt : Str.contains ">" (greater_clause w) = true).
  { unfold greater_clause. do 2 apply contains_app_r. apply contains_char_head. }
  by rewrite Hgt.
Qed.

(** [extract_conditions] on the clause as it is written returns what is
    written: two conditions, in clause order, with the field, the operator
    and the value of each clause. *)
Lemma extract_conditions_as_written :
  Extract.extract_conditions (where_text w) =
    Ok [MkCondition (eq_field w) OpEq (eq_value w);
        MkCondition (gt_field w) OpGt (gt_value w)].
Proof.
  unfold Extract.extract_conditions. rewrite split_where_text.
  cbn [Extract.collect].
  rewrite equality_clause_clean, equality_clause_condition. cbn [bind].
  rewrite greater_clause_clean, greater_clause_condition. reflexivity.
Qed.

Lemma where_text_tidy : tidy (where_text w).
Proof. unfold where_text. do 4 apply tidy_app. apply greater_clause_tidy. Qed.

Lemma where_text_starts : stops Chr.is_space (where_text w) = true.
Proof.
  destruct wf_parts as ((Hf0 & Hf) & _).
  unfold where_text, equality_clause. rewrite !str_app_assoc.
  eapply stops_run_nonempty; [|exact Hf0|exact Hf]. apply word_not_space.
Qed.

End Clause.

(** ** [parse_sql_conditions] on the clause of the claim *)

Lemma upper_app (a b : string) : Str.upper (a +:+ b) = Str.upper a +:+ Str.upper b.
Proof.
  unfold Str.upper. induction a as [|c a IH]; [done|].
  rewrite str_app_cons. simpl. by rewrite IH.
Qed.

Lemma upper_fixed (s : string) :
  Str.all (fun c => negb (Chr.is_lower c)) s = true -> Str.upper s = s.
Proof.
  unfold Str.upper. induction s as [|c s IH]; simpl; [done|].
  intros [Hc Hs]%andb_true_iff. rewrite (IH Hs). apply negb_true_iff in Hc.
  unfold Chr.upper. by rewrite Hc.
Qed.

Lemma upper_idem (s : string) : Str.upper (Str.upper s) = Str.upper s.
Proof. apply upper_fixed, all_upper. Qed.

Lemma upper_all (p : ascii -> bool) (s : string) :
  (forall c, p c = true -> p (Chr.upper c) = true) ->
  Str.all p s = true -> Str.all p (Str.upper s) = true.
Proof.
  intros Hp. unfold Str.upper. induction s as [|c s IH]; simpl; [done|].
  intros [Hc Hs]%andb_true_iff. by rewrite (Hp c Hc), IH.
Qed.

Lemma nonempty_upper (s : string) : nonempty (Str.upper s) = nonempty s.
Proof. by destruct s. Qed.

Lemma upper_spaces (s : string) : Str.all Chr.is_space s = true -> Str.upper s = s.
Proof. intros H. apply upper_fixed. revert H. apply all_impl. by_chars. Qed.

Lemma upper_digits (s : string) : Str.all Chr.is_digit s = true -> Str.upper s = s.
Proof. intros H. apply upper_fixed. revert H. apply all_impl. by_chars. Qed.

Lemma not_contains_partition (sep s : string) :
  Str.contains sep s = false -> Str.partition sep s = None.
Proof.
  induction s as [|c s IH]; cbn [Str.contains Str.partition].
  - by destruct (String.prefix sep "").
  - destruct (String.prefix sep (String c s)); [done|]. simpl.
    intros H. by rewrite (IH H).
Qed.

Lemma prefix_app (sep t : string) : String.prefix sep (sep +:+ t) = true.
Proof.
  induction sep as [|a sep IH]; [by destruct t|].
  rewrite str_app_cons. simpl. by destruct (ascii_dec a a).
Qed.

Lemma drop_app (sep t : string) : Str.drop (String.length sep) (sep +:+ t) = t.
Proof. induction sep as [|a sep IH]; [by destruct t|]. by rewrite str_app_cons. Qed.

Lemma partition_at_prefix (sep t : string) :
  Str.partition sep (sep +:+ t) = Some ("", t).
Proof.
  pose proof (prefix_app sep t) as H. pose proof (drop_app sep t) as Hd.
  destruct (sep +:+ t); cbn [Str.partition]; by rewrite H, Hd.
Qed.

Lemma contains_at_prefix (sep t : string) : Str.contains sep (sep +:+ t) = true.
Proof.
  pose proof (prefix_app sep t) as H.
  destruct (sep +:+ t); cbn [Str.contains]; by rewrite H.
Qed.

Section UpperClause.
Variable w : where_form.
Hypothesis WF : well_formed w = true.

Lemma upper_equality_clause :
  Str.upper (equality_clause w) = equality_clause (upper_form w).
Proof.
  destruct (wf_parts w WF) as (_ & (H1 & H2) & _).
  unfold equality_clause. rewrite !upper_app.
  by rewrite (upper_spaces _ H1), (upper_spaces _ H2).
Qed.

Lemma upper_greater_clause :
  Str.upper (greater_clause w) = greater_clause (upper_form w).
Proof.
  destruct (wf_parts w WF) as (_ & _ & _ & _ & _ & _ & (H5 & H6) & (_ & HN) & _).
  unfold greater_clause. rewrite !upper_app.
  by rewrite (upper_spaces _ H5), (upper_spaces _ H6), (upper_digits _ HN).
Qed.

Lemma upper_where_text : Str.upper (where_text w) = where_text (upper_form w).
Proof.
  destruct (wf_parts w WF) as (_ & _ & _ & (_ & H3) & (_ & H4) & _).
  unfold where_text. rewrite !upper_app.
  by rewrite upper_equality_clause, upper_greater_clause,
    (upper_spaces _ H3), (upper_spaces _ H4).
Qed.

Lemma well_formed_upper : well_formed (upper_form w) = true.
Proof.
  destruct (wf_parts w WF)
    as ((Hf0 & Hf) & (H1 & H2) & (HX0 & HX) & (H30 & H3) & (H40 & H4) &
        (Hg0 & Hg) & (H5 & H6) & (HN0 & HN) & Hlike).
  unfold well_formed.
  rewrite <- upper_equality_clause, upper_idem, Hlike.
  cbn [upper_form eq_field eq_gap_l eq_gap_r eq_value and_gap_l and_gap_r
         gt_field gt_gap_l gt_gap_r gt_value].
  rewrite !nonempty_upper, Hf0, HX0, H30, H40, Hg0, HN0, H1, H2, H3, H4, H5, H6, HN.
  rewrite !upper_all; try done; by_chars.
Qed.

(** C1, as the code has it.  On a text of the form of the claim,
    [WHERE field = 'X' AND other > 5], the extractor returns two conditions,
    in clause order, with the operators that are written and with the
    upper-cased field names and value: what is written only when it is
    written in upper case. *)
Theorem extractor_upper_cases_the_clause (gap : string) :
  Str.all Chr.is_space gap = true ->
  keyword_free (gap +:+ where_text w) = true ->
  Extract.parse_sql_conditions ("WHERE" +:+ gap +:+ where_text w) =
    Ok [MkCondition (Str.upper (eq_field w)) OpEq (Str.upper (eq_value w));
        MkCondition (Str.upper (gt_field w)) OpGt (gt_value w)].
Proof.
  intros Hgap Hfree. unfold keyword_free in Hfree.
  apply andb_true_iff in Hfree as [[Hw Hg]%andb_true_iff Ho].
  apply negb_true_iff in Hw, Hg, Ho.
  unfold Extract.parse_sql_conditions. rewrite upper_app.
  set (u := Str.upper (gap +:+ where_text w)) in *.
  change (Str.upper "WHERE") with "WHERE".
  assert (Hsplit : Str.index (Str.split "WHERE" ("WHERE" +:+ u)) 1 = Ok u).
  { unfold Str.split. change (String.length ("WHERE" +:+ u))
      with (S (S (S (S (S (String.length u)))))).
    cbn [Str.split_fuel]. rewrite partition_at_prefix.
    by rewrite (not_contains_partition _ _ Hw). }
  rewrite contains_at_prefix, Hsplit. cbn [bind]. rewrite Hg. cbn [bind]. rewrite Ho. cbn [bind].
  subst u. rewrite upper_app, (upper_spaces _ Hgap), upper_where_text.
  unfold Str.strip.
  rewrite lstrip_spaces; [|done|apply where_text_starts, well_formed_upper].
  destruct (where_text_tidy (upper_form w) well_formed_upper) as (_ & -> & _).
  by rewrite extract_conditions_as_written by apply well_formed_upper.
Qed.

End UpperClause.

(** ** The record filter *)


Section FilterFacts.
Context `{RT : Runtime}.

Lemma rejected_fails (c : Condition) (item : record) :
  Spec.rejected c = true -> Spec.holds item c = false.
Proof.
  unfold Spec.rejected, Spec.holds, Spec.passes, Spec.found_by_search.
  destruct (item !! field c) as [v|]; [|done].
  destruct (op c); [done|..]; intros ->%bool_decide_eq_true; by rewrite ?andb_false_r.
Qed.

(** One arm of the filter against the words of the specification. *)
Lemma test_holds (item : record) (c : Condition) (v : pyval) :
  item !! field c = Some v ->
  match test (op c) v (value c) with
  | Ok b => b = Spec.holds item c
  | Raise _ => Spec.rejected c = true
  end.
Proof.
  intros Hv. unfold Spec.holds, Spec.rejected, test. rewrite Hv.
  destruct (op c); [done|..].
  - unfold numeric_test, Spec.passes, to_float.
    destruct v; simpl; [done|..]; destruct (float_of_str (value c)); simpl;
      by try apply bool_decide_eq_true.
  - unfold numeric_test, Spec.passes, to_float.
    destruct v; simpl; [done|..]; destruct (float_of_str (value c)); simpl;
      by try apply bool_decide_eq_true.
  - unfold like_test, Spec.found_by_search.
    destruct (re_compile_ic (value c)); by try apply bool_decide_eq_true.
Qed.

Lemma matches_all_spec (item : record) (conditions : list Condition) :
  match matches_all item conditions with
  | Ok b => b = Spec.satisfies conditions item
  | Raise _ => exists c, c ∈ conditions /\ Spec.rejected c = true
  end.
Proof.
  induction conditions as [|c cs IH]; simpl; [done|].
  destruct (item !! field c) as [v|] eqn:Hv.
  - pose proof (test_holds item c v Hv) as Ht.
    destruct (test (op c) v (value c)) as [b|e]; simpl.
    + subst b. destruct (Spec.holds item c); simpl; [|done].
      destruct (matches_all item cs); [done|].
      destruct IH as (c' & Hin & Hc'). exists c'. split; [by right|done].
    + exists c. split; [by left|done].
  - unfold Spec.holds at 1. by rewrite Hv.
Qed.

Lemma satisfies_rejected (conditions : list Condition) (c : Condition) (item : record) :
  c ∈ conditions -> Spec.rejected c = true -> Spec.satisfies conditions item = false.
Proof.
  intros Hin Hc. unfold Spec.satisfies.
  apply not_true_is_false. rewrite forallb_forall. intros Hall.
  apply list_elem_of_In in Hin. specialize (Hall _ Hin).
  by rewrite (rejected_fails c item Hc) in Hall.
Qed.

Lemma filter_loop_spec (data filtered : list record) (conditions : list Condition) :
  match filter_loop filtered data conditions with
  | Ok l => l = filtered ++ List.filter (Spec.satisfies conditions) data
  | Raise _ => exists c, c ∈ conditions /\ Spec.rejected c = true
  end.
Proof.
  revert filtered. induction data as [|item data IH]; intros filtered; simpl.
  - by rewrite app_nil_r.
  - pose proof (matches_all_spec item conditions) as Hm.
    destruct (matches_all item conditions) as [b|e]; simpl; [|done].
    subst b. specialize (IH (if Spec.satisfies conditions item
                             then filtered ++ [item] else filtered)).
    destruct (filter_loop _ data conditions) as [l|e]; [|done].
    subst l. destruct (Spec.satisfies conditions item); [|done].
    by rewrite <- app_assoc.
Qed.

(** The filter returns when no condition value is rejected. *)
Lemma filter_loop_returns (data filtered : list record) (conditions : list Condition) :
  forallb (fun c => negb (Spec.rejected c)) conditions = true ->
  exists l, filter_loop filtered data conditions = Ok l.
Proof.
  intros Hall. pose proof (filter_loop_spec data filtered conditions) as Hs.
  destruct (filter_loop filtered data conditions) as [l|e]; [by exists l|].
  destruct Hs as (c & Hin & Hc). rewrite forallb_forall in Hall.
  apply list_elem_of_In in Hin. specialize (Hall _ Hin). by rewrite Hc in Hall.
Qed.

(** A record that lacks the field of the first condition is dropped before
    any value is converted. *)
Lemma filter_loop_missing (data filtered : list record) (c : Condition)
    (cs : list Condition) :
  Forall (fun item : record => item !! field c = None) data ->
  filter_loop filtered data (c :: cs) = Ok filtered.
Proof.
  induction 1 as [|item data Hitem _ IH]; [done|].
  cbn [filter_loop matches_all]. by rewrite Hitem.
Qed.

Lemma campaign_lookup_upper (id : string) (revenue impressions clicks : Z)
    (channel run_date fld : string) :
  Str.all (fun c => negb (Chr.is_lower c)) fld = true ->
  campaign id revenue impressions clicks channel run_date !! fld = None.
Proof.
  intros H. unfold campaign.
  rewrite !lookup_insert_ne; [apply lookup_empty|..]; by intros <-.
Qed.

End FilterFacts.

(** C4.  Filtering with an empty condition list returns the list it was
    given: the call returns its argument itself, not a copy, so the records
    are the same objects in the same order. *)
Theorem apply_conditions_empty_identity `{RT : Runtime} (data : list record) :
  apply_conditions data [] = Ok TheInput /\
  (let! r := apply_conditions data [] in Ok (contents data r)) = Ok data.
Proof. split; reflexivity. Qed.

(** A text without the character [c] is left as it is by [replace]. *)
Lemma replace_without (c : ascii) (by_ s : string) :
  Str.contains (String c "") s = false -> Str.replace c by_ s = s.
Proof.
  induction s as [|a s IH]; [done|]. cbn [Str.contains Str.replace].
  intros [Hp Hs]%orb_false_iff. rewrite (IH Hs).
  destruct (Ascii.eqb a c) eqn:E; [|done].
  apply Ascii.eqb_eq in E as ->. simpl in Hp.
  destruct (ascii_dec c c); [|done]. by destruct s.
Qed.

(** On conditions whose [LIKE] values hold no [%] the rules of the
    specification are those of the filter. *)
Lemma satisfies_as_claimed_eq `{RT : Runtime}
    (conditions : list Condition) (item : record) :
  Spec.substituted conditions ->
  Spec.satisfies_as_claimed conditions item = Spec.satisfies conditions item.
Proof.
  unfold Spec.satisfies_as_claimed, Spec.satisfies.
  induction 1 as [|c cs Hc _ IH]; [done|]. cbn [forallb]. rewrite IH. f_equal.
  unfold Spec.holds_as_claimed, Spec.holds, Spec.found_after_substitution.
  destruct (op c) eqn:E; try done.
  by rewrite (replace_without _ _ _ (Hc eq_refl)).
Qed.

(** C2, as the code has it.  With at least one condition, the filter
    returns a new list holding, in their order, exactly the records that
    satisfy every condition: a condition on a missing field fails, [=]
    compares [str] of the field value with the condition value, [>] and [<]
    hold for a numeric field value that passes the comparison against
    [float(value)], [LIKE] holds when the condition value, compiled as it is
    stored, is found by [search] in [str] of the field value.  When [float]
    or [re.compile] raises on a condition value the call raises, no record
    is kept, and no record satisfies that condition.  The filter makes no
    substitution in a [LIKE] value; on values without [%], as
    [extract_conditions] builds them, its rule is the rule with the
    substitution. *)
Theorem record_filter_keeps_iff_all_hold `{RT : Runtime}
    (data : list record) (c : Condition) (cs : list Condition) :
  match apply_conditions data (c :: cs) with
  | Ok r => r = NewList (List.filter (Spec.satisfies (c :: cs)) data)
  | Raise _ => forall item, Spec.satisfies (c :: cs) item = false
  end /\
  (Spec.substituted (c :: cs) ->
   forall item, Spec.satisfies_as_claimed (c :: cs) item = Spec.satisfies (c :: cs) item).
Proof.
  split; [|intros Hs item; by apply satisfies_as_claimed_eq].
  unfold apply_conditions.
  pose proof (filter_loop_spec data [] (c :: cs)) as Hs.
  destruct (filter_loop [] data (c :: cs)) as [l|e]; cbn [bind].
  - by subst l.
  - destruct Hs as (c' & Hin & Hc'). intros item. by eapply satisfies_rejected.
Qed.

(** The filter returns a list whenever every condition value is accepted by
    [float] and [re.compile]. *)
Lemma apply_conditions_returns `{RT : Runtime}
    (data : list record) (conditions : list Condition) :
  forallb (fun c => negb (Spec.rejected c)) conditions = true ->
  exists r, apply_conditions data conditions = Ok r /\
            contents data r = match conditions with
                              | [] => data
                              | _ => List.filter (Spec.satisfies conditions) data
                              end.
Proof.
  intros Hall. destruct conditions as [|c cs]; [by exists TheInput|].
  pose proof (filter_loop_spec data [] (c :: cs)) as Hs.
  unfold apply_conditions.
  destruct (filter_loop_returns data [] (c :: cs) Hall) as (l & El).
  rewrite El in *. cbn [bind]. exists (NewList l). split; [done|].
  by subst l.
Qed.

(** On the sample records, conditions whose fields hold no lower-case letter
    keep nothing, and no value is converted or compiled. *)
Lemma apply_conditions_sample `{RT : Runtime} (conditions : list Condition) :
  fields_within (fun a => negb (Chr.is_lower a)) conditions ->
  apply_conditions main_sample_data conditions =
    Ok (match conditions with [] => TheInput | _ => NewList [] end) /\
  apply_conditions campaign_sample_data conditions =
    Ok (match conditions with [] => TheInput | _ => NewList [] end).
Proof.
  intros Hup. destruct conditions as [|c cs]; [done|].
  assert (Hc : Str.all (fun a => negb (Chr.is_lower a)) (field c) = true)
    by (by inversion Hup).
  unfold apply_conditions.
  rewrite !filter_loop_missing; [done|..];
    repeat constructor; by apply campaign_lookup_upper.
Qed.


(** ** The bounded memory *)

Section MemoryFacts.
Context `{RT : Runtime}.

Lemma record_entry_bound (memory : list entry) (e : entry) :
  (length memory <= 2)%nat -> (length (record_entry memory e) <= 2)%nat.
Proof.
  unfold record_entry. intros H. destruct (2 <=? length memory)%nat eqn:E.
  - rewrite length_app, length_drop. simpl. lia.
  - apply Nat.leb_gt in E. rewrite length_app. simpl. lia.
Qed.

Lemma record_entry_full (a b e : entry) : record_entry [a; b] e = [b; e].
Proof. reflexivity. Qed.

Lemma record_entries_bound (es : list entry) (memory : list entry) :
  (length memory <= 2)%nat -> (length (fold_left record_entry es memory) <= 2)%nat.
Proof.
  revert memory. induction es as [|e es IH]; intros memory H; simpl; [done|].
  by apply IH, record_entry_bound.
Qed.

End MemoryFacts.

(** ** [src/main.py] *)

Section MainFacts.
Context `{RT : Runtime} {W : Wording} (llm : provider).
Import Main.

Lemma get_llm_response_eq (prompt : string) (system_message : option string)
    (self : agent) :
  get_llm_response llm prompt system_message self =
    (Ok (response_text (llm (calls self) (chat_messages prompt system_message))),
     Agent (memory self) (S (calls self))).
Proof.
  unfold get_llm_response, try_except, request.
  by destruct (llm (calls self) (chat_messages prompt system_message)).
Qed.

Lemma quiet_ret {A} (a : A) (P : A -> Prop) : P a -> quiet (ret a) P.
Proof. intros H self. exists a, self. done. Qed.

Lemma quiet_bind {A B} (m : M agent A) (f : A -> M agent B)
    (P : A -> Prop) (Q : B -> Prop) :
  quiet m P -> (forall a, P a -> quiet (f a) Q) -> quiet (mbind m f) Q.
Proof.
  intros Hm Hf self. destruct (Hm self) as (a & self1 & E1 & Hmem1 & Hc1 & Ha).
  destruct (Hf a Ha self1) as (b & self2 & E2 & Hmem2 & Hc2 & Hb).
  exists b, self2. unfold mbind. rewrite E1, E2.
  repeat split; [congruence|lia|done].
Qed.

Lemma quiet_llm (prompt : string) (system_message : option string) :
  quiet (get_llm_response llm prompt system_message) (fun _ => True).
Proof.
  intros self. eexists _, _. rewrite get_llm_response_eq.
  repeat split. simpl. lia.
Qed.

Lemma quiet_lift_ok {A B} (a : A) (f : A -> M agent B) (Q : B -> Prop) :
  quiet (f a) Q -> quiet (mbind (lift (Ok a)) f) Q.
Proof. intros H self. apply H. Qed.

Lemma quiet_data_tool (query : string) :
  quiet (data_tool llm query) (fun r => tool_tag r = "data_tool").
Proof.
  unfold data_tool. eapply quiet_bind; [apply quiet_llm|]. intros sql_query _.
  destruct (parse_sql_conditions_ok sql_query) as (cs & Hcs & Hup).
  destruct (apply_conditions_sample cs Hup) as [E _]. rewrite Hcs.
  apply quiet_lift_ok. rewrite E. apply quiet_lift_ok.
  eapply quiet_bind; [apply quiet_llm|]. intros summary _.
  by apply quiet_ret.
Qed.

Lemma quiet_reporting_tool (query : string) :
  quiet (reporting_tool llm query) (fun r => tool_tag r = "reporting_tool").
Proof.
  unfold reporting_tool. eapply quiet_bind; [apply quiet_llm|]. intros out _.
  by apply quiet_ret.
Qed.

Lemma quiet_memory_tool (query : string) :
  quiet (memory_tool llm query) (fun r => tool_tag r = "memory_tool").
Proof.
  intros self. unfold memory_tool. destruct (memory self) as [|e mem] eqn:E.
  - exists NoMemoryResult, self. by rewrite E.
  - rewrite <- E.
    assert (Hq : quiet (let* summary := get_llm_response llm
                          (memory_prompt query (memory self)) (Some memory_system) in
                        ret (MemoryResult (memory self) summary))
                       (fun r => tool_tag r = "memory_tool")).
    { eapply quiet_bind; [apply quiet_llm|]. intros summary _. by apply quiet_ret. }
    apply Hq.
Qed.

(** The [if]/[elif] chain runs one handler, whatever the label, and the
    handler returns a result. *)
Lemma quiet_dispatch (tool query : string) :
  quiet (dispatch llm tool query)
        (fun r => tool_tag r ∈ ["data_tool"; "reporting_tool"; "memory_tool";
                                "greeting"; "fallback"]).
Proof.
  unfold dispatch.
  destruct (Str.contains "data_tool" tool).
  { intros self. destruct (quiet_data_tool query self) as (r & s' & ? & ? & ? & Hr).
    exists r, s'. rewrite Hr. repeat split; auto. set_solver. }
  destruct (Str.contains "reporting_tool" tool).
  { intros self. destruct (quiet_reporting_tool query self) as (r & s' & ? & ? & ? & Hr).
    exists r, s'. rewrite Hr. repeat split; auto. set_solver. }
  destruct (Str.contains "memory_tool" tool).
  { intros self. destruct (quiet_memory_tool query self) as (r & s' & ? & ? & ? & Hr).
    exists r, s'. rewrite Hr. repeat split; auto. set_solver. }
  destruct (Str.contains "greeting" tool).
  { apply quiet_ret. simpl. set_solver. }
  apply quiet_ret. simpl. set_solver.
Qed.

(** [process_query] always returns a result; the memory is extended by the
    entry of a data or reporting result and is otherwise left as it was. *)
Lemma process_query_returns (query : string) (self : agent) :
  exists r self',
    process_query llm query self = (Ok r, self') /\
    memory self' = (if is_recorded r
                    then record_entry (memory self) (query, r)
                    else memory self) /\
    (calls self < calls self')%nat /\
    tool_tag r ∈ ["data_tool"; "reporting_tool"; "memory_tool";
                  "greeting"; "fallback"].
Proof.
  unfold process_query, route_query, mbind at 1 2.
  rewrite get_llm_response_eq. unfold ret at 1.
  set (tool := Str.lower _). set (self1 := Agent _ _).
  destruct (quiet_dispatch tool query self1) as (r & self2 & E & Hmem & Hcalls & Hr).
  exists r. unfold mbind. rewrite E. subst self1. simpl in *.
  destruct (is_recorded r); simpl; eexists; repeat split; simpl; auto; try lia.
  by rewrite Hmem.
Qed.

Lemma reachable_bound (self : agent) :
  reachable llm self -> (length (memory self) <= 2)%nat.
Proof.
  induction 1 as [|query self _ IH]; [simpl; lia|].
  destruct (process_query_returns query self) as (r & self' & E & Hmem & _).
  rewrite E. simpl. rewrite Hmem. destruct (is_recorded r); [|done].
  by apply record_entry_bound.
Qed.

End MainFacts.

(** ** [src/campaign.py] *)

Section CampaignFacts.
Context `{RT : Runtime} {W : Wording} (llm : provider).
Import Campaign.

Lemma run_end (k : nat) (n : node) (st : AgentState) (c : nat) :
  edges n = END -> run llm (S k) n st c = run_node llm n st c.
Proof.
  intros He. cbn [run]. unfold mbind, next. rewrite He.
  by destruct (run_node llm n st c) as [[st'|e] c'].
Qed.

Lemma run_edge (k : nat) (n n' : node) (st : AgentState) (c : nat) :
  edges n = Edge n' ->
  run llm (S k) n st c = mbind (run_node llm n st) (run llm k n') c.
Proof.
  intros He. cbn [run]. unfold mbind, next. rewrite He.
  by destruct (run_node llm n st c) as [[st'|e] c'].
Qed.

(** The first two nodes: the payload is extracted, the classifier is asked
    once, and the label is looked up in the path map. *)
Lemma invoke_eq (st : AgentState) (c : nat) :
  invoke llm st c =
    let st1 := set_json_data (extract_json_from_query (query st)) st in
    match llm c (routing_messages (query st)) with
    | Fails msg => (Raise (ProviderError msg), S c)
    | Content reply =>
        let t := label (json_data st1) reply in
        match path_map !! t with
        | Some n => run llm 23 n (set_tool t st1) (S c)
        | None => (Raise (KeyError t), S c)
        end
    end.
Proof.
  unfold invoke, recursion_limit, entry_point.
  rewrite (run_edge _ _ route_query) by reflexivity.
  unfold mbind at 1. cbn [run_node extract_json_node ret].
  cbn [run]. unfold mbind at 1. cbn [run_node].
  unfold route_query_node, mbind at 1, invoke_chain, routing_messages. simpl query.
  destruct (llm c _) as [reply|msg]; [|done].
  cbn [ret]. unfold mbind at 1, lift, next. cbn [edges route_condition tool set_tool].
  by destruct (path_map !! _).
Qed.

Lemma path_map_lookup (l : string) (n : node) :
  path_map !! l = Some n ->
  n = process_data_tool \/ n = process_reporting_tool \/ n = process_memory_tool \/
  n = process_greeting \/ n = process_fallback.
Proof.
  unfold path_map. intros H.
  repeat (apply lookup_insert_Some in H as [[_ <-]|[_ H]]; [auto 6|]).
  by rewrite lookup_empty in H.
Qed.

Lemma data_node_ok (st st' : AgentState) (c c' : nat) :
  process_data_tool_node llm st c = (Ok st', c') ->
  exists r, handled st st' r /\ tool_tag r = "data_tool" /\ (c < c')%nat.
Proof.
  unfold process_data_tool_node, mbind, invoke_chain, lift, ret.
  destruct (llm c _) as [sql|]; [|done].
  destruct (Extract.parse_sql_conditions sql) as [cs|]; [|done].
  destruct (apply_conditions campaign_sample_data cs) as [f|]; [|done].
  destruct (llm (S c) _) as [summary|]; [|done].
  intros [= <- <-]. eexists. repeat split. lia.
Qed.

Lemma reporting_node_ok (st st' : AgentState) (c c' : nat) :
  process_reporting_tool_node llm st c = (Ok st', c') ->
  exists r, handled st st' r /\ tool_tag r = "reporting_tool" /\ (c < c')%nat.
Proof.
  unfold process_reporting_tool_node, mbind, invoke_chain, ret.
  destruct (json_data st); destruct (llm c _) as [out|]; try done;
    intros [= <- <-]; eexists; repeat split; lia.
Qed.

Lemma memory_node_ok (st st' : AgentState) (c c' : nat) :
  process_memory_tool_node llm st c = (Ok st', c') ->
  exists r, handled st st' r /\ tool_tag r = "memory_tool" /\ (c <= c')%nat /\
            (memory st = [] -> r = NoMemoryResult /\ c' = c).
Proof.
  unfold process_memory_tool_node, mbind, invoke_chain, ret.
  destruct (memory st) as [|e mem].
  - intros [= <- <-]. by exists NoMemoryResult.
  - destruct (llm c _) as [summary|]; [|done].
    intros [= <- <-]. eexists. repeat split; [lia|done..].
Qed.

Lemma update_memory_handled (st st' : AgentState) (r : result) (c : nat) :
  handled st st' r ->
  update_memory_node st' c =
    (Ok (set_memory (if is_recorded r
                     then record_entry (memory st) (query st, r)
                     else memory st) st'), c).
Proof. intros ->. reflexivity. Qed.

(** One invocation of the graph, from any state: when it returns, the
    state holds the result of one handler, and the memory of the state has
    been extended by a data or reporting result and by nothing else. *)
Lemma invoke_returns (st st' : AgentState) (c c' : nat) :
  invoke llm st c = (Ok st', c') ->
  exists r,
    result_ st' = Some r /\ query st' = query st /\
    memory st' = (if is_recorded r
                  then record_entry (memory st) (query st, r)
                  else memory st) /\
    (tool_tag r = "memory_tool" -> memory st = [] -> r = NoMemoryResult) /\
    tool_tag r ∈ ["data_tool"; "reporting_tool"; "memory_tool";
                  "greeting"; "fallback"] /\
    (c < c')%nat.
Proof.
  rewrite invoke_eq. cbv zeta.
  destruct (llm c _) as [reply|]; [|done].
  set (st1 := set_json_data _ st). set (t := label _ reply).
  destruct (path_map !! t) as [n|] eqn:En; [|done].
  set (st2 := set_tool t st1).
  destruct (path_map_lookup _ _ En) as [->|[->|[->|[->| ->]]]].
  - rewrite (run_edge _ _ update_memory) by reflexivity.
    unfold mbind. cbn [run_node].
    destruct (process_data_tool_node llm st2 (S c)) as [[st3|] c3] eqn:E; [|done].
    apply data_node_ok in E as (r & Hr & Htag & Hc).
    rewrite run_end by reflexivity. cbn [run_node].
    rewrite (update_memory_handled _ _ _ _ Hr). intros [= <- <-].
    exists r. rewrite Hr, Htag. repeat split; simpl; try done; [set_solver|lia].
  - rewrite (run_edge _ _ update_memory) by reflexivity.
    unfold mbind. cbn [run_node].
    destruct (process_reporting_tool_node llm st2 (S c)) as [[st3|] c3] eqn:E; [|done].
    apply reporting_node_ok in E as (r & Hr & Htag & Hc).
    rewrite run_end by reflexivity. cbn [run_node].
    rewrite (update_memory_handled _ _ _ _ Hr). intros [= <- <-].
    exists r. rewrite Hr, Htag. repeat split; simpl; try done; [set_solver|lia].
  - rewrite run_end by reflexivity. cbn [run_node].
    intros E. destruct (memory_node_ok _ _ _ _ E) as (r & Hr & Htag & Hc & Hempty).
    assert (Hnone : memory st = [] -> r = NoMemoryResult)
      by (intros Hm; by apply Hempty).
    clear Hempty E. exists r. rewrite Hr. unfold is_recorded. rewrite Htag.
    split_and!; simpl; try reflexivity; [tauto|set_solver|lia].
  - rewrite run_end by reflexivity. cbn [run_node].
    unfold process_greeting_node, ret. intros [= <- <-].
    exists (GreetingResult (greeting_response (query st2))).
    split_and!; simpl; try done; [set_solver|lia].
  - rewrite run_end by reflexivity. cbn [run_node].
    unfold process_fallback_node, ret. intros [= <- <-].
    exists (FallbackResult can_help).
    split_and!; simpl; try done; [set_solver|lia].
Qed.

End CampaignFacts.

(** ** The claims about the agents *)

Section AgentClaims.
Context `{RT : Runtime} {W : Wording} (llm : provider).

Lemma is_recorded_tag (r : result) :
  is_recorded r = true <-> tool_tag r = "data_tool" \/ tool_tag r = "reporting_tool".
Proof. destruct r; simpl; split; intros H; try done; auto; by destruct H. Qed.

(** C3.  The memory of a run never holds more than two entries; recording
    into a full memory drops the entry at index 0 and appends the new one,
    so that recording E1, E2, E3 leaves [E2; E3]; and a call of
    [process_query] (a run of the graph, in [src/campaign.py]) records the
    result exactly when its tag is [data_tool] or [reporting_tool], the
    memory being left as it was for the other tags. *)
Theorem bounded_memory_invariant :
  (forall self, Main.reachable llm self -> (length (Main.memory self) <= 2)%nat) /\
  (forall es : list entry, (length (fold_left record_entry es []) <= 2)%nat) /\
  (forall a b e : entry, record_entry [a; b] e = [b; e]) /\
  (forall E1 E2 E3 : entry, fold_left record_entry [E1; E2; E3] [] = [E2; E3]) /\
  (forall r : result,
      is_recorded r = true <->
      tool_tag r = "data_tool" \/ tool_tag r = "reporting_tool") /\
  (forall query self, exists r self',
      Main.process_query llm query self = (Ok r, self') /\
      Main.memory self' = (if is_recorded r
                           then record_entry (Main.memory self) (query, r)
                           else Main.memory self)) /\
  (forall st st' c c',
      Campaign.invoke llm st c = (Ok st', c') ->
      exists r,
        Campaign.result_ st' = Some r /\
        Campaign.memory st' =
          (if is_recorded r
           then record_entry (Campaign.memory st) (Campaign.query st, r)
           else Campaign.memory st) /\
        ((length (Campaign.memory st) <= 2)%nat ->
         (length (Campaign.memory st') <= 2)%nat)).
Proof.
  split_and!.
  - apply reachable_bound.
  - intros es. apply record_entries_bound. simpl. lia.
  - reflexivity.
  - reflexivity.
  - apply is_recorded_tag.
  - intros query self.
    destruct (process_query_returns llm query self) as (r & self' & E & Hm & _).
    by exists r, self'.
  - intros st st' c c' E.
    destruct (invoke_returns llm _ _ _ _ E) as (r & Hr & _ & Hm & _).
    exists r. split_and!; [done..|]. rewrite Hm. intros Hlen.
    destruct (is_recorded r); [|done]. by apply record_entry_bound.
Qed.

(** C7.  [get_llm_response] returns a text for every prompt and system
    message, whatever the provider does: the reply when the request
    succeeds, the error text when it fails; and [process_query] of
    [src/main.py] returns a result whatever the provider does. *)
Theorem get_llm_response_never_raises (prompt : string)
    (system_message : option string) (self : Main.agent) :
  Main.get_llm_response llm prompt system_message self =
    (Ok match llm (Main.calls self) (Main.chat_messages prompt system_message) with
        | Content text => text
        | Fails msg => "Error calling Mistral AI: " +:+ msg
        end,
     Main.Agent (Main.memory self) (S (Main.calls self))) /\
  (forall query, exists r self', Main.process_query llm query self = (Ok r, self')).
Proof.
  split.
  - apply get_llm_response_eq.
  - intros query.
    destruct (process_query_returns llm query self) as (r & self' & E & _).
    by exists r, self'.
Qed.

(** C8, in [src/campaign.py]: [process_query] starts every query from an
    empty memory, so that a query handled by the memory tool is always
    answered that there are no previous queries. *)
Theorem campaign_memory_is_reset (q : string) (c c' : nat) (r : result) :
  Campaign.process_query llm q c = (Ok (Some r), c') ->
  tool_tag r = "memory_tool" ->
  r = NoMemoryResult.
Proof.
  unfold Campaign.process_query, mbind.
  destruct (Campaign.invoke llm (Campaign.initial_state q) c) as [[st'|] c1] eqn:E;
    [|done].
  destruct (invoke_returns llm _ _ _ _ E) as (r' & Hr & _ & _ & Hm & _).
  unfold ret. rewrite Hr. intros [= <- <-] Htag. by apply Hm.
Qed.

(** The sequential entry point keeps its memory: the entries held before a
    query are still held after it, but for the oldest of two when one more
    is recorded. *)
Lemma main_memory_persists (query : string) (self : Main.agent) (e : entry) :
  e ∈ (if (2 <=? length (Main.memory self))%nat
       then drop 1 (Main.memory self) else Main.memory self) ->
  e ∈ Main.memory (snd (Main.process_query llm query self)).
Proof.
  intros He.
  destruct (process_query_returns llm query self) as (r & self' & -> & Hm & _).
  simpl. rewrite Hm. destruct (is_recorded r).
  - unfold record_entry. apply elem_of_app. by left.
  - destruct (2 <=? length (Main.memory self))%nat; [|done].
    by apply (subseteq_drop 1).
Qed.

(** C6, in [src/campaign.py]: a reply whose label is not a key of the
    path map ends the request with a [KeyError]; no handler runs. *)
Theorem campaign_unknown_label_raises (q reply : string) (c : nat) :
  llm c (routing_messages q) = Content reply ->
  Campaign.path_map !! Campaign.label (Campaign.extract_json_from_query q) reply = None ->
  Campaign.process_query llm q c =
    (Raise (KeyError (Campaign.label (Campaign.extract_json_from_query q) reply)), S c).
Proof.
  intros Hreply Hlabel. unfold Campaign.process_query, mbind.
  rewrite invoke_eq. simpl. by rewrite Hreply, Hlabel.
Qed.

(** The sequential entry point has the default: every reply runs one of
    the five handlers, and the fallback when the reply holds none of the
    four other labels. *)
Lemma main_dispatch_total (tool query : string) (self : Main.agent) :
  (exists r self', Main.dispatch llm tool query self = (Ok r, self') /\
     tool_tag r ∈ ["data_tool"; "reporting_tool"; "memory_tool";
                   "greeting"; "fallback"]) /\
  (Str.contains_any ["data_tool"; "reporting_tool"; "memory_tool"; "greeting"] tool
     = false ->
   Main.dispatch llm tool query self = (Ok (FallbackResult can_help), self)).
Proof.
  split.
  - destruct (quiet_dispatch llm tool query self) as (r & self' & E & _ & _ & Hr).
    by exists r, self'.
  - unfold Str.contains_any, Main.dispatch. simpl.
    destruct (Str.contains "data_tool" tool); [done|].
    destruct (Str.contains "reporting_tool" tool); [done|].
    destruct (Str.contains "memory_tool" tool); [done|].
    by destruct (Str.contains "greeting" tool).
Qed.

End AgentClaims.

Section RoutingClaims.
Context `{RT : Runtime} {W : Wording} (llm : provider).

Lemma good_morning_no_payload : Campaign.extract_json_from_query good_morning = None.
Proof. reflexivity. Qed.

Lemma good_morning_response : greeting_response good_morning = hello.
Proof. reflexivity. Qed.

(** C9, as the code has it.  The classification of a query is one request
    to the provider, for "Good Morning!" as for any query; when the reply
    selects the greeting handler, that request is the only one: the
    handler answers "Good Morning!" with the canned greeting and sends no
    request, the answer being decided by the search of the six keywords
    in the lower-cased query. *)
Theorem good_morning_one_request (reply : string) :
  (forall self,
      llm (Main.calls self)
          (Main.chat_messages (routing_prompt good_morning) (Some routing_system))
        = Content reply ->
      Str.contains_any ["data_tool"; "reporting_tool"; "memory_tool"]
                       (Str.lower (Str.strip reply)) = false ->
      Str.contains "greeting" (Str.lower (Str.strip reply)) = true ->
      Main.process_query llm good_morning self =
        (Ok (GreetingResult hello),
         Main.Agent (Main.memory self) (S (Main.calls self)))) /\
  (forall c,
      llm c (routing_messages good_morning) = Content reply ->
      Str.lower (Str.strip reply) = "greeting" ->
      Campaign.process_query llm good_morning c =
        (Ok (Some (GreetingResult hello)), S c)) /\
  (forall query self,
      Main.handle_greeting query self =
        (Ok (GreetingResult (if Str.contains_any greetings (Str.lower query)
                             then hello else can_help)), self)) /\
  (forall st c,
      Campaign.process_greeting_node st c =
        (Ok (Campaign.set_result
               (GreetingResult
                  (if Str.contains_any greetings (Str.lower (Campaign.query st))
                   then hello else can_help)) st), c)).
Proof.
  split_and!; [| |reflexivity..].
  - intros self Hreply Hnone Hgreeting.
    unfold Main.process_query, Main.route_query, mbind at 1 2.
    rewrite get_llm_response_eq, Hreply. cbn [ret response_text].
    unfold Str.contains_any in Hnone. simpl in Hnone.
    apply orb_false_iff in Hnone as [Hd Hnone].
    apply orb_false_iff in Hnone as [Hr Hnone].
    apply orb_false_iff in Hnone as [Hm _].
    unfold mbind, Main.dispatch. by rewrite Hd, Hr, Hm, Hgreeting.
  - intros c Hreply Hlabel.
    unfold Campaign.process_query, mbind. rewrite invoke_eq.
    cbn [Campaign.query Campaign.initial_state]. rewrite Hreply.
    cbv zeta. rewrite good_morning_no_payload.
    unfold Campaign.label. cbn [Campaign.json_data Campaign.set_json_data
                                Campaign.present andb].
    rewrite Hlabel. reflexivity.
Qed.

(** C5, as the code has it.  When the payload extracted from the query is
    not empty and the normalized reply does not contain "reporting" (or is
    the label [reporting_tool] itself), the label is [reporting_tool], forced
    in the first case, and the reporting handler runs on the payload.  A
    reply whose normalized text contains "reporting" is left as it is: with
    the same payload the label is that text. *)
Theorem json_override_runs_reporting (q reply : string) (c : nat) (j : json_value) :
  Campaign.extract_json_from_query q = Some j ->
  json_truthy j = true ->
  llm c (routing_messages q) = Content reply ->
  Str.contains "reporting" (Str.lower (Str.strip reply)) = false \/
    Str.lower (Str.strip reply) = "reporting_tool" ->
  Campaign.label (Some j) reply = "reporting_tool" /\
  Campaign.process_query llm q c =
    match llm (S c) [("system", reporting_system);
                     ("human", reporting_prompt q (inl j))] with
    | Content formatted_output =>
        (Ok (Some (ReportingResult formatted_output
                                   (Some "JSON data from your query") (inl j))),
         S (S c))
    | Fails msg => (Raise (ProviderError msg), S (S c))
    end /\
  (forall other : string,
     Str.contains "reporting" (Str.lower (Str.strip other)) = true ->
     Campaign.label (Some j) other = Str.lower (Str.strip other)).
Proof.
  intros Hj Htruthy Hreply Hno.
  assert (Hl : Campaign.label (Some j) reply = "reporting_tool").
  { unfold Campaign.label. simpl. rewrite Htruthy.
    destruct Hno as [-> | ->]; reflexivity. }
  split; [done|]. split.
  2:{ intros other Hc. unfold Campaign.label. cbv zeta. rewrite Hc.
      by rewrite andb_false_r. }
  unfold Campaign.process_query, mbind. rewrite invoke_eq.
  cbn [Campaign.query Campaign.initial_state]. rewrite Hreply. cbv zeta.
  rewrite Hj. cbn [Campaign.json_data Campaign.set_json_data]. rewrite Hl.
  change (Campaign.path_map !! "reporting_tool")
    with (Some Campaign.process_reporting_tool).
  cbv beta iota.
  rewrite (run_edge _ _ _ Campaign.update_memory) by reflexivity.
  unfold mbind. cbn [Campaign.run_node].
  unfold Campaign.process_reporting_tool_node, Campaign.invoke_chain, mbind, ret.
  cbn -[Campaign.run].
  destruct (llm (S c) _) as [out|msg]; [|done].
  rewrite run_end by reflexivity. reflexivity.
Qed.

End RoutingClaims.

(** ** The program on concrete queries *)

Module Runs.
Import Example.
Local Open Scope nat_scope.

(** On the query of the specification the extractor returns two
    conditions, in clause order, but their fields and the string value are
    the upper-cased text: [parse_sql_conditions] cuts the clause out of
    [sql_query.upper()].  [extract_conditions] itself, on the clause as
    written, returns what is written. *)
Example extractor_returns_upper_cased_text :
  Extract.parse_sql_conditions
    "SELECT * FROM campaigns WHERE channel = 'Email' AND clicks > 5" =
    Ok [MkCondition "CHANNEL" OpEq "EMAIL"; MkCondition "CLICKS" OpGt "5"] /\
  Extract.parse_sql_conditions "WHERE field = 'X' AND other > 5" =
    Ok [MkCondition "FIELD" OpEq "X"; MkCondition "OTHER" OpGt "5"] /\
  Extract.extract_conditions "channel = 'Email' AND clicks > 5" =
    Ok [MkCondition "channel" OpEq "Email"; MkCondition "clicks" OpGt "5"].
Proof. split_and!; reflexivity. Qed.

(** The operator is read off the whole clause, not off the pattern that
    matched: a quoted value with [>] in it, or a field with [like] in it. *)
Example operator_is_read_off_the_clause :
  Extract.extract_conditions "a = 'x>y' AND likes = 5" =
    Ok [MkCondition "a" OpGt "x>y"; MkCondition "likes" OpLike "5"].
Proof. reflexivity. Qed.

(** The matcher at work: backtracking out of [\w+], leftmost match, clauses
    that no pattern matches. *)
Example like_needs_backtracking :
  Re.search [Extract.like_pattern] "aLIKE'x'" =
    Some ("", Re.Found "aLIKE'x'" ["a"; "x"] "").
Proof. reflexivity. Qed.

Example leftmost_match :
  Re.search [Extract.string_equality] "x y  = 'q' z" =
    Some ("x ", Re.Found "y  = 'q'" ["y"; "q"] " z").
Proof. reflexivity. Qed.

Example unmatched_clauses_are_dropped :
  Extract.extract_conditions "a >= 5 AND b <> 'c' AND d = '' AND e = 7;" =
    Ok [MkCondition "e" OpEq "7"].
Proof. reflexivity. Qed.

Example split_keeps_the_second_piece :
  Str.split "WHERE" "a WHERE b WHERE c" = ["a "; " b "; " c"].
Proof. reflexivity. Qed.

Example equality_is_case_sensitive :
  apply_conditions [email; sms] [MkCondition "channel" OpEq "EMAIL"] = Ok (NewList []).
Proof. reflexivity. Qed.

Example like_is_a_search :
  Extract.extract_conditions "campaign_id LIKE 'CAMP%'" =
    Ok [MkCondition "campaign_id" OpLike "CAMP.*"] /\
  apply_conditions [CAMP_A; email] [MkCondition "campaign_id" OpLike "CAMP.*"]
    = Ok (NewList [CAMP_A]) /\
  apply_conditions [CAMP_A; email] [MkCondition "campaign_id" OpLike "amp a"]
    = Ok (NewList []) /\
  apply_conditions [CAMP_A; email] [MkCondition "campaign_id" OpLike "amp_"]
    = Ok (NewList [CAMP_A]).
Proof. split_and!; reflexivity. Qed.

(** C2 as stated fails on a [LIKE] value that holds a [%]: compiled after
    the substitution, [CAMP.*] is found in [CAMP_A] and the record satisfies
    the condition; the filter compiles [CAMP%] as it is, with [%] a literal
    character that [CAMP_A] does not hold, and drops the record. *)
Lemma like_value_is_compiled_as_stored :
  Spec.satisfies_as_claimed [MkCondition "campaign_id" OpLike "CAMP%"] CAMP_A = true /\
  apply_conditions [CAMP_A] [MkCondition "campaign_id" OpLike "CAMP%"] = Ok (NewList []) /\
  Spec.satisfies [MkCondition "campaign_id" OpLike "CAMP%"] CAMP_A = false /\
  apply_conditions [CAMP_A] [MkCondition "campaign_id" OpLike "CAMP.*"]
    = Ok (NewList [CAMP_A]).
Proof. split_and!; reflexivity. Qed.

Example numeric_conditions :
  apply_conditions [email; sms]
    [MkCondition "influenced_revenue" OpGt "100000";
     MkCondition "channel" OpEq "Email"] = Ok (NewList [email]) /\
  apply_conditions [email; sms] [MkCondition "channel" OpLt "5"] = Ok (NewList []) /\
  apply_conditions [email; sms] [MkCondition "influenced_revenue" OpLt "x"]
    = Raise (ValueError "x").
Proof. split_and!; reflexivity. Qed.

(** Both cases of C10 occur. *)
Example data_tool_all :
  filtered_data main_sample_data "SELECT channel FROM campaigns GROUP BY channel"
    = Ok main_sample_data.
Proof. reflexivity. Qed.

Example data_tool_nothing :
  filtered_data main_sample_data "SELECT * FROM campaigns WHERE channel = 'Email'"
    = Ok [].
Proof. reflexivity. Qed.

(** *** Witnesses and counterexamples *)

Lemma extractor_upper_cases_the_clause_witness :
  well_formed email_clicks = true /\
  Str.all Chr.is_space " " = true /\
  keyword_free (" " +:+ where_text email_clicks) = true /\
  Extract.parse_sql_conditions "WHERE channel = 'Email' AND clicks > 5" =
    Ok [MkCondition "CHANNEL" OpEq "EMAIL"; MkCondition "CLICKS" OpGt "5"].
Proof.
  split_and!; [reflexivity..|].
  exact (extractor_upper_cases_the_clause email_clicks eq_refl " " eq_refl eq_refl).
Defined.

Example extract_conditions_keeps_the_case :
  Extract.extract_conditions "channel = 'Email' AND clicks > 5" =
    Ok [MkCondition "channel" OpEq "Email"; MkCondition "clicks" OpGt "5"].
Proof. exact (extract_conditions_as_written email_clicks eq_refl). Qed.

Lemma bounded_memory_invariant_witness :
  let llm := script [Content "greeting"] in
  let self := snd (Main.process_query llm "hello" Main.init) in
  (Main.reachable llm self /\ (length (Main.memory self) <= 2)%nat) /\
  (Campaign.invoke llm (Campaign.initial_state "hello") 0 = (Ok hello_state, 1%nat) /\
   exists r,
     Campaign.result_ hello_state = Some r /\
     Campaign.memory hello_state =
       (if is_recorded r
        then record_entry [] ("hello", r)
        else []) /\
     ((length (Campaign.memory (Campaign.initial_state "hello")) <= 2)%nat ->
      (length (Campaign.memory hello_state) <= 2)%nat)).
Proof.
  intros llm self.
  destruct (bounded_memory_invariant llm) as (H1 & _ & _ & _ & _ & _ & H7).
  split.
  - assert (Hr : Main.reachable llm self) by apply Main.reach_query, Main.reach_init.
    split; [exact Hr|]. exact (H1 self Hr).
  - split; [reflexivity|].
    exact (H7 (Campaign.initial_state "hello") hello_state 0%nat 1%nat eq_refl).
Defined.

Lemma campaign_memory_is_reset_witness :
  Campaign.process_query two_queries "Show me revenue by channel" 0 =
    (Ok (Some (DataResult "SELECT * FROM campaigns" campaign_sample_data
                          "All campaigns.")), 3%nat) /\
  Campaign.process_query two_queries "Summarize the previous results" 3 =
    (Ok (Some NoMemoryResult), 4%nat) /\
  tool_tag NoMemoryResult = "memory_tool" /\
  NoMemoryResult = NoMemoryResult.
Proof.
  split_and!; [reflexivity..|].
  exact (campaign_memory_is_reset two_queries "Summarize the previous results"
           3 4 NoMemoryResult eq_refl eq_refl).
Defined.

Example main_memory_is_recalled :
  let first := Main.process_query two_queries "Show me revenue by channel" Main.init in
  let r1 := DataResult "SELECT * FROM campaigns" main_sample_data "All campaigns." in
  first = (Ok r1, Main.Agent [("Show me revenue by channel", r1)] 3) /\
  Main.process_query two_queries "Summarize the previous results" (snd first) =
    (Ok (MemoryResult [("Show me revenue by channel", r1)] "You asked for the revenue."),
     Main.Agent [("Show me revenue by channel", r1)] 5).
Proof. split; reflexivity. Qed.

(** The failing run of C6. *)
Lemma campaign_unknown_label_raises_witness :
  let llm := script [Content "I would use the data_tool."] in
  let q := "Show me revenue by channel" in
  llm 0%nat (routing_messages q) = Content "I would use the data_tool." /\
  Campaign.path_map !!
    Campaign.label (Campaign.extract_json_from_query q) "I would use the data_tool."
    = None /\
  Campaign.process_query llm q 0 = (Raise (KeyError "i would use the data_tool."), 1%nat).
Proof.
  intros llm q. split_and!; [reflexivity..|].
  exact (campaign_unknown_label_raises llm q "I would use the data_tool." 0
           eq_refl eq_refl).
Defined.

Example main_routes_the_same_reply :
  exists summary self',
    Main.process_query (script [Content "I would use the data_tool."])
                       "Show me revenue by channel" Main.init
    = (Ok (DataResult "Error calling Mistral AI: connection refused"
                      main_sample_data summary), self').
Proof. eexists _, _. reflexivity. Qed.

Example campaign_unroutable_reply :
  Campaign.process_query (script [Content "none"]) "What's the weather like today?" 0
    = (Raise (KeyError "none"), 1%nat) /\
  Main.process_query (script [Content "none"]) "What's the weather like today?" Main.init
    = (Ok (FallbackResult can_help), Main.Agent [] 1).
Proof. split; reflexivity. Qed.

(** C9.  The processing of "Good Morning!" sends a request to the
    provider, in both files: the classification. *)
Lemma good_morning_sends_a_request :
  Main.process_query (script [Content "greeting"]) good_morning Main.init =
    (Ok (GreetingResult hello), Main.Agent [] 1) /\
  Campaign.process_query (script [Content "greeting"]) good_morning 0 =
    (Ok (Some (GreetingResult hello)), 1%nat) /\
  Main.calls (snd (Main.process_query (script [Content "greeting"]) good_morning Main.init))
    <> Main.calls Main.init.
Proof. split_and!; [reflexivity..|discriminate]. Qed.

Lemma good_morning_one_request_witness :
  let llm := script [Content " Greeting "] in
  (llm 0%nat (Main.chat_messages (routing_prompt good_morning) (Some routing_system))
     = Content " Greeting " /\
   Main.process_query llm good_morning Main.init =
     (Ok (GreetingResult hello), Main.Agent [] 1)) /\
  (llm 0%nat (routing_messages good_morning) = Content " Greeting " /\
   Str.lower (Str.strip " Greeting ") = "greeting" /\
   Campaign.process_query llm good_morning 0 = (Ok (Some (GreetingResult hello)), 1%nat)).
Proof.
  intros llm.
  destruct (good_morning_one_request llm " Greeting ") as (Hmain & Hcampaign & _).
  split.
  - split; [reflexivity|]. exact (Hmain Main.init eq_refl eq_refl eq_refl).
  - split_and!; [reflexivity..|]. exact (Hcampaign 0%nat eq_refl eq_refl).
Defined.

(** C5.  A payload is extracted and the reporting handler does not run:
    the reply contains "reporting" without being the label, or the payload
    is the empty object. *)
Lemma json_payload_without_reporting :
  (Campaign.extract_json_from_query "Format [1] as a table" = Some (JArray [JNumber 1]) /\
   Campaign.process_query (script [Content "Reporting"]) "Format [1] as a table" 0
     = (Raise (KeyError "reporting"), 1%nat)) /\
  (Campaign.extract_json_from_query "Format {} as a table" = Some (JObject []) /\
   Campaign.label (Some (JObject [])) "data_tool" = "data_tool" /\
   Campaign.process_query
     (script [Content "data_tool"; Content "SELECT 1"; Content "One row."])
     "Format {} as a table" 0
     = (Ok (Some (DataResult "SELECT 1" campaign_sample_data "One row.")), 3%nat)).
Proof. split_and!; reflexivity. Qed.

Lemma json_override_runs_reporting_witness :
  let llm := script [Content "data_tool"; Content "| 1 |"] in
  let q := "Format [1] as a table" in
  Campaign.extract_json_from_query q = Some (JArray [JNumber 1]) /\
  json_truthy (JArray [JNumber 1]) = true /\
  llm 0%nat (routing_messages q) = Content "data_tool" /\
  (Str.contains "reporting" (Str.lower (Str.strip "data_tool")) = false \/
   Str.lower (Str.strip "data_tool") = "reporting_tool") /\
  Campaign.label (Some (JArray [JNumber 1])) "data_tool" = "reporting_tool" /\
  Campaign.process_query llm q 0 =
    (Ok (Some (ReportingResult "| 1 |" (Some "JSON data from your query")
                               (inl (JArray [JNumber 1])))), 2%nat) /\
  Campaign.label (Some (JArray [JNumber 1])) " Reporting " = "reporting".
Proof.
  intros llm q.
  pose proof (json_override_runs_reporting llm q "data_tool" 0 (JArray [JNumber 1])
                eq_refl eq_refl eq_refl (or_introl eq_refl)) as (Hl & Hp & Hother).
  split_and!; [reflexivity..|by left|exact Hl|exact Hp|].
  exact (Hother " Reporting " eq_refl).
Defined.

End Runs.

(** * Further properties of the code *)

(** ** [parse_sql_conditions]: what is cut out of the query *)

Lemma prefix_cons (a c : ascii) (t s : string) :
  String.prefix (String a t) (String c s) = Ascii.eqb a c && String.prefix t s.
Proof.
  simpl. destruct (ascii_dec a c) as [->|Hne].
  - by rewrite Ascii.eqb_refl.
  - apply Ascii.eqb_neq in Hne. by rewrite Hne.
Qed.

Lemma prefix_nil_r (sep : string) : String.prefix sep "" = negb (nonempty sep).
Proof. by destruct sep. Qed.

(** A text that starts with [k] is [k] and what follows it. *)
Lemma prefix_split (k s : string) :
  String.prefix k s = true -> s = k +:+ Str.drop (String.length k) s.
Proof.
  revert s. induction k as [|a k IH]; intros s.
  - by destruct s.
  - destruct s as [|c s]; [done|]. rewrite prefix_cons.
    intros [Hc Hk]%andb_true_iff. apply Ascii.eqb_eq in Hc as ->.
    rewrite str_app_cons. simpl. by rewrite <- (IH s Hk).
Qed.

Lemma prefix_app_l (sub s b : string) :
  String.prefix sub s = true -> String.prefix sub (s +:+ b) = true.
Proof.
  intros H. rewrite (prefix_split _ _ H), str_app_assoc. apply prefix_app.
Qed.

(** An occurrence of [sep] at the start of [s +:+ w] lies inside [s], or one
    of the tails of [sep] starts [w]. *)
Lemma prefix_app_inv (sep s w : string) :
  String.prefix sep (s +:+ w) = true ->
  String.prefix sep s = true \/
  exists r, r ∈ sep :: proper_tails sep /\ nonempty r = true /\
            String.prefix r w = true /\ (nonempty s = true -> r ∈ proper_tails sep).
Proof.
  revert s. induction sep as [|a t IH]; intros s.
  - left. by destruct s.
  - destruct s as [|c s].
    + intros H. right. exists (String a t). split_and!; [by left|done|done|done].
    + rewrite str_app_cons, !prefix_cons. intros [Hc Ht]%andb_true_iff.
      destruct (IH s Ht) as [Hs|(r & Hr & Hne & Hp & _)].
      * left. by rewrite Hc, Hs.
      * right. exists r. split_and!; [by right|done|done|done].
Qed.

Lemma straddles_true (sep w r : string) :
  r ∈ proper_tails sep -> nonempty r = true -> String.prefix r w = true ->
  straddles sep w = true.
Proof.
  intros Hr Hne Hp. unfold straddles. apply existsb_exists.
  exists r. split; [by apply list_elem_of_In|]. by rewrite Hne, Hp.
Qed.

Lemma contains_cons (sep : string) (c : ascii) (s : string) :
  Str.contains sep (String c s) = String.prefix sep (String c s) || Str.contains sep s.
Proof. reflexivity. Qed.

Lemma contains_app_l (sub a b : string) :
  Str.contains sub a = true -> Str.contains sub (a +:+ b) = true.
Proof.
  induction a as [|c a IH].
  - cbn [Str.contains]. rewrite orb_false_r. intros H.
    apply (prefix_app_l _ "" b) in H. change ("" +:+ b) with b in *.
    destruct b; cbn [Str.contains]; by rewrite H.
  - rewrite str_app_cons. cbn [Str.contains].
    intros [H|H]%orb_true_iff; [|by rewrite (IH H), orb_true_r].
    apply orb_true_iff. left. rewrite <- str_app_cons. by apply prefix_app_l.
Qed.

(** No occurrence of [sep] starts in [x] when [x] holds none and none can
    end in [w]. *)
Lemma partition_after (sep x w : string) :
  Str.contains sep x = false -> straddles sep w = false ->
  Str.partition sep (x +:+ w) = after_text x (Str.partition sep w).
Proof.
  intros Hx Hw. induction x as [|c x IH].
  - change ("" +:+ w) with w. by destruct (Str.partition sep w) as [[a b]|].
  - rewrite contains_cons in Hx. apply orb_false_iff in Hx as [Hp Hx].
    rewrite str_app_cons. cbn [Str.partition].
    destruct (String.prefix sep (String c (x +:+ w))) eqn:E.
    + exfalso. rewrite <- str_app_cons in E.
      destruct (prefix_app_inv _ _ _ E) as [Hs|(r & _ & Hne & Hr & Hin)]; [congruence|].
      by rewrite (straddles_true sep w r (Hin eq_refl) Hne Hr) in Hw.
    + rewrite (IH Hx). by destruct (Str.partition sep w) as [[a b]|].
Qed.

(** No occurrence of [sep] starts in a text without the first character of
    [sep]. *)
Lemma partition_skip (h : ascii) (t x w : string) :
  Str.all (fun c => negb (Ascii.eqb h c)) x = true ->
  Str.partition (String h t) (x +:+ w) = after_text x (Str.partition (String h t) w).
Proof.
  induction x as [|c x IH].
  - intros _. change ("" +:+ w) with w. by destruct (Str.partition _ w) as [[a b]|].
  - simpl Str.all. intros [Hc Hx]%andb_true_iff. apply negb_true_iff in Hc.
    rewrite str_app_cons. cbn [Str.partition]. rewrite prefix_cons, Hc. cbn [andb].
    rewrite (IH Hx). by destruct (Str.partition _ w) as [[a b]|].
Qed.

Lemma partition_contains (sep s a b : string) :
  Str.partition sep s = Some (a, b) -> Str.contains sep s = true.
Proof.
  intros H. destruct (Str.contains sep s) eqn:E; [done|].
  by rewrite (not_contains_partition _ _ E) in H.
Qed.

(** A cut gives the text back: what is before [sep], [sep], what is after. *)
Lemma partition_eq (sep s a b : string) :
  Str.partition sep s = Some (a, b) -> s = a +:+ sep +:+ b.
Proof.
  revert a. induction s as [|c s IH]; intros a; cbn [Str.partition].
  - destruct (String.prefix sep "") eqn:E; [|done]. intros [= <- <-].
    by apply prefix_split in E.
  - destruct (String.prefix sep (String c s)) eqn:E.
    + intros [= <- <-]. by apply prefix_split in E.
    + destruct (Str.partition sep s) as [[a' b']|]; [|done].
      intros [= <- <-]. by rewrite str_app_cons, <- (IH a' eq_refl).
Qed.

(** [s.split(sep)[0]] and [s.split(sep)[1]] by the first cut. *)
Lemma split_index_0_cut (sep s a b : string) :
  Str.partition sep s = Some (a, b) -> Str.index (Str.split sep s) 0 = Ok a.
Proof. intros H. unfold Str.split. cbn [Str.split_fuel]. by rewrite H. Qed.

Lemma split_index_1_cut (sep s a b : string) :
  nonempty sep = true -> Str.partition sep s = Some (a, b) ->
  Str.index (Str.split sep s) 1 =
    Ok match Str.partition sep b with
       | Some (a', _) => a'
       | None => b
       end.
Proof.
  intros Hsep H. unfold Str.split. cbn [Str.split_fuel]. rewrite H.
  destruct s as [|c s].
  - cbn [Str.partition] in H. rewrite prefix_nil_r, Hsep in H. done.
  - cbn [String.length Str.split_fuel]. by destruct (Str.partition sep b) as [[a' b']|].
Qed.

Lemma cut_at_absent (sep s : string) : Str.contains sep s = false -> cut_at sep s = Ok s.
Proof. unfold cut_at. by intros ->. Qed.

Lemma cut_at_keyword (sep x t : string) :
  Str.contains sep x = false -> straddles sep (sep +:+ t) = false ->
  cut_at sep (x +:+ sep +:+ t) = Ok x.
Proof.
  intros Hx Hs. unfold cut_at.
  assert (E : Str.partition sep (x +:+ sep +:+ t) = Some (x, t)).
  { rewrite (partition_after _ _ _ Hx Hs), partition_at_prefix. simpl.
    by rewrite str_app_nil_r. }
  by rewrite (partition_contains _ _ _ _ E), (split_index_0_cut _ _ _ _ E).
Qed.

(** A cut at [sep] that can only fall after the keyword [k] keeps the text
    up to [k], and [k]. *)
Lemma cut_at_later (sep x k t : string) :
  Str.contains sep x = false -> straddles sep (k +:+ t) = false ->
  (exists h r, sep = String h r /\ Str.all (fun c => negb (Ascii.eqb h c)) k = true) ->
  exists t', cut_at sep (x +:+ k +:+ t) = Ok (x +:+ k +:+ t').
Proof.
  intros Hx Hs (h & r & -> & Hk). unfold cut_at.
  destruct (Str.contains _ (x +:+ _)) eqn:E; [|exists t; reflexivity].
  apply contains_partition in E as (a & b & E). rewrite (split_index_0_cut _ _ _ _ E).
  rewrite (partition_after _ _ _ Hx Hs), (partition_skip _ _ _ _ Hk) in E.
  destruct (Str.partition (String h r) t) as [[a' b']|]; [|done].
  simpl in E. injection E as <- <-. by exists a'.
Qed.

(** X1.  [parse_sql_conditions] reads the text between the first [WHERE]
    of the upper-cased query and the next [WHERE], [GROUP BY] or [ORDER BY],
    or the end of the query when none follows: what comes after that
    keyword plays no role, and the conditions are those of
    [extract_conditions] on the stripped clause. *)
Theorem where_clause_is_cut (sql_query pre clause rest : string) :
  Str.upper sql_query = pre +:+ "WHERE" +:+ clause +:+ rest ->
  Str.contains "WHERE" pre = false ->
  no_keyword clause = true ->
  ends_clause rest = true ->
  Extract.parse_sql_conditions sql_query = Extract.extract_conditions (Str.strip clause).
Proof.
  intros Hu Hpre Hclause Hrest. unfold no_keyword in Hclause.
  apply andb_true_iff in Hclause as [[Hw Hg]%andb_true_iff Ho].
  apply negb_true_iff in Hw, Hg, Ho.
  unfold Extract.parse_sql_conditions. rewrite Hu.
  assert (E : Str.partition "WHERE" (pre +:+ "WHERE" +:+ clause +:+ rest)
              = Some (pre, clause +:+ rest)).
  { rewrite (partition_after _ _ _ Hpre) by reflexivity.
    rewrite partition_at_prefix. simpl. by rewrite str_app_nil_r. }
  rewrite (partition_contains _ _ _ _ E), (split_index_1_cut "WHERE" _ _ _ eq_refl E).
  cbn [bind].
  change (if Str.contains "GROUP BY" ?s then Str.index (Str.split "GROUP BY" ?s) 0 else Ok ?s)
    with (cut_at "GROUP BY" s).
  assert (Hcut : forall piece,
             (let! a := cut_at "GROUP BY" piece in
              let! b := cut_at "ORDER BY" a in Ok b) = Ok clause ->
             (let! where_clause := cut_at "GROUP BY" piece in
              let! where_clause := (if Str.contains "ORDER BY" where_clause
                                    then Str.index (Str.split "ORDER BY" where_clause) 0
                                    else Ok where_clause) in
              Extract.extract_conditions (Str.strip where_clause))
             = Extract.extract_conditions (Str.strip clause)).
  { intros piece. destruct (cut_at "GROUP BY" piece) as [a|]; [|done]. cbn [bind].
    unfold cut_at. destruct (if Str.contains "ORDER BY" a then _ else _) as [b|]; [|done].
    cbn [bind]. by intros [= ->]. }
  apply Hcut. clear Hcut E Hu.
  destruct rest as [|c rest'].
  { rewrite str_app_nil_r, (not_contains_partition _ _ Hw).
    rewrite (cut_at_absent _ _ Hg). cbn [bind]. by rewrite (cut_at_absent _ _ Ho). }
  set (rest := String c rest') in *.
  cbn [ends_clause] in Hrest.
  apply orb_true_iff in Hrest as [[Hk|Hk]%orb_true_iff|Hk];
    apply prefix_split in Hk; cbn [String.length] in Hk;
    set (t := Str.drop _ rest) in Hk; rewrite Hk; clearbody t; clear Hk.
  - rewrite (partition_after _ _ _ Hw) by reflexivity.
    rewrite partition_at_prefix. simpl. rewrite str_app_nil_r.
    rewrite (cut_at_absent _ _ Hg). cbn [bind]. by rewrite (cut_at_absent _ _ Ho).
  - assert (exists t1, match Str.partition "WHERE" (clause +:+ "GROUP BY" +:+ t) with
                       | Some (a', _) => a'
                       | None => clause +:+ "GROUP BY" +:+ t
                       end = clause +:+ "GROUP BY" +:+ t1) as (t1 & ->).
    { rewrite (partition_after _ _ _ Hw) by reflexivity.
      rewrite (partition_skip "W" "HERE" "GROUP BY" t eq_refl).
      destruct (Str.partition "WHERE" t) as [[a' b']|]; simpl; eauto. }
    rewrite (cut_at_keyword _ _ _ Hg) by reflexivity. cbn [bind].
    by rewrite (cut_at_absent _ _ Ho).
  - assert (exists t1, match Str.partition "WHERE" (clause +:+ "ORDER BY" +:+ t) with
                       | Some (a', _) => a'
                       | None => clause +:+ "ORDER BY" +:+ t
                       end = clause +:+ "ORDER BY" +:+ t1) as (t1 & ->).
    { rewrite (partition_after _ _ _ Hw) by reflexivity.
      rewrite (partition_skip "W" "HERE" "ORDER BY" t eq_refl).
      destruct (Str.partition "WHERE" t) as [[a' b']|]; simpl; eauto. }
    destruct (cut_at_later "GROUP BY" clause "ORDER BY" t1 Hg eq_refl) as (t2 & ->).
    { by exists "G"%char, "ROUP BY". }
    cbn [bind]. by rewrite (cut_at_keyword _ _ _ Ho) by reflexivity.
Qed.

(** ** [extract_conditions]: the shape of what is extracted *)

Section GroupFacts.
Import Re.

(** Each captured text is a run of the class of its group. *)
Lemma match_here_captures (pat : pattern) (s : string) (m : found) :
  match_here pat s = Some m ->
  Forall2 captures (List.filter grp pat) (groups m).
Proof.
  revert s m. induction pat as [|it pat IH]; intros s m.
  - intros [= <-]. constructor.
  - rewrite match_here_cons. intros (mid & s' & -> & Hmid & Hne & Hk)%item_some.
    unfold extend in Hk. destruct (match_here pat s') as [m'|] eqn:E; [|done].
    injection Hk as <-. specialize (IH _ _ E). cbn [List.filter groups].
    destruct (grp it); [|done]. constructor; [|done].
    split; [done|]. intros Hrep. destruct mid; [|done]. exfalso. apply Hne; [|done].
    intros Hs. by rewrite Hs in Hrep.
Qed.

Lemma search_one_captures (pat : pattern) (s pre : string) (m : found) :
  search [pat] s = Some (pre, m) -> Forall2 captures (List.filter grp pat) (groups m).
Proof.
  intros (s' & _ & Hm)%search_some. simpl in Hm.
  destruct (match_here pat s') as [m'|] eqn:E; [|done].
  injection Hm as <-. by eapply match_here_captures.
Qed.

End GroupFacts.

Lemma digit_not_quote (c : ascii) : Chr.is_digit c = true -> negb (Chr.is_quote c) = true.
Proof. revert c. by_chars. Qed.

(** The two groups of each of the five patterns: a word, then a text
    without quotes; neither is empty. *)
Lemma patterns_capture (pat : Re.pattern) (part pre fld val : string) (m : Re.found) :
  pat ∈ Extract.patterns -> Re.search [pat] part = Some (pre, m) ->
  Re.groups m = [fld; val] ->
  (nonempty fld = true /\ Str.all Chr.is_word fld = true) /\
  (nonempty val = true /\ Str.all (fun a => negb (Chr.is_quote a)) val = true).
Proof.
  intros Hpat Hs Hg. apply search_one_captures in Hs. rewrite Hg in Hs.
  unfold Extract.patterns in Hpat.
  repeat (apply elem_of_cons in Hpat as [->|Hpat]);
    [..|by apply elem_of_nil in Hpat]; cbn in Hs;
    apply Forall2_cons in Hs as [[Hf Hf0] Hs];
    apply Forall2_cons in Hs as [[Hv Hv0] _];
    (split; split; [by apply Hf0|exact Hf|by apply Hv0|]);
    try exact Hv; revert Hv; apply all_impl, digit_not_quote.
Qed.

Lemma replace_keeps (p : ascii -> bool) (c : ascii) (by_ s : string) :
  Str.all p by_ = true -> Str.all p s = true -> Str.all p (Str.replace c by_ s) = true.
Proof.
  intros Hby. induction s as [|a s IH]; simpl; [done|].
  intros [Ha Hs]%andb_true_iff. destruct (Ascii.eqb a c).
  - by rewrite all_app, Hby, IH.
  - simpl. by rewrite Ha, IH.
Qed.

Lemma replace_nonempty (c : ascii) (by_ s : string) :
  nonempty by_ = true -> nonempty s = true -> nonempty (Str.replace c by_ s) = true.
Proof.
  intros Hby. destruct s as [|a s]; [done|]. intros _. simpl.
  destruct (Ascii.eqb a c); [|done]. by destruct by_.
Qed.

Lemma replace_absent (c : ascii) (by_ s : string) :
  Str.all (fun a => negb (Ascii.eqb a c)) s = true -> Str.replace c by_ s = s.
Proof.
  induction s as [|a s IH]; simpl; [done|].
  intros [Ha Hs]%andb_true_iff. apply negb_true_iff in Ha. by rewrite Ha, IH.
Qed.

(** After [value.replace('%', '.*')] no [%] is left. *)
Lemma replace_percent (s : string) :
  Str.contains "%" (Str.replace "%" ".*" s) = false.
Proof.
  apply contains_char_none.
  induction s as [|a s IH]; simpl; [done|].
  destruct (Ascii.eqb a "%") eqn:E.
  - by rewrite all_app, IH.
  - simpl. by rewrite E, IH.
Qed.

Lemma build_shaped (part fld val : string) :
  nonempty fld = true -> Str.all Chr.is_word fld = true ->
  nonempty val = true -> Str.all (fun a => negb (Chr.is_quote a)) val = true ->
  shaped (Extract.build part fld val).
Proof.
  intros Hf0 Hf Hv0 Hv. unfold Extract.build, shaped.
  repeat match goal with |- context [if ?b then _ else _] => destruct b end;
    cbn [field value op]; split_and!; try done.
  - by apply replace_nonempty.
  - by apply replace_keeps.
  - intros _. apply replace_percent.
Qed.

Lemma collect_shaped (parts : list string) (conditions : list Condition) :
  Forall shaped conditions ->
  exists cs, Extract.collect conditions parts = Ok cs /\ Forall shaped cs /\
             (length cs <= length conditions + length parts)%nat.
Proof.
  revert conditions. induction parts as [|part parts IH]; intros conditions Hcs;
    cbn [Extract.collect].
  - exists conditions. split_and!; [done..|lia].
  - destruct (first_match_some Extract.patterns (Extract.clean part) patterns_two_groups)
      as [->|(pat & pre & m & fld & val & Hin & Hs & Hg & ->)]; cbn [bind].
    + destruct (IH conditions Hcs) as (cs & -> & Hsh & Hlen).
      exists cs. split_and!; [done..|]. simpl. lia.
    + destruct (patterns_capture _ _ _ _ _ _ Hin Hs Hg) as [[Hf0 Hf] [Hv0 Hv]].
      destruct (IH (conditions ++ [Extract.build (Extract.clean part) fld val]))
        as (cs & -> & Hsh & Hlen).
      { apply Forall_app. split; [done|]. constructor; [|done]. by apply build_shaped. }
      exists cs. split_and!; [done..|]. rewrite length_app in Hlen. simpl in *. lia.
Qed.

(** The conditions of a query are those of one clause, or there are none. *)
Lemma parse_reads_a_clause (sql_query : string) :
  Extract.parse_sql_conditions sql_query = Ok [] \/
  exists clause,
    Extract.parse_sql_conditions sql_query = Extract.extract_conditions clause.
Proof.
  unfold Extract.parse_sql_conditions.
  destruct (Str.contains "WHERE" (Str.upper sql_query)) eqn:Hw; [right|by left].
  destruct (split_index_1 _ _ Hw) as (w1 & ->). cbn [bind].
  assert (exists w2, (if Str.contains "GROUP BY" w1
                      then Str.index (Str.split "GROUP BY" w1) 0 else Ok w1) = Ok w2)
    as (w2 & ->).
  { destruct (Str.contains "GROUP BY" w1); [|by exists w1]. apply split_index_0. }
  cbn [bind].
  assert (exists w3, (if Str.contains "ORDER BY" w2
                      then Str.index (Str.split "ORDER BY" w2) 0 else Ok w2) = Ok w3)
    as (w3 & ->).
  { destruct (Str.contains "ORDER BY" w2); [|by exists w2]. apply split_index_0. }
  cbn [bind]. by eexists.
Qed.

(** X2.  [extract_conditions] never raises and returns at most one
    condition per piece of [re.split]; every condition has a non-empty field
    made of word characters and a non-empty value without a quote, and the
    value of a [LIKE] holds no [%].  The conditions of
    [parse_sql_conditions] have the same shape. *)
Theorem extracted_conditions_are_shaped (text : string) :
  (exists cs, Extract.extract_conditions text = Ok cs /\
              Forall shaped cs /\
              (length cs <= length (Re.split Extract.and_or text))%nat) /\
  (exists cs, Extract.parse_sql_conditions text = Ok cs /\ Forall shaped cs).
Proof.
  assert (He : forall s, exists cs,
               Extract.extract_conditions s = Ok cs /\ Forall shaped cs /\
               (length cs <= length (Re.split Extract.and_or s))%nat).
  { intros s. unfold Extract.extract_conditions.
    destruct (collect_shaped (Re.split Extract.and_or s) [])
      as (cs & E & Hsh & Hlen); [constructor|].
    exists cs. by split_and!. }
  split; [apply He|].
  destruct (parse_reads_a_clause text) as [->|(clause & ->)].
  - exists []. split; [done|constructor].
  - destruct (He clause) as (cs & E & Hsh & _). by exists cs.
Qed.

(** ** [extract_conditions]: the operator is read off the clause *)

Section Clauses.
Import Re.

(** A pattern with a literal finds nothing in a text without it. *)
Lemma quoted_needs_quote (s : string) :
  Str.all (fun c => negb (Chr.is_quote c)) s = true ->
  search [Extract.string_equality] s = None.
Proof.
  intros Hs. eapply search_none; [|exact Hs]. intros t Ht. cbn [match_alt].
  change Extract.string_equality
    with ([word_group; spaces0; lit_ic "="; spaces0] ++ quote :: [unquoted_group; quote]).
  by rewrite match_here_needs.
Qed.

Lemma comparison_needs_sign (s : string) :
  Str.all no_sign s = true ->
  search [Extract.string_equality] s = None /\
  search [Extract.numeric_equality] s = None /\
  search [Extract.greater_than] s = None /\
  search [Extract.less_than] s = None.
Proof.
  intros Hs.
  assert (He : Str.all (fun c => negb (Chr.eqb_ic "=" c)) s = true)
    by (revert Hs; apply all_impl; by_chars).
  destruct (equality_needs_equals _ He) as [-> ->]. split_and!; [done..| |].
  - eapply (search_none _ (fun c => negb (Chr.eqb_ic ">" c)));
      [|revert Hs; apply all_impl; by_chars].
    intros t Ht. cbn [match_alt].
    change Extract.greater_than
      with ([word_group; spaces0] ++ lit_ic ">" :: [spaces0; digits_group]).
    by rewrite match_here_needs.
  - eapply (search_none _ (fun c => negb (Chr.eqb_ic "<" c)));
      [|revert Hs; apply all_impl; by_chars].
    intros t Ht. cbn [match_alt].
    change Extract.less_than
      with ([word_group; spaces0] ++ lit_ic "<" :: [spaces0; digits_group]).
    by rewrite match_here_needs.
Qed.

(** A text that [re.split] leaves whole and [clean] leaves as it is becomes
    at most one condition. *)
Lemma extract_one_clause (clause : string) (c : option Condition) :
  blocked Extract.and_or clause "" ->
  stops Chr.is_space clause = true -> tidy clause ->
  Extract.first_match Extract.patterns clause = Ok c ->
  Extract.extract_conditions clause = Ok (option_list c).
Proof.
  intros Hb Hs Ht Hc. unfold Extract.extract_conditions, Re.split.
  cbn [split_fuel]. rewrite <- (str_app_nil_r clause) at 1.
  rewrite (search_blocked _ _ _ Hb).
  change (search Extract.and_or "") with (@None (string * found)).
  cbn [prepend Extract.collect]. rewrite (clean_tidy _ Hs Ht), Hc. cbn [bind].
  by destruct c.
Qed.

Section Pieces.
Variables f gl gr : string.
Hypothesis Hf0 : nonempty f = true.
Hypothesis Hf : Str.all Chr.is_word f = true.
Hypothesis Hgl : Str.all Chr.is_space gl = true.
Hypothesis Hgr : Str.all Chr.is_space gr = true.

Lemma name_no_space : Str.all (fun c => negb (Chr.is_space c)) f = true.
Proof. revert Hf. apply all_impl. by_chars. Qed.

Lemma name_starts (t : string) : stops Chr.is_space (f +:+ t) = true.
Proof. eapply stops_run_nonempty; [|exact Hf0|exact Hf]. apply word_not_space. Qed.

Lemma numeric_equality_match (n : string) :
  nonempty n = true -> Str.all Chr.is_digit n = true ->
  match_here Extract.numeric_equality (f +:+ gl +:+ "=" +:+ gr +:+ n) =
    Some (Found (f +:+ gl +:+ "=" +:+ gr +:+ n) [f; n] "").
Proof.
  intros Hn0 Hn.
  pose proof (eq_refl : match_here [] "" = Some (Found "" [] "")) as M.
  eapply (match_here_step digits_group _ n) in M; [|by apply fits_plus|done|done].
  eapply (match_here_step spaces0 _ gr) in M; [|done|done|].
  2:{ apply orb_true_iff. left. eapply stops_run_nonempty; [|exact Hn0|exact Hn].
      apply digit_not_space. }
  eapply (match_here_step (lit_ic "=") _ "=") in M; [|done|done|apply orb_true_r].
  eapply (match_here_step spaces0 _ gl) in M; [|done|done|done].
  eapply (match_here_step word_group _ f) in M; [|by apply fits_plus|done|].
  2:{ apply orb_true_iff. left. eapply stops_run; [|exact Hgl|done].
      apply space_not_word. }
  cbn [whole groups rest grp word_group spaces0 lit_ic digits_group] in M.
  rewrite !str_app_nil_r in M. exact M.
Qed.


End Pieces.
End Clauses.






Section Misread.
Import Re.

(** X3.  An equality with a number on a field whose name spells [like], in
    any letter case, is extracted with the operator [LIKE]: the clause
    holds no [>] and no [<], and its upper-cased text contains [LIKE]. *)
Theorem equality_on_a_like_name (f gl gr n : string) :
  nonempty f = true -> Str.all Chr.is_word f = true ->
  Str.contains "LIKE" (Str.upper f) = true ->
  Str.all Chr.is_space gl = true -> Str.all Chr.is_space gr = true ->
  nonempty n = true -> Str.all Chr.is_digit n = true ->
  Extract.extract_conditions (f +:+ gl +:+ "=" +:+ gr +:+ n) =
    Ok [MkCondition f OpLike n].
Proof.
  intros Hf0 Hf Hlike Hgl Hgr Hn0 Hn.
  set (clause := f +:+ gl +:+ "=" +:+ gr +:+ n).
  assert (Hgt : Str.contains ">" clause = false).
  { apply contains_char_none. subst clause. rewrite !all_app.
    rewrite (all_impl Chr.is_word _ f), (all_impl Chr.is_space _ gl),
      (all_impl Chr.is_space _ gr), (all_impl Chr.is_digit _ n); try done; by_chars. }
  assert (Hlt : Str.contains "<" clause = false).
  { apply contains_char_none. subst clause. rewrite !all_app.
    rewrite (all_impl Chr.is_word _ f), (all_impl Chr.is_space _ gl),
      (all_impl Chr.is_space _ gr), (all_impl Chr.is_digit _ n); try done; by_chars. }
  apply (extract_one_clause clause (Some (MkCondition f OpLike n))).
  - subst clause.
    apply blocked_app; [by apply blocked_no_space, name_no_space|].
    apply blocked_app; [by apply blocked_spaces|].
    apply blocked_app; [by apply blocked_no_space|].
    apply blocked_app; [by apply blocked_spaces_digits|].
    apply blocked_no_space. revert Hn. apply all_impl. by_chars.
  - by apply name_starts.
  - subst clause. do 4 apply tidy_app. by apply tidy_digits.
  - cbn [Extract.first_match Extract.patterns].
    rewrite quoted_needs_quote.
    2:{ subst clause. rewrite !all_app.
        rewrite (all_impl Chr.is_word _ f), (all_impl Chr.is_space _ gl),
          (all_impl Chr.is_space _ gr), (all_impl Chr.is_digit _ n); try done; by_chars. }
    rewrite (search_here _ _ (Found clause [f; n] ""));
      [|cbn [match_alt]; subst clause; by rewrite numeric_equality_match].
    cbn [groups]. unfold Extract.build.
    rewrite Hgt, Hlt. subst clause. rewrite upper_app, (contains_app_l _ _ _ Hlike).
    rewrite replace_absent; [done|]. revert Hn. apply all_impl. by_chars.
Qed.



End Misread.

(** ** [OR] between two clauses *)

Section OrClause.
Import Re.
Variable w : where_form.
Hypothesis WF : well_formed w = true.




End OrClause.

(** ** A query no pattern can read *)

Lemma unread_app (a b : string) : unread (a +:+ b) -> unread a /\ unread b.
Proof.
  intros [Hs Hl]. rewrite all_app in Hs. apply andb_true_iff in Hs as [Ha Hb].
  rewrite upper_app in Hl. split; (split; [done|]).
  - destruct (Str.contains "LIKE" (Str.upper a)) eqn:E; [|done].
    by rewrite (contains_app_l _ _ (Str.upper b) E) in Hl.
  - destruct (Str.contains "LIKE" (Str.upper b)) eqn:E; [|done].
    by rewrite (contains_app_r _ (Str.upper a) _ E) in Hl.
Qed.

Lemma unread_upper (s : string) : unread s -> unread (Str.upper s).
Proof.
  intros [Hs Hl]. split; [|by rewrite upper_idem].
  revert Hs. apply upper_all. by_chars.
Qed.

Lemma unread_partition (sep s a b : string) :
  Str.partition sep s = Some (a, b) -> unread s -> unread a /\ unread b.
Proof.
  intros ->%partition_eq [Ha [_ Hb]%unread_app]%unread_app. done.
Qed.

Lemma unread_split_fuel (fuel : nat) (sep s : string) :
  unread s -> Forall unread (Str.split_fuel fuel sep s).
Proof.
  revert s. induction fuel as [|fuel IH]; intros s Hs; simpl.
  - by constructor.
  - destruct (Str.partition sep s) as [[a b]|] eqn:E; [|by constructor].
    destruct (unread_partition _ _ _ _ E Hs). constructor; auto.
Qed.

Lemma unread_index (l : list string) (i : nat) (x : string) :
  Forall unread l -> Str.index l i = Ok x -> unread x.
Proof.
  intros Hl. unfold Str.index. destruct (l !! i) eqn:E; [|done].
  intros [= <-]. by eapply (proj1 (Forall_lookup _ _) Hl).
Qed.

(** What [lstrip], [rstrip] and [s[:-1]] leave is a piece of the text. *)
Lemma lstrip_eq (s : string) : exists ws, s = ws +:+ Str.lstrip s.
Proof.
  induction s as [|c s [ws IH]]; [by exists ""|]. simpl.
  destruct (Chr.is_space c); [|by exists ""].
  exists (String c ws). by rewrite str_app_cons, <- IH.
Qed.

Lemma rstrip_eq (s : string) : exists ws, s = Str.rstrip s +:+ ws.
Proof.
  induction s as [|c s [ws IH]]; [by exists ""|]. simpl.
  destruct (Str.rstrip s) as [|d r] eqn:E.
  - destruct (Chr.is_space c).
    + exists (String c s). done.
    + exists ws. by rewrite str_app_cons, <- IH.
  - exists ws. by rewrite str_app_cons, <- IH.
Qed.

Lemma init_eq (s : string) : exists t, s = Str.init s +:+ t.
Proof.
  induction s as [|c s [t IH]]; [by exists ""|].
  destruct s as [|d s]; [by exists (String c "")|].
  exists t. change (Str.init (String c (String d s)))
    with (String c (Str.init (String d s))).
  by rewrite str_app_cons, <- IH.
Qed.

Lemma unread_strip (s : string) : unread s -> unread (Str.strip s).
Proof.
  intros Hs. unfold Str.strip.
  destruct (lstrip_eq s) as [ws Hl]. rewrite Hl in Hs. apply unread_app in Hs as [_ Hs].
  destruct (rstrip_eq (Str.lstrip s)) as [ws' Hr]. rewrite Hr in Hs.
  by apply unread_app in Hs as [Hs _].
Qed.

Lemma unread_clean (s : string) : unread s -> unread (Extract.clean s).
Proof.
  intros Hs%unread_strip. unfold Extract.clean. destruct (Str.endswith _ _); [|done].
  destruct (init_eq (Str.strip s)) as [t Ht]. rewrite Ht in Hs.
  by apply unread_app in Hs as [Hs _].
Qed.

Lemma like_letters (c : ascii) :
  (Chr.eqb_ic "L" c = true -> Chr.upper c = "L"%char) /\
  (Chr.eqb_ic "I" c = true -> Chr.upper c = "I"%char) /\
  (Chr.eqb_ic "K" c = true -> Chr.upper c = "K"%char) /\
  (Chr.eqb_ic "E" c = true -> Chr.upper c = "E"%char).
Proof. revert c. by_chars. Qed.

Section UnreadMatcher.
Import Re.

(** A match is the start of the searched text. *)
Lemma match_here_whole (pat : pattern) (s : string) (m : found) :
  match_here pat s = Some m -> s = whole m +:+ rest m.
Proof.
  revert s m. induction pat as [|it pat IH]; intros s m.
  - by intros [= <-].
  - rewrite match_here_cons. intros (mid & s' & -> & _ & _ & Hk)%item_some.
    unfold extend in Hk. destruct (match_here pat s') as [m'|] eqn:E; [|done].
    injection Hk as <-. cbn [whole rest]. by rewrite str_app_assoc, <- (IH _ _ E).
Qed.

Lemma match_alt_whole (alts : list pattern) (s : string) (m : found) :
  match_alt alts s = Some m -> s = whole m +:+ rest m.
Proof.
  induction alts as [|pat alts IH]; simpl; [done|].
  destruct (match_here pat s) as [m'|] eqn:E; [|done].
  intros [= <-]. by apply match_here_whole in E.
Qed.

Lemma unread_re_split_fuel (fuel : nat) (alts : list pattern) (s : string) :
  unread s -> Forall unread (split_fuel fuel alts s).
Proof.
  revert s. induction fuel as [|fuel IH]; intros s Hs; simpl.
  - by constructor.
  - destruct (search alts s) as [[pre m]|] eqn:E; [|by constructor].
    apply search_some in E as (s' & -> & Hm). apply match_alt_whole in Hm.
    apply unread_app in Hs as [Hpre Hs']. rewrite Hm in Hs'.
    apply unread_app in Hs' as [_ Hr]. constructor; auto.
Qed.

(** A literal of the pattern takes one character. *)
Lemma match_here_once (it : item) (pat : pattern) (s : string) (m : found) :
  is_once (rep it) = true -> match_here (it :: pat) s = Some m ->
  exists a s' m', s = String a s' /\ cls it a = true /\ match_here pat s' = Some m'.
Proof.
  rewrite match_here_cons. destruct (rep it); try done. intros _.
  intros (a & s' & -> & Ha & Hk)%once_some. unfold extend in Hk.
  destruct (match_here pat s') as [m'|] eqn:E; [|done]. by exists a, s', m'.
Qed.

(** The [LIKE] pattern matches only where the text spells [LIKE]. *)
Lemma like_needs_like (s : string) :
  Str.contains "LIKE" (Str.upper s) = false -> search [Extract.like_pattern] s = None.
Proof.
  intros Hs. destruct (search _ s) as [[pre m]|] eqn:E; [exfalso|done].
  apply search_some in E as (s' & -> & Hm). cbn [match_alt] in Hm.
  destruct (match_here Extract.like_pattern s') as [m'|] eqn:E; [clear Hm|done].
  change Extract.like_pattern
    with (word_group :: spaces0 :: lit_ic "L" :: lit_ic "I" :: lit_ic "K" :: lit_ic "E"
          :: [spaces0; quote; unquoted_group; quote]) in E.
  apply match_here_cons_some in E as (mid1 & s1 & m1 & -> & _ & _ & E).
  apply match_here_cons_some in E as (mid2 & s2 & m2 & -> & _ & _ & E).
  apply match_here_once in E as (l & s3 & m3 & -> & Hl & E); [|done].
  apply match_here_once in E as (i & s4 & m4 & -> & Hi & E); [|done].
  apply match_here_once in E as (k & s5 & m5 & -> & Hk & E); [|done].
  apply match_here_once in E as (e & s6 & m6 & -> & He & E); [|done].
  cbn [cls lit_ic] in Hl, Hi, Hk, He.
  apply (proj1 (like_letters l)) in Hl. apply (proj1 (proj2 (like_letters i))) in Hi.
  apply (proj1 (proj2 (proj2 (like_letters k)))) in Hk.
  apply (proj2 (proj2 (proj2 (like_letters e)))) in He.
  rewrite !upper_app in Hs.
  assert (Hc : Str.contains "LIKE"
                 (Str.upper (String l (String i (String k (String e s6))))) = true).
  { unfold Str.upper. cbn [Str.map]. rewrite Hl, Hi, Hk, He.
    apply (contains_at_prefix "LIKE"). }
  apply (contains_app_r _ (Str.upper mid2)) in Hc.
  apply (contains_app_r _ (Str.upper mid1)) in Hc.
  apply (contains_app_r _ (Str.upper pre)) in Hc. congruence.
Qed.

Lemma unread_first_match (part : string) :
  unread part -> Extract.first_match Extract.patterns part = Ok None.
Proof.
  intros [Hs Hl]. cbn [Extract.first_match Extract.patterns].
  destruct (comparison_needs_sign _ Hs) as (-> & -> & -> & ->).
  by rewrite like_needs_like.
Qed.

Lemma unread_collect (parts : list string) (conditions : list Condition) :
  Forall unread parts -> Extract.collect conditions parts = Ok conditions.
Proof.
  induction 1 as [|part parts Hpart _ IH]; [done|]. cbn [Extract.collect].
  by rewrite unread_first_match by (by apply unread_clean).
Qed.

Lemma unread_extract (s : string) : unread s -> Extract.extract_conditions s = Ok [].
Proof.
  intros Hs. unfold Extract.extract_conditions. apply unread_collect.
  by apply unread_re_split_fuel.
Qed.

End UnreadMatcher.

Lemma unread_parse (sql_query : string) :
  unread sql_query -> Extract.parse_sql_conditions sql_query = Ok [].
Proof.
  intros Hq%unread_upper. unfold Extract.parse_sql_conditions.
  destruct (Str.contains "WHERE" (Str.upper sql_query)) eqn:Hw; [|done].
  destruct (split_index_1 _ _ Hw) as (w1 & E1). rewrite E1. cbn [bind].
  assert (H1 : unread w1).
  { eapply unread_index; [|exact E1]. by apply unread_split_fuel. }
  assert (exists w2, (if Str.contains "GROUP BY" w1
                      then Str.index (Str.split "GROUP BY" w1) 0 else Ok w1) = Ok w2
                     /\ unread w2) as (w2 & -> & H2).
  { destruct (Str.contains "GROUP BY" w1); [|by exists w1].
    destruct (split_index_0 "GROUP BY" w1) as (w2 & E2). exists w2. split; [done|].
    eapply unread_index; [|exact E2]. by apply unread_split_fuel. }
  cbn [bind].
  assert (exists w3, (if Str.contains "ORDER BY" w2
                      then Str.index (Str.split "ORDER BY" w2) 0 else Ok w2) = Ok w3
                     /\ unread w3) as (w3 & -> & H3).
  { destruct (Str.contains "ORDER BY" w2); [|by exists w2].
    destruct (split_index_0 "ORDER BY" w2) as (w3 & E3). exists w3. split; [done|].
    eapply unread_index; [|exact E3]. by apply unread_split_fuel. }
  cbn [bind]. by apply unread_extract, unread_strip.
Qed.

(** X6.  From an ASCII query that holds no [=], [<] or [>] and does not
    spell [LIKE], in any letter case, no condition is extracted, whatever
    its [WHERE] clause says, and the filter of the data tool gives back
    every record of any data. *)
Theorem unread_query_filters_nothing `{RT : Runtime}
    (data : list record) (sql_query : string) :
  isascii sql_query = true ->
  Str.all no_sign sql_query = true ->
  Str.contains "LIKE" (Str.upper sql_query) = false ->
  Extract.parse_sql_conditions sql_query = Ok [] /\
  filtered_data data sql_query = Ok data.
Proof.
  intros _ Hs Hl. assert (E : Extract.parse_sql_conditions sql_query = Ok [])
    by (by apply unread_parse).
  split; [done|]. unfold filtered_data. by rewrite E.
Qed.

(** ** [apply_conditions]: when it raises, and how calls compose *)

Section FilterLaws.
Context `{RT : Runtime}.

Lemma test_outcome (item : record) (c : Condition) (v : pyval) :
  item !! field c = Some v ->
  if raises_on c v
  then exists e, test (op c) v (value c) = Raise e
  else test (op c) v (value c) = Ok (Spec.holds item c).
Proof.
  intros Hv. unfold raises_on, Spec.holds, Spec.rejected, test. rewrite Hv.
  destruct (op c); [done|..].
  - unfold numeric_test, Spec.passes, to_float.
    destruct v; simpl; [done|..]; destruct (float_of_str (value c)); simpl; eauto.
  - unfold numeric_test, Spec.passes, to_float.
    destruct v; simpl; [done|..]; destruct (float_of_str (value c)); simpl; eauto.
  - unfold like_test, Spec.found_by_search.
    destruct (re_compile_ic (value c)); simpl; eauto.
Qed.

Lemma matches_all_outcome (item : record) (conditions : list Condition) :
  if trips item conditions
  then exists e, matches_all item conditions = Raise e
  else matches_all item conditions = Ok (Spec.satisfies conditions item).
Proof.
  induction conditions as [|c cs IH]; [done|]. cbn [trips matches_all].
  destruct (item !! field c) as [v|] eqn:Hv.
  - pose proof (test_outcome item c v Hv) as Ht.
    destruct (raises_on c v); cbn [orb].
    + destruct Ht as (e & ->). by exists e.
    + rewrite Ht. cbn [bind]. unfold Spec.satisfies. cbn [forallb].
      destruct (Spec.holds item c); cbn [andb]; [|done]. exact IH.
  - unfold Spec.satisfies. cbn [forallb]. unfold Spec.holds at 1. by rewrite Hv.
Qed.

Lemma filter_loop_outcome (data filtered : list record) (conditions : list Condition) :
  if existsb (fun item => trips item conditions) data
  then exists e, filter_loop filtered data conditions = Raise e
  else filter_loop filtered data conditions =
         Ok (filtered ++ List.filter (Spec.satisfies conditions) data).
Proof.
  revert filtered. induction data as [|item data IH]; intros filtered.
  - simpl. by rewrite app_nil_r.
  - cbn [existsb filter_loop List.filter].
    pose proof (matches_all_outcome item conditions) as Hm.
    destruct (trips item conditions); cbn [orb].
    + destruct Hm as (e & ->). by exists e.
    + rewrite Hm. cbn [bind].
      specialize (IH (if Spec.satisfies conditions item
                      then filtered ++ [item] else filtered)).
      destruct (existsb _ data); [done|]. rewrite IH.
      destruct (Spec.satisfies conditions item); [|done]. by rewrite <- app_assoc.
Qed.

Lemma filter_loop_nil (data filtered : list record) :
  filter_loop filtered data [] = Ok (filtered ++ data).
Proof.
  revert filtered. induction data as [|item data IH]; intros filtered; simpl.
  - by rewrite app_nil_r.
  - by rewrite IH, <- app_assoc.
Qed.

(** The loop gives, without conditions too, the records the call returns. *)
Lemma filter_by_loop (data : list record) (conditions : list Condition) :
  filter_by data conditions = filter_loop [] data conditions.
Proof.
  unfold filter_by, apply_conditions. destruct conditions as [|c cs].
  - by rewrite filter_loop_nil.
  - by destruct (filter_loop [] data (c :: cs)).
Qed.

(** What a call of [apply_conditions] does, in one equation. *)
Lemma filter_by_outcome (data : list record) (conditions : list Condition) :
  if existsb (fun item => trips item conditions) data
  then exists e, filter_by data conditions = Raise e
  else filter_by data conditions = Ok (List.filter (Spec.satisfies conditions) data).
Proof.
  rewrite filter_by_loop. apply (filter_loop_outcome data []).
Qed.

Lemma trips_app (item : record) (cs1 cs2 : list Condition) :
  trips item (cs1 ++ cs2) =
    trips item cs1 || (Spec.satisfies cs1 item && trips item cs2).
Proof.
  induction cs1 as [|c cs1 IH]; [done|].
  cbn [app trips]. unfold Spec.satisfies. cbn [forallb].
  destruct (item !! field c) as [v|] eqn:Hv.
  - rewrite IH. unfold Spec.satisfies.
    destruct (raises_on c v), (Spec.holds item c), (trips item cs1); done.
  - unfold Spec.holds at 1. by rewrite Hv.
Qed.

Lemma satisfies_app (item : record) (cs1 cs2 : list Condition) :
  Spec.satisfies (cs1 ++ cs2) item = Spec.satisfies cs1 item && Spec.satisfies cs2 item.
Proof. apply forallb_app. Qed.

Lemma existsb_filter {A} (p q : A -> bool) (l : list A) :
  existsb q (List.filter p l) = existsb (fun x => p x && q x) l.
Proof.
  induction l as [|x l IH]; [done|]. simpl. destruct (p x); simpl; by rewrite IH.
Qed.

Lemma filter_filter_and {A} (p q : A -> bool) (l : list A) :
  List.filter q (List.filter p l) = List.filter (fun x => p x && q x) l.
Proof.
  induction l as [|x l IH]; [done|]. simpl.
  destruct (p x); simpl; [destruct (q x)|]; by rewrite IH.
Qed.

Lemma existsb_trips_app (data : list record) (cs1 cs2 : list Condition) :
  existsb (fun item => trips item (cs1 ++ cs2)) data =
    existsb (fun item => trips item cs1) data ||
    existsb (fun item => Spec.satisfies cs1 item && trips item cs2) data.
Proof.
  induction data as [|x data IH]; [done|]. cbn [existsb]. rewrite IH, trips_app.
  destruct (trips x cs1), (Spec.satisfies cs1 x && trips x cs2),
    (existsb (fun item => trips item cs1) data); done.
Qed.

(** X7.  Filtering is idempotent: when a call returns, the same conditions
    applied to the records it returned return them again, all of them and
    in the same order, without an exception. *)
Theorem filter_is_idempotent (data kept : list record) (conditions : list Condition) :
  filter_by data conditions = Ok kept -> filter_by kept conditions = Ok kept.
Proof.
  intros H1. pose proof (filter_by_outcome data conditions) as Hd.
  destruct (existsb _ data) eqn:E; [destruct Hd as (e & He); congruence|].
  rewrite H1 in Hd. injection Hd as ->.
  pose proof (filter_by_outcome (List.filter (Spec.satisfies conditions) data) conditions)
    as H2.
  rewrite existsb_filter in H2.
  replace (existsb _ data) with false in H2.
  - rewrite H2, filter_filter_and. f_equal. apply filter_ext.
    intros item. apply andb_diag.
  - symmetry. apply not_true_is_false. intros (x & Hx & Hxt)%existsb_exists.
    apply andb_true_iff in Hxt as [_ Hxt].
    assert (existsb (fun item => trips item conditions) data = true)
      by (apply existsb_exists; eauto).
    congruence.
Qed.

(** X8.  Filtering by one list of conditions and then filtering the result
    by a second list ends as one call with the two lists appended: with the
    same records, or both with an exception.  The conditions are combined
    by AND and are evaluated left to right, a record that fails one of
    them being dropped before the next ones are looked at. *)
Theorem filters_compose (data : list record) (cs1 cs2 : list Condition) :
  same_outcome (let! kept := filter_by data cs1 in filter_by kept cs2)
               (filter_by data (cs1 ++ cs2)).
Proof.
  pose proof (filter_by_outcome data cs1) as H1.
  pose proof (filter_by_outcome data (cs1 ++ cs2)) as H12.
  rewrite existsb_trips_app in H12.
  destruct (existsb (fun item => trips item cs1) data); cbn [orb] in H12.
  { destruct H1 as (e1 & ->), H12 as (e & ->). done. }
  rewrite H1. cbn [bind].
  pose proof (filter_by_outcome (List.filter (Spec.satisfies cs1) data) cs2) as H2.
  rewrite existsb_filter in H2.
  destruct (existsb _ data).
  { destruct H2 as (e2 & ->), H12 as (e & ->). done. }
  rewrite H2, H12. simpl. rewrite filter_filter_and.
  apply filter_ext. intros item. symmetry. apply satisfies_app.
Qed.

(** X9.  [apply_conditions] raises exactly when, for some record, the loop
    over the conditions reaches a condition whose value [float] or
    [re.compile] rejects: the record has the fields of the conditions
    before it and satisfies them, it has the field of that condition, and,
    for [>] and [<], the field value is a number.  Otherwise it returns
    the records that satisfy every condition. *)
Theorem filter_raises_exactly_when_tripped (data : list record)
    (conditions : list Condition) :
  match apply_conditions data conditions with
  | Ok r => existsb (fun item => trips item conditions) data = false /\
            contents data r = List.filter (Spec.satisfies conditions) data
  | Raise _ => existsb (fun item => trips item conditions) data = true
  end.
Proof.
  pose proof (filter_by_outcome data conditions) as H. unfold filter_by in H.
  destruct (apply_conditions data conditions) as [r|e]; cbn [bind] in H.
  - destruct (existsb _ data); [by destruct H|]. by injection H as ->.
  - by destruct (existsb _ data).
Qed.

End FilterLaws.

(** ** The memory over a run of [src/main.py] *)

Section MemoryLaws.
Context `{RT : Runtime} {W : Wording} (llm : provider).

Lemma last_two_short {A} (l : list A) : (length l <= 2)%nat -> last_two l = l.
Proof. intros H. unfold last_two. by replace (length l - 2)%nat with 0%nat by lia. Qed.

Lemma last_two_app {A} (l es : list A) :
  last_two (last_two l ++ es) = last_two (l ++ es).
Proof.
  unfold last_two. destruct (decide (length l <= 2)%nat) as [H|H].
  - by replace (length l - 2)%nat with 0%nat by lia.
  - pose proof (take_drop (length l - 2) l) as Hl.
    assert (Ha : length (take (length l - 2) l) = (length l - 2)%nat)
      by (rewrite length_take; lia).
    assert (Hb : length (drop (length l - 2) l) = 2%nat)
      by (rewrite length_drop; lia).
    revert Hl Ha Hb.
    generalize (take (length l - 2) l) (drop (length l - 2) l). intros a b <- Ha Hb.
    rewrite <- app_assoc, !length_app, Hb.
    replace (length a + (2 + length es) - 2)%nat
      with (length a + (2 + length es - 2))%nat by lia.
    by rewrite drop_app_add.
Qed.

Lemma record_entry_last_two (memory : list entry) (e : entry) :
  (length memory <= 2)%nat -> record_entry memory e = last_two (memory ++ [e]).
Proof.
  intros H. unfold record_entry, last_two.
  destruct memory as [|a [|b [|c m]]]; simpl in *; try done. lia.
Qed.

(** X10.  Over a run of queries that starts with at most two entries in the
    memory, every call of [process_query] returns, and the memory at the
    end holds the last two of the entries it held at the start followed by
    the data and reporting exchanges of the run, oldest first. *)
Theorem memory_holds_the_last_two (queries : list string) (self : Main.agent) :
  (length (Main.memory self) <= 2)%nat ->
  exists rs self',
    process_all llm queries self = (Ok rs, self') /\
    map fst rs = queries /\
    Main.memory self' = last_two (Main.memory self ++ recorded rs).
Proof.
  revert self. induction queries as [|query queries IH]; intros self Hlen.
  - exists [], self. split_and!; [done..|].
    unfold recorded. simpl. by rewrite app_nil_r, last_two_short.
  - destruct (process_query_returns llm query self) as (r & self1 & E1 & Hm & _).
    destruct (IH self1) as (rs & self2 & E2 & Hq & Hm2).
    { rewrite Hm. destruct (is_recorded r); [|done]. by apply record_entry_bound. }
    exists ((query, r) :: rs), self2. cbn [process_all]. unfold mbind at 1.
    rewrite E1. unfold mbind. rewrite E2. split_and!; [done|by rewrite <- Hq|].
    rewrite Hm2, Hm. unfold recorded. cbn [List.filter snd].
    destruct (is_recorded r); [|done].
    rewrite record_entry_last_two by done.
    by rewrite last_two_app, <- app_assoc.
Qed.

End MemoryLaws.

(** ** [src/main.py]: the handlers and what a query costs *)

Section MainLaws.
Context `{RT : Runtime} {W : Wording} (llm : provider).
Import Main.

Lemma data_tool_eq (query : string) (self : agent) :
  exists filtered summary,
    data_tool llm query self =
      (Ok (DataResult
             (response_text (llm (calls self) (chat_messages query (Some sql_system))))
             filtered summary),
       Agent (memory self) (S (S (calls self)))).
Proof.
  unfold data_tool, mbind at 1. rewrite get_llm_response_eq.
  set (sql_query := response_text _).
  destruct (parse_sql_conditions_ok sql_query) as (cs & Hcs & Hup).
  destruct (apply_conditions_sample cs Hup) as [E _].
  unfold mbind at 1, lift. rewrite Hcs. unfold mbind at 1. rewrite E.
  unfold mbind. rewrite get_llm_response_eq. cbn [ret calls memory].
  by eexists _, _.
Qed.

Lemma reporting_tool_eq (query : string) (self : agent) :
  reporting_tool llm query self =
    (Ok (main_report (llm (calls self) (main_reporting_messages query))),
     Agent (memory self) (S (calls self))).
Proof. unfold reporting_tool, mbind. by rewrite get_llm_response_eq. Qed.

Lemma memory_tool_eq (query : string) (self : agent) :
  memory_tool llm query self =
    match memory self with
    | [] => (Ok NoMemoryResult, self)
    | mem =>
        (Ok (MemoryResult mem
               (response_text (llm (calls self)
                  (chat_messages (memory_prompt query mem) (Some memory_system))))),
         Agent mem (S (calls self)))
    end.
Proof.
  unfold memory_tool. destruct (memory self) as [|e mem] eqn:E; [done|].
  unfold mbind. rewrite get_llm_response_eq. by rewrite E.
Qed.

(** The handler of a label: its result carries the first label the text
    contains, it leaves the memory alone, and with the classification the
    requests are those of its result. *)
Lemma dispatch_eq (tool query : string) (self : agent) :
  exists r self',
    dispatch llm tool query self = (Ok r, self') /\
    tool_tag r = first_label tool /\
    memory self' = memory self /\
    S (calls self') = (calls self + requests_of r)%nat.
Proof.
  unfold dispatch, first_label.
  destruct (Str.contains "data_tool" tool).
  { destruct (data_tool_eq query self) as (fd & summary & ->).
    eexists _, _. split_and!; [done..|]. simpl. lia. }
  destruct (Str.contains "reporting_tool" tool).
  { rewrite reporting_tool_eq. eexists _, _. split_and!; [done..|]. simpl. lia. }
  destruct (Str.contains "memory_tool" tool).
  { rewrite memory_tool_eq. destruct (memory self) as [|e mem] eqn:E.
    - eexists _, _. split_and!; [done..|]. simpl. lia.
    - eexists _, _. split_and!; [done..|]. simpl. lia. }
  destruct (Str.contains "greeting" tool).
  { eexists _, _. split_and!; [done..|]. simpl. lia. }
  eexists _, _. split_and!; [done..|]. simpl. lia.
Qed.

(** [process_query]: the classification, the handler of the normalized
    reply, the memory. *)
Lemma process_query_eq (query : string) (self : agent) :
  process_query llm query self =
    let tool := Str.lower (Str.strip
                  (response_text (llm (calls self) (main_routing_messages query)))) in
    match dispatch llm tool query (Agent (memory self) (S (calls self))) with
    | (Ok r, self') =>
        (Ok r, Agent (if is_recorded r
                      then record_entry (memory self') (query, r)
                      else memory self') (calls self'))
    | (Raise e, self') => (Raise e, self')
    end.
Proof.
  unfold process_query, route_query, mbind at 1 2. rewrite get_llm_response_eq.
  cbn [ret]. unfold mbind at 1. cbv zeta. unfold main_routing_messages.
  destruct (dispatch llm _ query _) as [[r|e] self']; [|done].
  unfold mbind, add_to_memory, ret. destruct (is_recorded r); [done|]. by destruct self'.
Qed.

(** X11.  A query of [src/main.py] costs three requests when it ends with a
    data result, two with a reporting result or with previous queries
    recalled, and one (the classification) with a greeting, the fallback or
    the answer that the memory is empty. *)
Theorem main_requests_per_query (query : string) (self : agent) :
  exists r self',
    process_query llm query self = (Ok r, self') /\
    calls self' = (calls self + requests_of r)%nat.
Proof.
  rewrite process_query_eq. cbv zeta.
  set (tool := Str.lower _). set (self1 := Agent _ _).
  destruct (dispatch_eq tool query self1) as (r & self2 & -> & _ & _ & Hc).
  exists r. eexists. split; [done|]. subst self1. simpl in *. lia.
Qed.

(** X12.  The result of a query of [src/main.py] carries the first label, in
    the order [data_tool], [reporting_tool], [memory_tool], [greeting], that
    the normalized text of the classification contains, and [fallback]
    when it contains none; the text is the reply, or the error text when
    the request failed. *)
Theorem main_runs_the_first_label (query : string) (self : agent) :
  exists r self',
    process_query llm query self = (Ok r, self') /\
    tool_tag r =
      first_label (Str.lower (Str.strip
        (response_text (llm (calls self) (main_routing_messages query))))).
Proof.
  rewrite process_query_eq. cbv zeta.
  set (tool := Str.lower _). set (self1 := Agent _ _).
  destruct (dispatch_eq tool query self1) as (r & self2 & -> & Htag & _).
  exists r. eexists. by split.
Qed.

(** X13.  When the classification request fails in [src/main.py], with an
    error text that names none of the four labels, the query is answered
    with the fallback result: one request, and the memory as it was. *)
Theorem main_provider_failure_is_fallback (query msg : string) (self : agent) :
  llm (calls self) (main_routing_messages query) = Fails msg ->
  Str.contains_any ["data_tool"; "reporting_tool"; "memory_tool"; "greeting"]
    (Str.lower (Str.strip ("Error calling Mistral AI: " +:+ msg))) = false ->
  process_query llm query self =
    (Ok (FallbackResult can_help), Agent (memory self) (S (calls self))).
Proof.
  intros Hfail Hnone. rewrite process_query_eq, Hfail. cbn [response_text]. cbv zeta.
  unfold Str.contains_any in Hnone. simpl in Hnone.
  apply orb_false_iff in Hnone as [Hd Hnone].
  apply orb_false_iff in Hnone as [Hr Hnone].
  apply orb_false_iff in Hnone as [Hm Hnone].
  apply orb_false_iff in Hnone as [Hg _].
  unfold dispatch. by rewrite Hd, Hr, Hm, Hg.
Qed.

(** X14.  The reporting tool of [src/main.py] formats the sample records,
    whatever the query holds: the request carries them, the result names
    them as its raw data and no data source, and the exchange is
    recorded. *)
Theorem main_reporting_formats_the_sample (query reply : string) (self : agent) :
  llm (calls self) (main_routing_messages query) = Content reply ->
  Str.contains "data_tool" (Str.lower (Str.strip reply)) = false ->
  Str.contains "reporting_tool" (Str.lower (Str.strip reply)) = true ->
  process_query llm query self =
    (Ok (main_report (llm (S (calls self)) (main_reporting_messages query))),
     Agent (record_entry (memory self)
              (query, main_report (llm (S (calls self)) (main_reporting_messages query))))
           (S (S (calls self)))).
Proof.
  intros Hreply Hd Hr.
  rewrite process_query_eq, Hreply. cbn [response_text]. cbv zeta.
  unfold dispatch. rewrite Hd, Hr, reporting_tool_eq. reflexivity.
Qed.

(** X15.  The memory tool of [src/main.py] answers from the entries held
    before the query and leaves them as they are: with an empty memory it
    returns the canned answer without a second request, otherwise it sends
    one request that carries the entries and returns them with the
    summary. *)
Theorem main_memory_tool_recalls (query reply : string) (self : agent) :
  llm (calls self) (main_routing_messages query) = Content reply ->
  Str.contains_any ["data_tool"; "reporting_tool"] (Str.lower (Str.strip reply)) = false ->
  Str.contains "memory_tool" (Str.lower (Str.strip reply)) = true ->
  process_query llm query self =
    match memory self with
    | [] => (Ok NoMemoryResult, Agent [] (S (calls self)))
    | mem =>
        (Ok (MemoryResult mem
               (response_text (llm (S (calls self))
                  (chat_messages (memory_prompt query mem) (Some memory_system))))),
         Agent mem (S (S (calls self))))
    end.
Proof.
  intros Hreply Hnone Hm. rewrite process_query_eq, Hreply. cbn [response_text]. cbv zeta.
  unfold Str.contains_any in Hnone. simpl in Hnone.
  apply orb_false_iff in Hnone as [Hd Hnone].
  apply orb_false_iff in Hnone as [Hr _].
  unfold dispatch. rewrite Hd, Hr, Hm, memory_tool_eq. cbn [memory calls].
  by destruct (memory self).
Qed.

End MainLaws.

(** ** [extract_json_from_query]: the candidates *)

Section Brackets.
Import Re.
Variables o c : ascii.

Lemma rcut_none (s : string) :
  rcut c s = None -> Str.all (fun a => negb (Chr.eqb c a)) s = true.
Proof.
  induction s as [|a s IH]; simpl; [done|].
  destruct (rcut c s) as [[x y]|]; [done|]. unfold Chr.eqb.
  destruct (Ascii.eqb c a); [done|]. intros _. by apply IH.
Qed.

Lemma rcut_rest (s x y : string) :
  rcut c s = Some (x, y) -> Str.all (fun a => negb (Chr.eqb c a)) y = true.
Proof.
  revert x. induction s as [|a s IH]; intros x; simpl; [done|].
  destruct (rcut c s) as [[x' y']|] eqn:E.
  - intros [= <- <-]. by eapply IH.
  - destruct (Ascii.eqb c a); [|done]. intros [= <- <-]. by apply rcut_none.
Qed.

(** The greedy [.*] gives characters back down to the last [c]. *)
Lemma dot_star_close (taken s : string) :
  star Chr.any (fun taken s' => extend dot_star taken (match_here [lit c] s')) taken s =
    match rcut c s with
    | Some (x, y) => Some (Found (taken +:+ x +:+ String c "") [] y)
    | None => None
    end.
Proof.
  revert taken. induction s as [|a s IH]; intros taken; [done|].
  cbn [star Chr.any rcut]. rewrite IH.
  destruct (rcut c s) as [[x y]|].
  - by rewrite str_app_assoc.
  - cbn. unfold Chr.eqb. destruct (Ascii.eqb c a) eqn:E; [|done].
    apply Ascii.eqb_eq in E as <-. cbn. by rewrite !str_app_nil_r.
Qed.

Lemma bracket_here (a : ascii) (t : string) :
  match_here (bracket o c) (String a t) =
    if Ascii.eqb o a
    then match rcut c t with
         | Some (x, y) => Some (Found (String a (x +:+ String c "")) [] y)
         | None => None
         end
    else None.
Proof.
  unfold bracket. rewrite match_here_cons. cbn [rep lit once cls]. unfold Chr.eqb.
  destruct (Ascii.eqb o a); [|done].
  rewrite match_here_cons. cbn [rep dot_star cls]. rewrite dot_star_close.
  by destruct (rcut c t) as [[x y]|].
Qed.

Lemma bracket_needs_close (s : string) :
  Str.all (fun a => negb (Chr.eqb c a)) s = true -> search [bracket o c] s = None.
Proof.
  intros Hs. eapply search_none; [|exact Hs]. intros t Ht. cbn [match_alt].
  change (bracket o c) with ([lit o; dot_star] ++ lit c :: []).
  by rewrite match_here_needs.
Qed.

(** The leftmost match starts at the first [o] and ends at the last [c]. *)
Lemma bracket_search (q : string) :
  search [bracket o c] q =
    match Str.partition (String o "") q with
    | Some (pre, t) =>
        match rcut c t with
        | Some (x, y) => Some (pre, Found (String o (x +:+ String c "")) [] y)
        | None => None
        end
    | None => None
    end.
Proof.
  induction q as [|a q IH]; [done|].
  cbn [search match_alt Str.partition]. rewrite bracket_here, prefix_cons.
  assert (Hp : String.prefix "" q = true) by (by destruct q). rewrite Hp, andb_true_r.
  destruct (Ascii.eqb o a) eqn:E.
  - apply Ascii.eqb_eq in E as <-. cbn [String.length Str.drop].
    destruct (rcut c q) as [[x y]|] eqn:Er; [done|].
    by rewrite (bracket_needs_close q (rcut_none q Er)).
  - rewrite IH. destruct (Str.partition (String o "") q) as [[pre t]|]; [|done].
    by destruct (rcut c t) as [[x y]|].
Qed.

(** [re.findall] gives at most one candidate: the outermost span. *)
Lemma bracket_findall (q : string) :
  findall [bracket o c] q = option_list (span o c q).
Proof.
  unfold findall, span. cbn [findall_fuel]. rewrite bracket_search.
  destruct (Str.partition (String o "") q) as [[pre t]|] eqn:Ep; [|done].
  destruct (rcut c t) as [[x y]|] eqn:Er; [|done].
  unfold option_list. cbn [whole rest option_rect]. f_equal.
  destruct q as [|a q]; [done|]. cbn [String.length findall_fuel].
  by rewrite (bracket_needs_close y (rcut_rest _ _ _ Er)).
Qed.

Lemma span_shape (q m : string) :
  span o c q = Some m -> exists x, m = String o (x +:+ String c "").
Proof.
  unfold span. destruct (Str.partition _ q) as [[pre t]|]; [|done].
  destruct (rcut c t) as [[x y]|]; [|done]. intros [= <-]. by exists x.
Qed.

End Brackets.

Section JsonLaws.
Context `{RT : Runtime}.

(** The second parse attempt is given the text the first one rejected. *)
Lemma load_bracketed (o c : ascii) (x : string) :
  Chr.is_space o = false -> Chr.is_space c = false -> Ascii.eqb c "," = false ->
  Campaign.load (String o (x +:+ String c "")) = json_loads (String o (x +:+ String c "")).
Proof.
  intros Ho Hc Hcomma. unfold Campaign.load.
  destruct (json_loads _) as [v|] eqn:E; [done|].
  assert (Hs : Str.strip (String o (x +:+ String c "")) = String o (x +:+ String c "")).
  { unfold Str.strip. rewrite lstrip_id by (simpl; by rewrite Ho).
    rewrite <- str_app_cons. apply rstrip_app; [done|]. simpl. by rewrite Hc. }
  rewrite Hs. rewrite <- str_app_cons, endswith_app by done.
  cbn [Str.endswith]. by rewrite Hcomma, str_app_cons.
Qed.

Lemma first_loaded_span (o c : ascii) (q : string) :
  Chr.is_space o = false -> Chr.is_space c = false -> Ascii.eqb c "," = false ->
  Campaign.first_loaded (option_list (span o c q)) = loaded (span o c q).
Proof.
  intros Ho Hc Hcomma. destruct (span o c q) as [m|] eqn:E; [|done].
  destruct (span_shape _ _ _ _ E) as (x & ->).
  unfold option_list. cbn [option_rect Campaign.first_loaded loaded].
  rewrite load_bracketed by done. by destruct (json_loads _).
Qed.

(** X16.  Each of the two patterns of [extract_json_from_query] gives at
    most one candidate: the text from the first opening character of the
    query to the last closing character after it.  The payload is what
    [json.loads] reads from the candidate in braces, and when there is none
    or it does not parse, what it reads from the candidate in brackets. *)
Theorem json_candidates_are_the_outer_spans (q : string) :
  Re.findall [Campaign.json_object] q = option_list (span "{" "}" q) /\
  Re.findall [Campaign.json_array] q = option_list (span "[" "]" q) /\
  Campaign.extract_json_from_query q =
    match loaded (span "{" "}" q) with
    | Some v => Some v
    | None => loaded (span "[" "]" q)
    end.
Proof.
  pose proof (bracket_findall "{" "}" q) as Ho.
  pose proof (bracket_findall "[" "]" q) as Ha.
  change (bracket "{" "}") with Campaign.json_object in Ho.
  change (bracket "[" "]") with Campaign.json_array in Ha.
  split_and!; [done..|].
  unfold Campaign.extract_json_from_query. rewrite Ho, Ha.
  by rewrite !first_loaded_span.
Qed.

(** X17.  The second parse attempt of [extract_json_from_query] never
    rescues a candidate: a candidate starts and ends with its delimiters,
    so that [strip] and the removal of a trailing comma leave it as it is,
    and [json.loads] is given the text it has just rejected. *)
Theorem json_retry_changes_nothing (q m : string) :
  m ∈ Re.findall [Campaign.json_object] q ++ Re.findall [Campaign.json_array] q ->
  Campaign.load m = json_loads m.
Proof.
  pose proof (bracket_findall "{" "}" q) as Ho.
  pose proof (bracket_findall "[" "]" q) as Ha.
  change (bracket "{" "}") with Campaign.json_object in Ho.
  change (bracket "[" "]") with Campaign.json_array in Ha.
  rewrite Ho, Ha. intros [Hm|Hm]%elem_of_app.
  - destruct (span "{" "}" q) as [m'|] eqn:E; [|by apply elem_of_nil in Hm].
    apply list_elem_of_singleton in Hm as ->.
    destruct (span_shape _ _ _ _ E) as (x & ->). by apply load_bracketed.
  - destruct (span "[" "]" q) as [m'|] eqn:E; [|by apply elem_of_nil in Hm].
    apply list_elem_of_singleton in Hm as ->.
    destruct (span_shape _ _ _ _ E) as (x & ->). by apply load_bracketed.
Qed.

End JsonLaws.

(** ** [src/campaign.py]: how a query can end *)

Section CampaignLaws.
Context `{RT : Runtime} {W : Wording} (llm : provider).
Import Campaign.

Lemma path_map_handler (l : string) (n : node) :
  path_map !! l = Some n -> is_handler n = true.
Proof. intros H. by destruct (path_map_lookup _ _ H) as [->|[->|[->|[->| ->]]]]. Qed.

(** A handler node, and [update_memory] after it when it is a recording
    one: two steps at most. *)
Lemma run_handler (k : nat) (n : node) (st : AgentState) (c : nat) :
  is_handler n = true ->
  run llm (S (S k)) n st c =
    mbind (run_node llm n st)
          (fun st' => if recording n then update_memory_node st' else ret st') c.
Proof.
  intros Hn. destruct n; try done.
  - rewrite (run_edge _ _ _ update_memory) by reflexivity. unfold mbind.
    destruct (run_node llm process_data_tool st c) as [[st'|e] c']; [|done].
    by rewrite run_end.
  - rewrite (run_edge _ _ _ update_memory) by reflexivity. unfold mbind.
    destruct (run_node llm process_reporting_tool st c) as [[st'|e] c']; [|done].
    by rewrite run_end.
Qed.

(** The first two nodes, for any limit. *)
Lemma run_entry (k : nat) (st : AgentState) (c : nat) :
  run llm (S (S k)) entry_point st c =
    let st1 := set_json_data (extract_json_from_query (query st)) st in
    match llm c (routing_messages (query st)) with
    | Fails msg => (Raise (ProviderError msg), S c)
    | Content reply =>
        let t := label (json_data st1) reply in
        match path_map !! t with
        | Some n => run llm k n (set_tool t st1) (S c)
        | None => (Raise (KeyError t), S c)
        end
    end.
Proof.
  unfold entry_point.
  rewrite (run_edge _ _ _ route_query) by reflexivity.
  unfold mbind at 1. cbn [run_node extract_json_node ret].
  cbn [run]. unfold mbind at 1. cbn [run_node].
  unfold route_query_node, mbind at 1, invoke_chain, routing_messages. simpl query.
  destruct (llm c _) as [reply|msg]; [|done].
  cbn [ret]. unfold mbind at 1, lift, next. cbn [edges route_condition tool set_tool].
  by destruct (path_map !! _).
Qed.

Lemma data_node_eq (st : AgentState) (c : nat) :
  exists filtered,
    process_data_tool_node llm st c =
      match llm c [("system", sql_system); ("human", query st)] with
      | Fails msg => (Raise (ProviderError msg), S c)
      | Content sql_query =>
          match llm (S c) [("system", summary_system);
                           ("human", summary_prompt (filtered sql_query) (query st))] with
          | Fails msg => (Raise (ProviderError msg), S (S c))
          | Content summary =>
              (Ok (set_result (DataResult sql_query (filtered sql_query) summary) st),
               S (S c))
          end
      end.
Proof.
  exists (fun sql_query =>
            match Extract.parse_sql_conditions sql_query with
            | Ok [] => campaign_sample_data
            | _ => []
            end).
  unfold process_data_tool_node, mbind at 1, invoke_chain.
  destruct (llm c _) as [sql_query|msg]; [|done].
  destruct (parse_sql_conditions_ok sql_query) as (cs & Hcs & Hup).
  destruct (apply_conditions_sample cs Hup) as [_ E].
  unfold mbind at 1, lift. rewrite Hcs. unfold mbind at 1. rewrite E.
  unfold mbind, ret.
  assert (Hf : contents campaign_sample_data
                 match cs with [] => TheInput | _ => NewList [] end
               = match cs with [] => campaign_sample_data | _ => [] end)
    by (by destruct cs).
  rewrite Hf. by destruct (llm (S c) _).
Qed.

Lemma reporting_node_eq (st : AgentState) (c : nat) :
  process_reporting_tool_node llm st c =
    match llm c (reporting_messages (query st) (json_data st)) with
    | Fails msg => (Raise (ProviderError msg), S c)
    | Content formatted_output =>
        (Ok (set_result
               (ReportingResult formatted_output
                  (Some (snd (reporting_data (json_data st))))
                  (fst (reporting_data (json_data st)))) st), S c)
    end.
Proof.
  unfold process_reporting_tool_node, reporting_messages, reporting_data, mbind,
    invoke_chain, ret.
  destruct (json_data st); cbn [fst snd]; by destruct (llm c _).
Qed.

(** What a handler, and the memory update after it, leave behind. *)
Lemma handler_outcome (n : node) (st : AgentState) (c : nat) :
  is_handler n = true ->
  match mbind (run_node llm n st)
              (fun st' => if recording n then update_memory_node st' else ret st') c with
  | (Ok st', c') =>
      exists r, result_ st' = Some r /\
                tool_tag r ∈ ["data_tool"; "reporting_tool"; "memory_tool";
                              "greeting"; "fallback"] /\
                S c' = (c + requests_of r)%nat /\
                tool_tag r = node_label n
  | (Raise (ProviderError msg), c') =>
      (c < c' <= c + 2)%nat /\ exists messages, llm (pred c') messages = Fails msg
  | (Raise _, _) => False
  end.
Proof.
  intros Hn. destruct n; try done; unfold mbind; cbn [run_node recording node_label].
  - destruct (data_node_eq st c) as (filtered & ->).
    destruct (llm c _) as [sql|msg] eqn:E1.
    + destruct (llm (S c) _) as [summary|msg] eqn:E2.
      * cbn. eexists. split_and!; [done|set_solver|simpl; lia|done].
      * split; [lia|]. eexists. exact E2.
    + split; [lia|]. eexists. exact E1.
  - rewrite reporting_node_eq. destruct (llm c _) as [out|msg] eqn:E1.
    + cbn. eexists. split_and!; [done|set_solver|simpl; lia|done].
    + split; [lia|]. eexists. exact E1.
  - unfold process_memory_tool_node. destruct (memory st) as [|e mem] eqn:Em.
    + cbn. eexists. split_and!; [done|set_solver|simpl; lia|done].
    + unfold mbind, invoke_chain. destruct (llm c _) as [summary|msg] eqn:E1.
      * cbn. eexists. split_and!; [done|set_solver|simpl; lia|done].
      * split; [lia|]. eexists. exact E1.
  - cbn. eexists. split_and!; [done|set_solver|simpl; lia|done].
  - cbn. eexists. split_and!; [done|set_solver|simpl; lia|done].
Qed.


Lemma path_map_label (l : string) (n : node) :
  path_map !! l = Some n -> node_label n = l.
Proof.
  unfold path_map. intros H.
  repeat (apply lookup_insert_Some in H as [[<- <-]|[_ H]]; [done|]).
  by rewrite lookup_empty in H.
Qed.

(** X23.  When a query of [src/campaign.py] returns, the handler that ran
    is the one the stored label names: the result carries the label, which
    is the normalized reply of the classifier, or [reporting_tool] when a
    payload forced it. *)
Theorem campaign_runs_the_labelled_handler (q reply : string) (c c' : nat)
    (r : result) :
  llm c (routing_messages q) = Content reply ->
  process_query llm q c = (Ok (Some r), c') ->
  tool_tag r = label (extract_json_from_query q) reply.
Proof.
  intros Hreply. unfold process_query, mbind, invoke, recursion_limit.
  rewrite run_entry. cbv zeta. cbn [query initial_state]. rewrite Hreply.
  cbn [json_data set_json_data].
  set (t := label _ reply). set (st2 := set_tool t _).
  destruct (path_map !! t) as [n|] eqn:En; [|done].
  pose proof (path_map_handler _ _ En) as Hn.
  rewrite run_handler by done.
  pose proof (handler_outcome n st2 (S c) Hn) as H.
  destruct (mbind _ _ (S c)) as [[st'|e] c1]; [|done].
  destruct H as (r' & Hr & _ & _ & Htag). cbn [ret]. rewrite Hr.
  intros [= <- <-]. by rewrite Htag, (path_map_label _ _ En).
Qed.

(** X19.  In [src/campaign.py] a failure of the classification request ends
    the query with the exception of the provider: no handler runs, and
    nothing is returned. *)
Theorem campaign_provider_failure_raises (q msg : string) (c : nat) :
  llm c (routing_messages q) = Fails msg ->
  process_query llm q c = (Raise (ProviderError msg), S c).
Proof.
  intros Hfail. unfold process_query, mbind, invoke, recursion_limit.
  rewrite run_entry. cbv zeta. cbn [query initial_state]. by rewrite Hfail.
Qed.

(** X20.  The graph of [_build_graph] has no cycle and no path of more than
    four nodes (the extraction, the classification, a handler, the memory
    update): a run that may visit four nodes or more ends as the run under
    the default limit of 25. *)
Theorem four_steps_are_enough (limit : nat) (st : AgentState) (c : nat) :
  (4 <= limit)%nat ->
  run llm limit entry_point st c = invoke llm st c.
Proof.
  intros Hlimit. destruct limit as [|[|[|[|k]]]]; try lia.
  unfold invoke, recursion_limit. rewrite !run_entry. cbv zeta.
  destruct (llm c _) as [reply|msg]; [|done].
  destruct (path_map !! _) as [n|] eqn:En; [|done].
  by rewrite !run_handler by (by eapply path_map_handler).
Qed.

(** X21.  When the normalized reply is [reporting_tool], the reporting node
    of [src/campaign.py] formats the payload extracted from the query
    whenever there is one, an empty object or array too, and names it "JSON
    data from your query"; it formats the sample records, named as such,
    only when nothing was extracted. *)
Theorem campaign_reporting_source (q reply : string) (c : nat) :
  llm c (routing_messages q) = Content reply ->
  Str.lower (Str.strip reply) = "reporting_tool" ->
  process_query llm q c =
    match llm (S c) (reporting_messages q (extract_json_from_query q)) with
    | Fails msg => (Raise (ProviderError msg), S (S c))
    | Content formatted_output =>
        (Ok (Some (ReportingResult formatted_output
                     (Some (snd (reporting_data (extract_json_from_query q))))
                     (fst (reporting_data (extract_json_from_query q))))),
         S (S c))
    end.
Proof.
  intros Hreply Hlabel. unfold process_query, mbind at 1, invoke, recursion_limit.
  rewrite run_entry. cbv zeta. cbn [query initial_state]. rewrite Hreply.
  assert (Hl : label (extract_json_from_query q) reply = "reporting_tool").
  { unfold label. rewrite Hlabel. by rewrite andb_false_r. }
  cbn [json_data set_json_data]. rewrite Hl.
  change (path_map !! "reporting_tool") with (Some process_reporting_tool).
  cbv beta iota. rewrite run_handler by done.
  unfold mbind. cbn [run_node recording]. rewrite reporting_node_eq.
  cbn [query json_data set_tool set_json_data].
  by destruct (llm (S c) _).
Qed.

End CampaignLaws.

(** ** The greeting test *)

Lemma str_map_app (f : ascii -> ascii) (a b : string) :
  Str.map f (a +:+ b) = Str.map f a +:+ Str.map f b.
Proof. induction a as [|c a IH]; [done|]. rewrite !str_app_cons. simpl. by rewrite IH. Qed.

(** A text whose image is a concatenation is the concatenation of texts
    with these images. *)
Lemma str_map_app_inv (f : ascii -> ascii) (q a b : string) :
  Str.map f q = a +:+ b ->
  exists qa qb, q = qa +:+ qb /\ Str.map f qa = a /\ Str.map f qb = b.
Proof.
  revert q. induction a as [|c a IH]; intros q.
  - intros H. by exists "", q.
  - rewrite str_app_cons. destruct q as [|d q]; [done|]. simpl.
    intros [= Hd Hq]. destruct (IH q Hq) as (qa & qb & -> & Ha & Hb).
    exists (String d qa), qb. simpl. by rewrite Hd, Ha.
Qed.

(** X22.  On an ASCII query the greeting handlers of both files answer
    with the greeting exactly when the query contains one of the six
    keywords in any letter case, anywhere in its text, inside a word too;
    every other query gets the sentence of the fallback. *)
Theorem greeting_is_a_substring_test (query : string) :
  isascii query = true ->
  (greeting_response query = hello <->
   exists before g after,
     query = before +:+ g +:+ after /\ Str.lower g ∈ greetings) /\
  (greeting_response query = hello \/ greeting_response query = can_help).
Proof.
  intros _. unfold greeting_response, Str.contains_any. split; [split|].
  - destruct (existsb _ greetings) eqn:E; [|done]. intros _.
    apply existsb_exists in E as (k & Hk & Hc).
    apply contains_partition in Hc as (a & b & Hp). apply partition_eq in Hp.
    apply str_map_app_inv in Hp as (before & rest & -> & _ & Hrest).
    apply str_map_app_inv in Hrest as (g & after & -> & Hg & _).
    exists before, g, after. split; [done|]. unfold Str.lower. rewrite Hg.
    by apply list_elem_of_In.
  - intros (before & g & after & -> & Hg).
    assert (E : existsb (fun k => Str.contains k (Str.lower (before +:+ g +:+ after)))
                        greetings = true).
    { apply existsb_exists. exists (Str.lower g). split; [by apply list_elem_of_In|].
      unfold Str.lower. rewrite !str_map_app. apply contains_app_r, contains_at_prefix. }
    by rewrite E.
  - destruct (existsb _ greetings); auto.
Qed.

(** ** The further properties on concrete inputs *)

Module Checks.
Import Example.
Local Open Scope nat_scope.

Lemma where_clause_is_cut_witness :
  Str.upper "select * from campaigns where channel = 'Email' order by clicks" =
    "SELECT * FROM CAMPAIGNS " +:+ "WHERE" +:+ " CHANNEL = 'EMAIL' " +:+ "ORDER BY CLICKS" /\
  Str.contains "WHERE" "SELECT * FROM CAMPAIGNS " = false /\
  no_keyword " CHANNEL = 'EMAIL' " = true /\
  ends_clause "ORDER BY CLICKS" = true /\
  Extract.parse_sql_conditions
    "select * from campaigns where channel = 'Email' order by clicks" =
    Extract.extract_conditions (Str.strip " CHANNEL = 'EMAIL' ").
Proof.
  split_and!; [reflexivity..|].
  exact (where_clause_is_cut
           "select * from campaigns where channel = 'Email' order by clicks"
           "SELECT * FROM CAMPAIGNS " " CHANNEL = 'EMAIL' " "ORDER BY CLICKS"
           eq_refl eq_refl eq_refl eq_refl).
Defined.

(** What follows the clause is not read: a second [WHERE], [GROUP BY],
    [ORDER BY]; a [LIMIT] is. *)
Example the_clause_ends_at_a_keyword :
  Extract.parse_sql_conditions "SELECT a WHERE b = 1 ORDER BY c GROUP BY d WHERE e = 2" =
    Ok [MkCondition "B" OpEq "1"] /\
  Extract.parse_sql_conditions "SELECT a WHERE b = 1 AND c = 2 LIMIT 5" =
    Ok [MkCondition "B" OpEq "1"; MkCondition "C" OpEq "2"] /\
  Extract.parse_sql_conditions "SELECT a WHERE b = 1 LIMIT c = 2" =
    Ok [MkCondition "B" OpEq "1"].
Proof. split_and!; reflexivity. Qed.

Lemma equality_on_a_like_name_witness :
  nonempty "likes" = true /\ Str.all Chr.is_word "likes" = true /\
  Str.contains "LIKE" (Str.upper "likes") = true /\
  Str.all Chr.is_space " " = true /\
  nonempty "5" = true /\ Str.all Chr.is_digit "5" = true /\
  Extract.extract_conditions "likes = 5" = Ok [MkCondition "likes" OpLike "5"].
Proof.
  split_and!; [reflexivity..|].
  exact (equality_on_a_like_name "likes" " " " " "5"
           eq_refl eq_refl eq_refl eq_refl eq_refl eq_refl eq_refl).
Defined.




(** With [OR] the filter still asks for both conditions. *)
Example or_keeps_what_and_keeps :
  (let! cs := Extract.extract_conditions "channel = 'Email' OR influenced_revenue > 100" in
   filter_by [email; sms] cs) = Ok [email].
Proof. reflexivity. Qed.

Lemma unread_query_filters_nothing_witness :
  isascii "SELECT * FROM campaigns WHERE channel IN ('Email')" = true /\
  Str.all no_sign "SELECT * FROM campaigns WHERE channel IN ('Email')" = true /\
  Str.contains "LIKE"
    (Str.upper "SELECT * FROM campaigns WHERE channel IN ('Email')") = false /\
  Extract.parse_sql_conditions "SELECT * FROM campaigns WHERE channel IN ('Email')"
    = Ok [] /\
  filtered_data [email; sms] "SELECT * FROM campaigns WHERE channel IN ('Email')"
    = Ok [email; sms].
Proof.
  split_and!; [reflexivity..| |].
  - exact (proj1 (unread_query_filters_nothing [email; sms]
                    "SELECT * FROM campaigns WHERE channel IN ('Email')"
                    eq_refl eq_refl eq_refl)).
  - exact (proj2 (unread_query_filters_nothing [email; sms]
                    "SELECT * FROM campaigns WHERE channel IN ('Email')"
                    eq_refl eq_refl eq_refl)).
Defined.

Lemma filter_is_idempotent_witness :
  filter_by [email; sms] [MkCondition "channel" OpEq "Email"] = Ok [email] /\
  filter_by [email] [MkCondition "channel" OpEq "Email"] = Ok [email].
Proof.
  split; [reflexivity|].
  exact (filter_is_idempotent [email; sms] [email]
           [MkCondition "channel" OpEq "Email"] eq_refl).
Defined.

(** The order of the conditions decides whether a call raises: a record
    that fails the first condition does not reach the second. *)
Example a_failed_condition_hides_a_bad_value :
  filter_by [email; sms] [MkCondition "channel" OpEq "Fax";
                          MkCondition "influenced_revenue" OpGt "many"] = Ok [] /\
  filter_by [email; sms] [MkCondition "influenced_revenue" OpGt "many";
                          MkCondition "channel" OpEq "Fax"] = Raise (ValueError "many") /\
  filter_by [email; sms] [MkCondition "channel" OpGt "many"] = Ok [] /\
  filter_by [email; sms] [MkCondition "revenue" OpLike "("] = Ok [] /\
  filter_by [email; sms] [MkCondition "channel" OpLike "("] = Raise RegexError.
Proof. split_and!; reflexivity. Qed.

Lemma memory_holds_the_last_two_witness :
  (length (Main.memory Main.init) <= 2)%nat /\
  exists rs self',
    process_all two_queries
      ["Show me revenue by channel"; "Summarize the previous results"] Main.init
      = (Ok rs, self') /\
    map fst rs = ["Show me revenue by channel"; "Summarize the previous results"] /\
    Main.memory self' = last_two (Main.memory Main.init ++ recorded rs).
Proof.
  split; [simpl; lia|].
  apply (memory_holds_the_last_two two_queries
           ["Show me revenue by channel"; "Summarize the previous results"] Main.init).
  simpl. lia.
Defined.

(** Three data queries: the memory holds the second and the third. *)
Example three_data_queries :
  let llm := script [Content "data_tool"; Content "SELECT 1"; Content "one";
                     Content "data_tool"; Content "SELECT 2"; Content "two";
                     Content "data_tool"; Content "SELECT 3"; Content "three"] in
  Main.memory (snd (process_all llm ["q1"; "q2"; "q3"] Main.init)) =
    [("q2", DataResult "SELECT 2" main_sample_data "two");
     ("q3", DataResult "SELECT 3" main_sample_data "three")].
Proof. reflexivity. Qed.

Lemma main_provider_failure_is_fallback_witness :
  let llm := script [Fails "timeout"] in
  llm 0%nat (main_routing_messages "Show me revenue by channel") = Fails "timeout" /\
  Str.contains_any ["data_tool"; "reporting_tool"; "memory_tool"; "greeting"]
    (Str.lower (Str.strip ("Error calling Mistral AI: " +:+ "timeout"))) = false /\
  Main.process_query llm "Show me revenue by channel" Main.init =
    (Ok (FallbackResult can_help), Main.Agent [] 1).
Proof.
  intros llm. split_and!; [reflexivity..|].
  exact (main_provider_failure_is_fallback llm "Show me revenue by channel" "timeout"
           Main.init eq_refl eq_refl).
Defined.

(** An error text that names a tool runs that tool. *)
Example an_error_text_can_name_a_tool :
  exists summary self',
    Main.process_query (script [Fails "no route to data_tool.example.org"])
                       "hello" Main.init
    = (Ok (DataResult "Error calling Mistral AI: connection refused"
                      main_sample_data summary), self').
Proof. eexists _, _. reflexivity. Qed.

Lemma main_reporting_formats_the_sample_witness :
  let llm := script [Content "reporting_tool"; Content "| campaign |"] in
  let q := "Format {} as a table" in
  llm 0%nat (main_routing_messages q) = Content "reporting_tool" /\
  Str.contains "data_tool" (Str.lower (Str.strip "reporting_tool")) = false /\
  Str.contains "reporting_tool" (Str.lower (Str.strip "reporting_tool")) = true /\
  Main.process_query llm q Main.init =
    (Ok (ReportingResult "| campaign |" None (inr main_sample_data)),
     Main.Agent [(q, ReportingResult "| campaign |" None (inr main_sample_data))] 2).
Proof.
  intros llm q. split_and!; [reflexivity..|].
  exact (main_reporting_formats_the_sample llm q "reporting_tool" Main.init
           eq_refl eq_refl eq_refl).
Defined.

Lemma main_memory_tool_recalls_witness :
  let q1 := "Show me revenue by channel" in
  let r1 := DataResult "SELECT * FROM campaigns" main_sample_data "All campaigns." in
  let self := Main.Agent [(q1, r1)] 3 in
  two_queries 3%nat (main_routing_messages "Summarize the previous results")
    = Content "memory_tool" /\
  Str.contains_any ["data_tool"; "reporting_tool"] (Str.lower (Str.strip "memory_tool"))
    = false /\
  Str.contains "memory_tool" (Str.lower (Str.strip "memory_tool")) = true /\
  Main.process_query two_queries "Summarize the previous results" self =
    (Ok (MemoryResult [(q1, r1)] "You asked for the revenue."), Main.Agent [(q1, r1)] 5).
Proof.
  intros q1 r1 self. split_and!; [reflexivity..|].
  exact (main_memory_tool_recalls two_queries "Summarize the previous results"
           "memory_tool" self eq_refl eq_refl eq_refl).
Defined.

(** Two objects in a query give one candidate, which is no JSON text; an
    array of one object gives the object. *)
Example the_candidate_is_the_outer_span :
  Re.findall [Campaign.json_object] "Compare {} and {} now" = ["{} and {}"] /\
  Campaign.extract_json_from_query "Compare {} and {} now" = None /\
  Campaign.extract_json_from_query "Format [{}] as a table" = Some (JObject []) /\
  Campaign.extract_json_from_query "Format [1], please" = Some (JArray [JNumber 1]).
Proof. split_and!; reflexivity. Qed.

Lemma json_retry_changes_nothing_witness :
  "[1]" ∈ Re.findall [Campaign.json_object] "Format [1] as a table" ++
          Re.findall [Campaign.json_array] "Format [1] as a table" /\
  Campaign.load "[1]" = json_loads "[1]".
Proof.
  assert (H : "[1]" ∈ Re.findall [Campaign.json_object] "Format [1] as a table" ++
                      Re.findall [Campaign.json_array] "Format [1] as a table")
    by (vm_compute; constructor).
  split; [exact H|].
  exact (json_retry_changes_nothing "Format [1] as a table" "[1]" H).
Defined.

Lemma campaign_provider_failure_raises_witness :
  let llm := script [Fails "401 Unauthorized"] in
  llm 0%nat (routing_messages "Show me revenue by channel") = Fails "401 Unauthorized" /\
  Campaign.process_query llm "Show me revenue by channel" 0 =
    (Raise (ProviderError "401 Unauthorized"), 1%nat).
Proof.
  intros llm. split; [reflexivity|].
  exact (campaign_provider_failure_raises llm "Show me revenue by channel"
           "401 Unauthorized" 0 eq_refl).
Defined.

Lemma campaign_runs_the_labelled_handler_witness :
  let llm := script [Content " Greeting "] in
  llm 0%nat (routing_messages "hello") = Content " Greeting " /\
  Campaign.process_query llm "hello" 0 = (Ok (Some (GreetingResult hello)), 1%nat) /\
  tool_tag (GreetingResult hello) =
    Campaign.label (Campaign.extract_json_from_query "hello") " Greeting ".
Proof.
  intros llm. split_and!; [reflexivity..|].
  exact (campaign_runs_the_labelled_handler llm "hello" " Greeting " 0 1
           (GreetingResult hello) eq_refl eq_refl).
Defined.


(** A request of a handler that fails ends the query too. *)
Example campaign_handler_failure_raises :
  Campaign.process_query (script [Content "data_tool"; Content "SELECT 1"])
                         "Show me revenue by channel" 0
    = (Raise (ProviderError "connection refused"), 3%nat).
Proof. reflexivity. Qed.

Lemma four_steps_are_enough_witness :
  let llm := script [Content "data_tool"; Content "SELECT 1"; Content "One row."] in
  (4 <= 4)%nat /\
  Campaign.run llm 4 Campaign.entry_point (Campaign.initial_state "revenue") 0 =
    Campaign.invoke llm (Campaign.initial_state "revenue") 0.
Proof.
  intros llm. split; [lia|].
  apply (four_steps_are_enough llm 4 (Campaign.initial_state "revenue") 0). lia.
Defined.

(** With three steps a data query does not reach its end. *)
Example three_steps_are_not :
  fst (Campaign.run (script [Content "data_tool"; Content "SELECT 1"; Content "One row."])
                    3 Campaign.entry_point (Campaign.initial_state "revenue") 0)
    = Raise GraphRecursionError.
Proof. reflexivity. Qed.

Lemma campaign_reporting_source_witness :
  let llm := script [Content "Reporting_Tool"; Content "| |"] in
  let q := "Format {} as a table" in
  llm 0%nat (routing_messages q) = Content "Reporting_Tool" /\
  Str.lower (Str.strip "Reporting_Tool") = "reporting_tool" /\
  Campaign.process_query llm q 0 =
    (Ok (Some (ReportingResult "| |" (Some "JSON data from your query")
                               (inl (JObject [])))), 2%nat).
Proof.
  intros llm q. split_and!; [reflexivity..|].
  exact (campaign_reporting_source llm q "Reporting_Tool" 0 eq_refl eq_refl).
Defined.

Lemma greeting_is_a_substring_test_witness :
  isascii "Which channel performed best?" = true /\
  (greeting_response "Which channel performed best?" = hello <->
   exists before g after,
     "Which channel performed best?" = before +:+ g +:+ after /\
     Str.lower g ∈ greetings) /\
  (greeting_response "Which channel performed best?" = hello \/
   greeting_response "Which channel performed best?" = can_help).
Proof.
  split; [reflexivity|].
  exact (greeting_is_a_substring_test "Which channel performed best?" eq_refl).
Defined.

(** The greeting is found inside a word. *)
Example a_greeting_inside_a_word :
  greeting_response "Which channel performed best?" = hello /\
  greeting_response "Revenue by channel" = can_help.
Proof. split; reflexivity. Qed.

End Checks.
